(** * KiteForecast: the ensemble blender and the tide engine

    A shallow embedding of [src/api/openmeteo.ts] (blend utilities and the
    BLEND branch of the daily and hourly fetchers) and of [src/api/tide.ts]
    (tide cache, in-flight marker, interpolation and the harmonic simulator).

    JavaScript numbers are embedded as real numbers: [+], [-], [*], [/],
    [Math.sqrt], [Math.sin], [Math.cos] are the exact operations of [R], so
    the rounding error of IEEE doubles, NaN and the infinities are outside
    the model.  [Math.round], [toFixed], [%] and [Math.atan2] are written
    out from their ECMAScript definitions.  The time values of [Date] are
    whole milliseconds, embedded as integers, with the day and year
    arithmetic of ECMAScript and the host's time zone as a function. *)

From Stdlib Require Import Reals Lra Lia String DecimalString ZArith Bool Arith List.
Import ListNotations.
Open Scope R_scope.

(** ** JavaScript number primitives over [R] *)
Module JsNum.

(** [a < b] as the boolean JavaScript computes. *)
Definition ltb (a b : R) : bool := if Rlt_dec a b then true else false.
Definition leb (a b : R) : bool := if Rle_dec a b then true else false.

(** [Math.round]: the integer nearest to [x], ties going up. *)
Definition round (x : R) : R := IZR (Zfloor (x + / 2)).

(** [+x.toFixed(d)]: the nearest multiple of [10^-d]; on a tie the larger
    magnitude ([toFixed] works on [-x] when [x < 0] and restores the sign). *)
Definition toFixed (d : nat) (x : R) : R :=
  if ltb x 0
  then - (IZR (Zfloor (- x * 10 ^ d + / 2)) / 10 ^ d)
  else IZR (Zfloor (x * 10 ^ d + / 2)) / 10 ^ d.

(** Truncation toward zero, the quotient [%] uses. *)
Definition trunc (x : R) : R :=
  if ltb x 0 then IZR (Zceil x) else IZR (Zfloor x).

(** [x % y] on numbers: the remainder has the sign of the dividend. *)
Definition fmod (x y : R) : R := x - y * trunc (x / y).

(** [Math.atan2 y x], with values in (-PI, PI]. *)
Definition atan2 (y x : R) : R :=
  if ltb 0 x then atan (y / x)
  else if ltb x 0 then (if ltb y 0 then atan (y / x) - PI else atan (y / x) + PI)
  else if ltb 0 y then PI / 2
  else if ltb y 0 then - (PI / 2)
  else 0.

(** [Math.max(...l)] and [Math.min(...l)] on a non-empty array (the empty
    spread gives an infinity, which no caller below reaches). *)
Definition maxOf (l : list R) : R :=
  match l with [] => 0 | x :: xs => fold_left Rmax xs x end.
Definition minOf (l : list R) : R :=
  match l with [] => 0 | x :: xs => fold_left Rmin xs x end.

End JsNum.

(** ** The [Date] object over [Z] *)
Module JsDate.

(** A time value is a whole number of milliseconds since the epoch, in
    UTC.  The definitions are those of ECMAScript (Day Number, Year Number,
    Local Time, the Date constructor); [/] on [Z] is the floor division
    they use. *)
Definition msPerDay : Z := 86400000.

Definition Day (t : Z) : Z := (t / msPerDay)%Z.

Definition DayFromYear (y : Z) : Z :=
  (365 * (y - 1970) + (y - 1969) / 4 - (y - 1901) / 100 + (y - 1601) / 400)%Z.

Definition TimeFromYear (y : Z) : Z := (msPerDay * DayFromYear y)%Z.

(** The largest [y] with [TimeFromYear y <= t]: the estimate from the mean
    length of a year is off by one at most, and is corrected. *)
Definition YearFromTime (t : Z) : Z :=
  let d := Day t in
  let y := (1970 + (400 * d) / 146097)%Z in
  if (d <? DayFromYear y)%Z then (y - 1)%Z
  else if (DayFromYear (y + 1) <=? d)%Z then (y + 1)%Z
  else y.

Definition DayWithinYear (t : Z) : Z :=
  (Day t - DayFromYear (YearFromTime t))%Z.

(** The host's time zone, [LocalTZA(t, isUTC)]: the offset of local time
    from UTC in milliseconds, in effect at the UTC time value [t] when
    [isUTC] holds and at the local time value [t] otherwise. *)
Definition Zone : Type := Z -> bool -> Z.

Definition LocalTime (tz : Zone) (t : Z) : Z := (t + tz t true)%Z.
Definition UTC (tz : Zone) (t : Z) : Z := (t - tz t false)%Z.

(** [d.getFullYear()] of the date with time value [t]. *)
Definition getFullYear (tz : Zone) (t : Z) : Z := YearFromTime (LocalTime tz t).

(** [MakeDate(MakeDay(year, 0, date), 0)]: the local time value of midnight
    of the [date]-th day of January, day 0 being 31 December of the year
    before. *)
Definition MakeDateJanuary (year date : Z) : Z :=
  ((DayFromYear year + date - 1) * msPerDay + 0)%Z.

(** [new Date(year, 0, date).getTime()]; a year from 0 to 99 stands for
    1900 + year. *)
Definition newDateJanuary (tz : Zone) (year date : Z) : Z :=
  let yr := if ((0 <=? year) && (year <=? 99))%Z then (1900 + year)%Z else year in
  UTC tz (MakeDateJanuary yr date).

End JsDate.

(** ** openmeteo.ts *)
Module Openmeteo.
Import JsNum.

Definition BASE_MODELS : list string :=
  ["GFS"; "ECMWF"; "ICON"; "MF"; "GEM"]%string.

Definition MODEL_WEIGHT (m : string) : option R :=
  if String.eqb m "ECMWF"%string then Some 1.3
  else if String.eqb m "GFS"%string then Some 1.0
  else if String.eqb m "ICON"%string then Some 1.1
  else if String.eqb m "MF"%string then Some 0.85
  else if String.eqb m "GEM"%string then Some 0.8
  else None.

(** [MODEL_WEIGHT[m] ?? 1.0] *)
Definition weightOf (m : string) : R :=
  match MODEL_WEIGHT m with Some w => w | None => 1.0 end.

(** Array reads [a[i]] of a number array, for [i] within the array. *)
Definition at_ (a : list R) (i : nat) : R := nth i a 0.

(** [for (const i of idx) { sumV += values[i] * weights[i]; sumW += weights[i] }]
    returning [(sumV, sumW)]. *)
Definition weightedSums (values weights : list R) (idx : list nat) : R * R :=
  fold_left (fun '(sumV, sumW) i =>
               (sumV + at_ values i * at_ weights i, sumW + at_ weights i))
            idx (0, 0).

(** The outlier scan of [blendValues]: starting at index [i] with the
    running [(maxDist, maxIdx)], a strictly larger distance replaces it. *)
Fixpoint furthestFrom (initialMean : R) (vs : list R) (i : nat)
         (acc : R * nat) : R * nat :=
  match vs with
  | [] => acc
  | v :: rest =>
      let dist := Rabs (v - initialMean) in
      furthestFrom initialMean rest (S i)
        (if ltb (fst acc) dist then (dist, i) else acc)
  end.

Record Blend := mkBlend { mean : R; spread : R; confidence : R }.

(** The index list the final mean runs over. *)
Definition useIdx (values : list R) (initialMean : R) (trim : bool)
  : list nat :=
  let n := length values in
  let all := seq 0 n in
  if trim && (4 <=? n)%nat
  then let maxIdx := snd (furthestFrom initialMean values 0 (0, 0%nat)) in
       filter (fun i => negb (Nat.eqb i maxIdx)) all
  else all.

Definition initialMeanOf (values weights : list R) : R :=
  let '(sumV, sumW) := weightedSums values weights (seq 0 (length values)) in
  sumV / sumW.

Definition blendValues (values : list R) (modelNames : list string)
           (trim : bool) : Blend :=
  match values with
  | [] => mkBlend 0 0 0
  | [v] => mkBlend v 0 0.5
  | _ =>
      let n := length values in
      let weights := map weightOf modelNames in
      let initialMean := initialMeanOf values weights in
      let '(sumV, sumW) :=
        weightedSums values weights (useIdx values initialMean trim) in
      let mean := sumV / sumW in
      let spread := maxOf values - minOf values in
      let std :=
        sqrt (fold_left (fun s v => s + (v - mean) ^ 2) values 0 / INR n) in
      let cv := if ltb 0 mean then std / mean else std in
      let confidence := Rmax 0 (Rmin 1 (1 - cv * 2)) in
      mkBlend mean spread confidence
  end.

Definition agreementLabel (confidence : R) : string :=
  if leb 0.75 confidence then "high"%string
  else if leb 0.45 confidence then "moderate"%string
  else "low"%string.

(** The loop of [circularMeanDeg], returning [(sumSin, sumCos, sumW)]. *)
Definition circularSums (angles weights : list R) : R * R * R :=
  fold_left (fun '(sumSin, sumCos, sumW) i =>
               let rad := at_ angles i * PI / 180 in
               (sumSin + sin rad * at_ weights i,
                sumCos + cos rad * at_ weights i,
                sumW + at_ weights i))
            (seq 0 (length angles)) (0, 0, 0).

(** The mean before the final rounding, after [if (mean < 0) mean += 360]. *)
Definition circularMeanRaw (angles weights : list R) : R :=
  let '(sumSin, sumCos, sumW) := circularSums angles weights in
  let mean := atan2 (sumSin / sumW) (sumCos / sumW) * 180 / PI in
  if ltb mean 0 then mean + 360 else mean.

Definition circularMeanDeg (angles weights : list R) : R :=
  round (circularMeanRaw angles weights).

Definition circularConcentration (angles : list R) : R :=
  let n := length angles in
  if (n <=? 1)%nat then 1
  else
    let '(sumSin, sumCos) :=
      fold_left (fun '(sumSin, sumCos) a =>
                   let rad := a * PI / 180 in
                   (sumSin + sin rad, sumCos + cos rad))
                angles (0, 0) in
    sqrt (sumSin * sumSin + sumCos * sumCos) / INR n.

(** *** Forecast points ([types.ts]) *)
Record DayForecast := mkDay {
  day : string; date : string;
  wind : R; gust : R; temp : R; rain : R; cloud : R;
  tideHigh : R; tideLow : R; tideRange : R; dirDeg : R;
  spread_ : option R; confidence_ : option R;
  modelAgreement : option string }.

Record HourForecast := mkHour {
  hour : string;
  hwind : R; hgust : R; htemp : R; hrain : R; hdirDeg : R; tide : R;
  hspread : option R; hconfidence : option R }.

(** The outcome of one promise under [Promise.allSettled]. *)
Inductive Settled (A : Type) : Type :=
| Fulfilled (value : A)
| Rejected (reason : string).
Arguments Fulfilled {A} value.
Arguments Rejected {A} reason.

(** What an [async] function's promise settles to. *)
Inductive Outcome (A : Type) : Type :=
| Resolves (value : A)
| Throws (message : string).
Arguments Resolves {A} value.
Arguments Throws {A} message.

(** [results.forEach((r, idx) => { if (r.status === 'fulfilled')
    succeeded.push({ model: BASE_MODELS[idx], data: r.value }) })] *)
Fixpoint succeededOf {A : Type} (models : list string)
         (results : list (Settled A)) : list (string * A) :=
  match models, results with
  | m :: ms, Fulfilled v :: rs => (m, v) :: succeededOf ms rs
  | _ :: ms, Rejected _ :: rs => succeededOf ms rs
  | _, _ => []
  end.

(** [s.data[i]?.f ?? 0] *)
Definition fieldAt {P : Type} (f : P -> R) (data : list P) (i : nat) : R :=
  match nth_error data i with Some p => f p | None => 0 end.

(** [a.map((x, i) => f x i)] *)
Fixpoint mapi_from {A B : Type} (f : A -> nat -> B) (i : nat) (a : list A)
  : list B :=
  match a with
  | [] => []
  | x :: rest => f x i :: mapi_from f (S i) rest
  end.
Definition mapi {A B : Type} (f : A -> nat -> B) (a : list A) : list B :=
  mapi_from f 0 a.

Section BlendPoint.
Variable P : Type.
Variable succeeded : list (string * list P).

Definition modelNames : list string := map fst succeeded.
Definition column (f : P -> R) (i : nat) : list R :=
  map (fun s => fieldAt f (snd s) i) succeeded.
Definition weights : list R := map weightOf modelNames.
End BlendPoint.
Arguments modelNames {P} succeeded.
Arguments column {P} succeeded f i.
Arguments weights {P} succeeded.

(** The callback of [succeeded[0].data.map] in [fetchDailyForecast]. *)
Definition blendDay (succeeded : list (string * list DayForecast))
           (d : DayForecast) (i : nat) : DayForecast :=
  let names := modelNames succeeded in
  let windBlend := blendValues (column succeeded wind i) names true in
  let gustBlend := blendValues (column succeeded gust i) names true in
  let tempBlend := blendValues (column succeeded temp i) names false in
  let rainBlend := blendValues (column succeeded rain i) names false in
  let dirs := column succeeded dirDeg i in
  let dirBlend := circularMeanDeg dirs (weights succeeded) in
  let dirConf := circularConcentration dirs in
  let overallConf := confidence windBlend * 0.6 + dirConf * 0.4 in
  {| day := day d; date := date d;
     wind := round (mean windBlend);
     gust := round (mean gustBlend);
     temp := round (mean tempBlend);
     rain := round (mean rainBlend * 10) / 10;
     cloud := cloud d;
     tideHigh := tideHigh d; tideLow := tideLow d; tideRange := tideRange d;
     dirDeg := dirBlend;
     spread_ := Some (spread windBlend);
     confidence_ := Some (round (overallConf * 100) / 100);
     modelAgreement := Some (agreementLabel overallConf) |}.

(** The callback of [succeeded[0].data.map] in [fetchHourlyForecast]. *)
Definition blendHour (succeeded : list (string * list HourForecast))
           (h : HourForecast) (i : nat) : HourForecast :=
  let names := modelNames succeeded in
  let windBlend := blendValues (column succeeded hwind i) names true in
  let gustBlend := blendValues (column succeeded hgust i) names true in
  let tempBlend := blendValues (column succeeded htemp i) names false in
  let rainBlend := blendValues (column succeeded hrain i) names false in
  let dirs := column succeeded hdirDeg i in
  let dirBlend := circularMeanDeg dirs (weights succeeded) in
  let dirConf := circularConcentration dirs in
  let overallConf := confidence windBlend * 0.6 + dirConf * 0.4 in
  {| hour := hour h;
     hwind := round (mean windBlend);
     hgust := round (mean gustBlend);
     htemp := round (mean tempBlend * 10) / 10;
     hrain := round (mean rainBlend * 10) / 10;
     hdirDeg := dirBlend;
     tide := match succeeded with
             | (_, data0) :: _ =>
                 match nth_error data0 i with
                 | Some p => tide p
                 | None => tide h
                 end
             | [] => tide h
             end;
     hspread := Some (spread windBlend);
     hconfidence := Some (round (overallConf * 100) / 100) |}.

(** The BLEND branch of [fetchDailyForecast]; [fetchOne m] is what the
    recursive single-model call for base model [m] settles to. *)
Definition fetchDailyForecast_BLEND
           (fetchOne : string -> Settled (list DayForecast))
  : Outcome (list DayForecast) :=
  let results := map fetchOne BASE_MODELS in
  let succeeded := succeededOf BASE_MODELS results in
  match succeeded with
  | [] => Throws "All models failed"
  | (_, data0) :: _ => Resolves (mapi (blendDay succeeded) data0)
  end.

(** The BLEND branch of [fetchHourlyForecast]. *)
Definition fetchHourlyForecast_BLEND
           (fetchOne : string -> Settled (list HourForecast))
  : Outcome (list HourForecast) :=
  let results := map fetchOne BASE_MODELS in
  let succeeded := succeededOf BASE_MODELS results in
  match succeeded with
  | [] => Throws "All models failed"
  | (_, data0) :: _ => Resolves (mapi (blendHour succeeded) data0)
  end.

(** The object a BLEND call is rejected with.  Either branch has one
    [throw], [throw new Error('All models failed')]: a plain [Error], whose
    [name] is the one [Error.prototype] gives; the module declares no error
    class of its own. *)
Record JsError := mkJsError { name : string; message : string }.

Definition Error (message_ : string) : JsError :=
  {| name := "Error"; message := message_ |}.

Definition blendRejection {A : Type} (o : Outcome A) : option JsError :=
  match o with
  | Throws msg => Some (Error msg)
  | Resolves _ => None
  end.

End Openmeteo.

(** ** tide.ts *)
Module Tide.
Import JsNum.

Inductive TideType := high | low.

Record CachedExtreme := mkExtreme {
  absHour : R; level : R; type : TideType }.

Record SeaLevel := mkSeaLevel { sl_absHour : R; sl_level : R }.

Record TideCache := mkCache {
  date : string; lat : R; lng : R;
  seaLevels : list SeaLevel;
  extremes : list CachedExtreme }.

(** The string [gridKey] builds is [tide-<gLat>-<gLng>] with both numbers
    printed with one decimal; a key is kept as the two numbers printed. *)
Definition GridKey : Type := R * R.

Definition gridKey (lat lng : R) : GridKey :=
  (toFixed 1 (round (lat / 0.3) * 0.3), toFixed 1 (round (lng / 0.3) * 0.3)).

Definition gridKey_eqb (a b : GridKey) : bool :=
  (if Req_dec_T (fst a) (fst b) then true else false)
  && (if Req_dec_T (snd a) (snd b) then true else false).

(** One outbound request of [doFetch], pending until its response comes;
    the closure keeps the [lat] and [lng] of the call that issued it. *)
Record Request := mkRequest { rid : nat; rlat : R; rlng : R }.

(** The module's mutable variables, [localStorage], and the requests on
    the wire.  [inflight] holds the identity of the pending promise;
    [inflightGrid = None] stands for the empty string. *)
Record State := mkState {
  memCache : option TideCache;
  apiKey : string;
  inflight : option nat;
  inflightGrid : option GridKey;
  localStorage : GridKey -> option TideCache;
  pending : list Request;
  issued : nat }.

(** What the code reads from outside: the clock ([todayStr] is what
    [new Date().toISOString().slice(0, 10)] gives, [now] the time value of
    [new Date()]), the host's time zone, whether [localStorage.getItem]
    and [localStorage.setItem] throw (storage refused, quota exceeded), and
    the seed table ([TIDE_SEEDS] of [data/tideSeed], taken as given). *)
Record Env := mkEnv {
  todayStr : string;
  now : Z;
  LocalTZA : JsDate.Zone;
  getItemThrows : GridKey -> bool;
  setItemThrows : GridKey -> TideCache -> bool;
  TIDE_SEEDS : list TideCache }.

(** [Math.floor((now.getTime() - start.getTime()) / 86400000)] with
    [start = new Date(now.getFullYear(), 0, 0)]; the difference is a whole
    number of milliseconds, so the floor is the quotient of [Z]. *)
Definition getDayOfYear (env : Env) : Z :=
  let start :=
    JsDate.newDateJanuary (LocalTZA env)
                          (JsDate.getFullYear (LocalTZA env) (now env)) 0 in
  ((now env - start) / 86400000)%Z.

Definition withDate (today : string) (seed : TideCache) : TideCache :=
  {| date := today; lat := lat seed; lng := lng seed;
     seaLevels := seaLevels seed; extremes := extremes seed |}.

Definition findSeed (env : Env) (lat_ lng_ : R) : option TideCache :=
  match find (fun seed => ltb (Rabs (lat seed - lat_)) 0.2
                          && ltb (Rabs (lng seed - lng_)) 0.2)
             (TIDE_SEEDS env) with
  | Some seed => Some (withDate (todayStr env) seed)
  | None => None
  end.

Definition findSeedByLat (env : Env) (lat_ : R) : option TideCache :=
  match find (fun seed => ltb (Rabs (lat seed - lat_)) 0.2)
             (TIDE_SEEDS env) with
  | Some seed => Some (withDate (todayStr env) seed)
  | None => None
  end.

Definition cacheCovers (env : Env) (st : State) (lat_ lng_ : R) : bool :=
  match memCache st with
  | None => false
  | Some c =>
      if negb (String.eqb (date c) (todayStr env)) then false
      else ltb (Rabs (lat c - lat_)) 0.3 && ltb (Rabs (lng c - lng_)) 0.3
  end.

Definition setMemCache (st : State) (c : TideCache) : State :=
  {| memCache := Some c; apiKey := apiKey st; inflight := inflight st;
     inflightGrid := inflightGrid st; localStorage := localStorage st;
     pending := pending st; issued := issued st |}.

(** [ensureCache]: the record to answer from, and the state it leaves. *)
Definition ensureCache (env : Env) (st : State) (lat_ : R)
  : option TideCache * State :=
  match memCache st with
  | Some c =>
      if ltb (Rabs (lat c - lat_)) 0.3 then (Some c, st)
      else match findSeedByLat env lat_ with
           | Some seed => (Some seed, setMemCache st seed)
           | None => (None, st)
           end
  | None =>
      match findSeedByLat env lat_ with
      | Some seed => (Some seed, setMemCache st seed)
      | None => (None, st)
      end
  end.

(** [loadCache]: a [getItem] that throws is caught and reads as a miss.
    The store holds the records [saveCache] wrote, so that [JSON.parse]
    gives back the record stored. *)
Definition loadCache (env : Env) (st : State) (lat_ lng_ : R)
  : option TideCache :=
  if getItemThrows env (gridKey lat_ lng_) then None
  else
    match localStorage st (gridKey lat_ lng_) with
    | None => None
    | Some c => if negb (String.eqb (date c) (todayStr env)) then None
                else Some c
    end.

(** [saveCache]: a [setItem] that throws is caught and ignored, and
    nothing is stored. *)
Definition saveCache (env : Env) (st : State) (c : TideCache) : State :=
  let k := gridKey (lat c) (lng c) in
  if setItemThrows env k c then st
  else
    {| memCache := memCache st; apiKey := apiKey st; inflight := inflight st;
       inflightGrid := inflightGrid st;
       localStorage := fun k' => if gridKey_eqb k' k then Some c
                                 else localStorage st k';
       pending := pending st; issued := issued st |}.

(** *** Cosine interpolation *)

(** The inner loop with its [break]: the first consecutive pair that
    brackets [h], or the pair given when none does. *)
Fixpoint bracket (h : R) (es : list CachedExtreme)
         (dflt : CachedExtreme * CachedExtreme)
  : CachedExtreme * CachedExtreme :=
  match es with
  | e1 :: ((e2 :: _) as rest) =>
      if leb (absHour e1) h && leb h (absHour e2) then (e1, e2)
      else bracket h rest dflt
  | _ => dflt
  end.

(** The body of the outer loop for hour [h]. *)
Definition levelAt (first : CachedExtreme) (extremes : list CachedExtreme)
           (h : nat) : SeaLevel :=
  let '(before, after) :=
    bracket (INR h) extremes (first, last extremes first) in
  let span := absHour after - absHour before in
  if leb span 0 then mkSeaLevel (INR h) (level before)
  else
    let t := (INR h - absHour before) / span in
    let cos_ := (1 - cos (t * PI)) / 2 in
    mkSeaLevel (INR h)
      (toFixed 2 (level before + (level after - level before) * cos_)).

Definition totalHours : nat := 7 * 24.

Definition interpolateFromExtremes (extremes : list CachedExtreme)
  : list SeaLevel :=
  match extremes with
  | first :: _ :: _ => map (levelAt first extremes) (seq 0 totalHours)
  | _ => []
  end.

(** *** Simulation fallback *)
Definition LUNAR_SHIFT_RAD : R := (50.47 / (24 * 60)) * 2 * PI.
Definition SPRING_NEAP_PERIOD : R := 14.76.

Definition tideRaw (env : Env) (dayOffset hour lat_ : R) : R :=
  let locPhase := fmod (lat_ * 7.3 + 41.7) 360 * PI / 180 in
  let lunarPhase := dayOffset * LUNAR_SHIFT_RAD + locPhase in
  let dayOfYear := IZR (getDayOfYear env) + dayOffset in
  let springNeap :=
    0.5 + 0.5 * cos ((dayOfYear / SPRING_NEAP_PERIOD) * 2 * PI) in
  let mainAmp := 1.2 + 0.8 * springNeap in
  let diurnalAmp := mainAmp * 0.18 in
  let MSL := 2.1 in
  let t := (hour / 12.42) * 2 * PI + lunarPhase in
  let m2 := mainAmp * cos t in
  let k1 := diurnalAmp * cos ((hour / 24) * 2 * PI + lunarPhase * 0.52 + 0.8) in
  let m4 := mainAmp * 0.06 * cos (2 * t + 0.4) in
  MSL + m2 + k1 + m4.

(** *** Public synchronous API *)

(** The scan of [tideAt] for the sample nearest to [target]. *)
Fixpoint nearest (target : R) (sls : list SeaLevel) (best : SeaLevel)
         (bestDist : R) : SeaLevel * R :=
  match sls with
  | [] => (best, bestDist)
  | sl :: rest =>
      let d := Rabs (sl_absHour sl - target) in
      if ltb d bestDist then nearest target rest sl d
      else nearest target rest best bestDist
  end.

Definition tideAt (env : Env) (st : State) (dayOffset hour lat_ : R)
  : R * State :=
  let '(cache, st') := ensureCache env st lat_ in
  let simulated := toFixed 2 (tideRaw env dayOffset hour lat_) in
  match cache with
  | Some c =>
      match seaLevels c with
      | first :: _ =>
          let target := dayOffset * 24 + hour in
          let '(best, bestDist) :=
            nearest target (seaLevels c) first
                    (Rabs (sl_absHour first - target)) in
          if leb bestDist 1.5 then (sl_level best, st')
          else (simulated, st')
      | [] => (simulated, st')
      end
  | None => (simulated, st')
  end.

(** *** fetchTideData *)

(** One event of the provider's answer, its time already expressed as
    [(t.getTime() - base.getTime()) / 3600000]; [height] may be absent. *)
Record RawExtreme := mkRaw {
  raw_absHour : R; raw_height : option R; raw_isHigh : bool }.

Inductive Response :=
| HttpNotOk                       (* [!res.ok] *)
| Failed                          (* [fetch] or [res.json()] threw *)
| Json (data : list RawExtreme).

Definition parseExtremes (data : list RawExtreme) : list CachedExtreme :=
  flat_map
    (fun e =>
       if leb 0 (raw_absHour e)
       then [ {| absHour := toFixed 3 (raw_absHour e);
                 level := toFixed 1 (match raw_height e with
                                     | Some x => x | None => 0 end);
                 type := if raw_isHigh e then high else low |} ]
       else [])
    data.

(** What a call hands back to its caller: a settled boolean, or the
    promise it now waits on. *)
Inductive CallResult :=
| Returned (b : bool)
| Awaits (promise : nat).

Definition nonEmpty {A : Type} (l : list A) : bool :=
  match l with [] => false | _ => true end.

(** Step 6 up to the first [await]: [doFetch] sends the request for
    [(lat_, lng_)], and the marker is set to this cell and to the promise
    [doFetch] returned. *)
Definition issueRequest (st : State) (lat_ lng_ : R) : State :=
  {| memCache := memCache st; apiKey := apiKey st;
     inflight := Some (issued st);
     inflightGrid := Some (gridKey lat_ lng_);
     localStorage := localStorage st;
     pending := pending st ++ [mkRequest (issued st) lat_ lng_];
     issued := S (issued st) |}.

(** [fetchTideData] up to its [return]: steps 1 to 5, then step 6. *)
Definition fetchTideData (env : Env) (st : State) (lat_ lng_ : R)
  : CallResult * State :=
  if cacheCovers env st lat_ lng_ then
    (Returned (match memCache st with
               | Some c => nonEmpty (seaLevels c)
               | None => false end), st)
  else
    match loadCache env st lat_ lng_ with
    | Some cached => (Returned (nonEmpty (seaLevels cached)),
                      setMemCache st cached)
    | None =>
        match findSeed env lat_ lng_ with
        | Some seed => (Returned true, setMemCache st seed)
        | None =>
            if String.eqb (apiKey st) "" then (Returned false, st)
            else
              let gk := gridKey lat_ lng_ in
              match inflight st, inflightGrid st with
              | Some p, Some g =>
                  if gridKey_eqb g gk then (Awaits p, st)
                  else (Awaits (issued st), issueRequest st lat_ lng_)
              | _, _ => (Awaits (issued st), issueRequest st lat_ lng_)
              end
        end
    end.

Definition clearInflight (st : State) (without : nat) : State :=
  {| memCache := memCache st; apiKey := apiKey st;
     inflight := None; inflightGrid := None;
     localStorage := localStorage st;
     pending := filter (fun r => negb (Nat.eqb (rid r) without)) (pending st);
     issued := issued st |}.

(** The rest of [doFetch] once the response of request [p] is in: what
    the promise resolves to and the state after the [finally] block. *)
Definition settle (env : Env) (st : State) (p : nat) (res : Response)
  : option bool * State :=
  match find (fun r => Nat.eqb (rid r) p) (pending st) with
  | None => (None, st)
  | Some r =>
      match res with
      | HttpNotOk => (Some false, clearInflight st p)
      | Failed => (Some false, clearInflight st p)
      | Json data =>
          let extremes := parseExtremes data in
          let seaLevels := interpolateFromExtremes extremes in
          let cache := {| date := todayStr env; lat := rlat r; lng := rlng r;
                          seaLevels := seaLevels; extremes := extremes |} in
          (Some true,
           clearInflight (saveCache env (setMemCache st cache) cache) p)
      end
  end.

(** The cells of the requests on the wire. *)
Definition pendingCells (st : State) : list GridKey :=
  map (fun r => gridKey (rlat r) (rlng r)) (pending st).

End Tide.

(** * Reference notions and sample data *)

Import JsNum.
Import Openmeteo.

Definition Rsum (l : list R) : R := fold_right Rplus 0 l.

(** The weighted mean of a list of (value, weight) pairs. *)
Definition weightedMean (vws : list (R * R)) : R :=
  Rsum (map (fun vw => fst vw * snd vw) vws) / Rsum (map snd vws).

(** The array without its element at index [k]. *)
Definition removeAt {A : Type} (k : nat) (l : list A) : list A :=
  firstn k l ++ skipn (S k) l.

(** The confidence formula as the specification words it, on the values
    that survive the trim: clamp(1 - 2 CV, 0, 1) with CV the population
    standard deviation of those values divided by their mean. *)
Definition arithmeticMean (l : list R) : R := Rsum l / INR (length l).

Definition populationStd (l : list R) : R :=
  sqrt (Rsum (map (fun v => (v - arithmeticMean l) ^ 2) l) / INR (length l)).

Definition claimedConfidence (postTrim : list R) : R :=
  Rmax 0 (Rmin 1 (1 - 2 * (populationStd postTrim / arithmeticMean postTrim))).

Definition sampleDay : DayForecast :=
  {| day := "Mon"; date := "2026-11-02";
     wind := 12; gust := 18; temp := 9; rain := 0; cloud := 0;
     tideHigh := 0; tideLow := 0; tideRange := 0; dirDeg := 270;
     spread_ := None; confidence_ := None; modelAgreement := None |}.

(** Only GFS answers. *)
Definition onlyGFS (m : string) : Settled (list DayForecast) :=
  if String.eqb m "GFS" then Fulfilled [sampleDay]
  else Rejected (m ++ ": 503").

(** The base models whose fetch was fulfilled, each with its data, in the
    order of [BASE_MODELS]: the models that succeed. *)
Definition fulfilledOf {A : Type} (fetchOne : string -> Settled A)
  : list (string * A) :=
  flat_map (fun m => match fetchOne m with
                     | Fulfilled v => [(m, v)]
                     | Rejected _ => []
                     end)
           BASE_MODELS.

(** Two rounds of fetches in which the same base models answer, with the
    same data; the failures may have any reason. *)
Definition sameAnswers {A : Type} (f g : string -> Settled A) : Prop :=
  forall m, In m BASE_MODELS ->
            match f m, g m with
            | Fulfilled a, Fulfilled b => a = b
            | Rejected _, Rejected _ => True
            | _, _ => False
            end.

(** What the specification asks of the daily point at index [i] blended
    from the models [ok]: wind and gust are the rounded trimmed weighted
    means of those models' values at [i], temperature and rain the
    untrimmed ones, the direction their weighted circular mean, the spread
    that of the winds, and the confidence 0.6 of the wind confidence plus
    0.4 of the direction agreement, to two decimals, with the agreement
    label of that score before rounding. *)
Definition blendOfDay (ok : list (string * list DayForecast)) (i : nat)
           (p : DayForecast) : Prop :=
  let names := map fst ok in
  let col := fun f : DayForecast -> R => map (fun s => fieldAt f (snd s) i) ok in
  let windBlend := blendValues (col wind) names true in
  let overall := confidence windBlend * 0.6
                 + circularConcentration (col dirDeg) * 0.4 in
  wind p = round (mean windBlend)
  /\ gust p = round (mean (blendValues (col gust) names true))
  /\ temp p = round (mean (blendValues (col temp) names false))
  /\ rain p = round (mean (blendValues (col rain) names false) * 10) / 10
  /\ dirDeg p = circularMeanDeg (col dirDeg) (map weightOf names)
  /\ spread_ p = Some (spread windBlend)
  /\ confidence_ p = Some (round (overall * 100) / 100)
  /\ modelAgreement p = Some (agreementLabel overall).

(** The same of an hourly point; the temperature keeps one decimal. *)
Definition blendOfHour (ok : list (string * list HourForecast)) (i : nat)
           (p : HourForecast) : Prop :=
  let names := map fst ok in
  let col := fun f : HourForecast -> R => map (fun s => fieldAt f (snd s) i) ok in
  let windBlend := blendValues (col hwind) names true in
  hwind p = round (mean windBlend)
  /\ hgust p = round (mean (blendValues (col hgust) names true))
  /\ htemp p = round (mean (blendValues (col htemp) names false) * 10) / 10
  /\ hrain p = round (mean (blendValues (col hrain) names false) * 10) / 10
  /\ hdirDeg p = circularMeanDeg (col hdirDeg) (map weightOf names)
  /\ hspread p = Some (spread windBlend)
  /\ hconfidence p
     = Some (round ((confidence windBlend * 0.6
                     + circularConcentration (col hdirDeg) * 0.4) * 100) / 100).

(** Every base model answers 503. *)
Definition allRejected {A : Type} (m : string) : Settled A :=
  Rejected (m ++ ": 503").

Definition breezyDay : DayForecast :=
  {| day := "Mon"; date := "2026-11-02";
     wind := 20; gust := 30; temp := 11; rain := 0; cloud := 0;
     tideHigh := 0; tideLow := 0; tideRange := 0; dirDeg := 270;
     spread_ := None; confidence_ := None; modelAgreement := None |}.

(** GFS and ICON answer, with different winds; the other three fail. *)
Definition gfsAndIcon (m : string) : Settled (list DayForecast) :=
  if String.eqb m "GFS" then Fulfilled [sampleDay]
  else if String.eqb m "ICON" then Fulfilled [breezyDay]
  else Rejected (m ++ ": 503").

Import Tide.

(** Whether the pair at positions [i], [i + 1] brackets the hour [h]. *)
Definition brackets (es : list CachedExtreme) (h : R) (i : nat) : Prop :=
  exists e1 e2, nth_error es i = Some e1 /\ nth_error es (S i) = Some e2
                /\ absHour e1 <= h <= absHour e2.

Definition scenarioExtremes : list CachedExtreme :=
  [ mkExtreme 2 1.0 low; mkExtreme 8 3.0 high ].

(** A host on UTC whose storage never throws, at noon of the day with
    the given day number (days since the epoch). *)
Definition utcNoon (today : string) (dayNumber : Z) (seeds : list TideCache)
  : Env :=
  {| todayStr := today;
     now := (dayNumber * 86400000 + 12 * 3600000)%Z;
     LocalTZA := fun _ _ => 0%Z;
     getItemThrows := fun _ => false;
     setItemThrows := fun _ _ => false;
     TIDE_SEEDS := seeds |}.

(** 1 January 2026 is day 20454 of the epoch. *)
Definition newYearsDay : Env := utcNoon "2026-01-01" 20454 [].
Definition secondOfJanuary : Env := utcNoon "2026-01-02" 20455 [].

(** Another first of January, with another seed table. *)
Definition newYearsDayAfter (seeds : list TideCache) : Env :=
  utcNoon "2027-01-01" 20819 seeds.

Definition secondOfNovember : Env := utcNoon "2026-11-02" 20759 [].

(** The ordinal of the local calendar day within its year, 1 January
    being day 1. *)
Definition localDayOfYear (env : Env) : Z :=
  (JsDate.DayWithinYear (JsDate.LocalTime (LocalTZA env) (now env)) + 1)%Z.

(** No daylight saving in effect: the offset of local time now is the one
    in effect at the local midnight that opened 31 December. *)
Definition standardTime (env : Env) : Prop :=
  let tz := LocalTZA env in
  let year := JsDate.getFullYear tz (now env) in
  tz (now env) true = tz (JsDate.MakeDateJanuary year 0) false.

(** Eastern time in 2026: five hours behind UTC, four from 8 March 07:00
    UTC to 1 November 06:00 UTC (a local time is read on standard time). *)
Definition easternTime2026 : JsDate.Zone :=
  fun t isUTC =>
    let u := if isUTC then t else (t + 5 * 3600000)%Z in
    if ((20520 * 86400000 + 7 * 3600000 <=? u)
        && (u <? 20758 * 86400000 + 6 * 3600000))%Z
    then (- 4 * 3600000)%Z else (- 5 * 3600000)%Z.

(** A host in Toronto whose storage never throws, at the time value [t]. *)
Definition torontoClock (today : string) (t : Z) : Env :=
  {| todayStr := today;
     now := t;
     LocalTZA := easternTime2026;
     getItemThrows := fun _ => false;
     setItemThrows := fun _ _ => false;
     TIDE_SEEDS := [] |}.

(** 15 January 2026 in Toronto, at 00:30 and at 23:30 local time (05:30 UTC
    that day and 04:30 UTC the next; day 20468 of the epoch). *)
Definition torontoJanuaryEarly : Env :=
  torontoClock "2026-01-15" (20468 * 86400000 + 5 * 3600000 + 30 * 60000)%Z.
Definition torontoJanuaryLate : Env :=
  torontoClock "2026-01-16" (20469 * 86400000 + 4 * 3600000 + 30 * 60000)%Z.

(** 1 July 2026 in Toronto (day 182 of the year, day 20635 of the epoch),
    at 00:30 and at 12:00 local daylight time. *)
Definition torontoJulyEarly : Env :=
  torontoClock "2026-07-01" (20635 * 86400000 + 4 * 3600000 + 30 * 60000)%Z.
Definition torontoJulyNoon : Env :=
  torontoClock "2026-07-01" (20635 * 86400000 + 16 * 3600000)%Z.

(** A record fetched on 1 November, still in memory the day after. *)
Definition yesterdaysRecord : TideCache :=
  {| date := "2026-11-01"; lat := 45; lng := -73.5;
     seaLevels := [mkSeaLevel 0 7.5; mkSeaLevel 1 7.1];
     extremes := [] |}.

Definition leftOvernight : State :=
  {| memCache := Some yesterdaysRecord; apiKey := "";
     inflight := None; inflightGrid := None;
     localStorage := fun _ => None; pending := []; issued := 0 |}.

(** A fresh start of the application with a provider key configured. *)
Definition freshStart : State :=
  {| memCache := None; apiKey := "sg-key";
     inflight := None; inflightGrid := None;
     localStorage := fun _ => None; pending := []; issued := 0 |}.

(** ** openmeteo.ts: the single-model fetchers and the forecast cache *)
Module Forecast.
Import JsNum.
Import Openmeteo.

Definition KMH_TO_KTS : R := 0.539957.

Definition MODEL_URL (m : string) : option string :=
  if String.eqb m "GFS" then Some "https://api.open-meteo.com/v1/gfs"%string
  else if String.eqb m "ECMWF" then Some "https://api.open-meteo.com/v1/ecmwf"%string
  else if String.eqb m "ICON" then Some "https://api.open-meteo.com/v1/dwd-icon"%string
  else if String.eqb m "MF" then Some "https://api.open-meteo.com/v1/meteofrance"%string
  else if String.eqb m "GEM" then Some "https://api.open-meteo.com/v1/gem"%string
  else None.

Definition DAY_NAMES : list string :=
  ["Sun"; "Mon"; "Tue"; "Wed"; "Thu"; "Fri"; "Sat"]%string.

Definition CACHE_TTL : R := 15 * 60 * 1000.

(** [String(n)] of a whole number. *)
Definition string_of_nat (n : nat) : string :=
  NilZero.string_of_uint (Nat.to_uint n).

(** [s.padStart(n, c)] for a one-character filler [c]. *)
Fixpoint fill (n : nat) (c : string) : string :=
  match n with O => ""%string | S n' => (c ++ fill n' c)%string end.
Definition padStart (n : nat) (c : string) (s : string) : string :=
  (fill (n - String.length s) c ++ s)%string.

(** A JSON object of the provider: its [time] member and its members that
    are arrays of numbers (an element may be [null]). *)
Record JsonObject := mkObject {
  time : option (list string);
  member : string -> option (list (option R)) }.

(** [{}] *)
Definition emptyObject : JsonObject :=
  {| time := None; member := fun _ => None |}.

Record Json := mkJson { daily : option JsonObject; hourly : option JsonObject }.

(** What [fetch] and [res.json()] come to. *)
Inductive HttpResult :=
| NetworkError (message : string)      (* [fetch] rejected *)
| NotOk (status : nat)                 (* [!res.ok] *)
| BadBody (message : string)           (* [res.json()] rejected *)
| Body (json : Json).

Inductive Granularity := Daily | Hourly.

(** The URL built for a request: the model's endpoint, the coordinates and
    which variable list is asked ([timezone] and [forecast_days] are the
    same in all). *)
Record Request := mkRequest {
  base : string; latitude : R; longitude : R; granularity : Granularity }.

(** The world outside: the answer to a request, the value of [Date.now()]
    once that answer has been read, and the weekday the runtime gives for
    an ISO date. *)
Record World := mkWorld {
  respond : Request -> HttpResult;
  arrival : Request -> R;
  getDay : string -> nat }.

(** Cache keys: [ck(lat, lng, model, 'd')] and [ck(lat, lng, model, 'h', dayOff)],
    kept as the components joined. *)
Definition DailyKey : Type := R * R * string.
Definition HourlyKey : Type := R * R * string * nat.

Definition Req_eqb (a b : R) : bool := if Req_dec_T a b then true else false.

Definition dailyKey_eqb (a b : DailyKey) : bool :=
  let '(la, ga, ma) := a in
  let '(lb, gb, mb) := b in
  Req_eqb la lb && Req_eqb ga gb && String.eqb ma mb.

Definition hourlyKey_eqb (a b : HourlyKey) : bool :=
  let '(la, ga, ma, da) := a in
  let '(lb, gb, mb, db) := b in
  Req_eqb la lb && Req_eqb ga gb && String.eqb ma mb && Nat.eqb da db.

(** The two [Map]s, each entry a timestamp and the data. *)
Record Caches := mkCaches {
  dailyCache : DailyKey -> option (R * list DayForecast);
  hourlyCache : HourlyKey -> option (R * list HourForecast) }.

Definition setDaily (c : Caches) (k : DailyKey) (e : R * list DayForecast)
  : Caches :=
  {| dailyCache := fun k' => if dailyKey_eqb k' k then Some e else dailyCache c k';
     hourlyCache := hourlyCache c |}.

Definition setHourly (c : Caches) (k : HourlyKey) (e : R * list HourForecast)
  : Caches :=
  {| dailyCache := dailyCache c;
     hourlyCache := fun k' => if hourlyKey_eqb k' k then Some e
                              else hourlyCache c k' |}.

Definition clearForecastCache (c : Caches) : Caches :=
  {| dailyCache := fun _ => None; hourlyCache := fun _ => None |}.

(** [o.a ?? o.b ?? []] and [o.a ?? []] *)
Definition member2 (o : JsonObject) (a b : string) : list (option R) :=
  match member o a with
  | Some l => l
  | None => match member o b with Some l => l | None => [] end
  end.
Definition member1 (o : JsonObject) (a : string) : list (option R) :=
  match member o a with Some l => l | None => [] end.

(** [l[i] ?? 0] *)
Definition num (l : list (option R)) (i : nat) : R :=
  match nth_error l i with Some (Some x) => x | _ => 0 end.

(** The [time.map] of the daily fetcher. *)
Definition dailyPoints (w : World) (d : JsonObject) : list DayForecast :=
  let time_ := match time d with Some t => t | None => [] end in
  let ws := member2 d "wind_speed_10m_max" "windspeed_10m_max" in
  let wg := member2 d "wind_gusts_10m_max" "windgusts_10m_max" in
  let wd := member2 d "wind_direction_10m_dominant" "winddirection_10m_dominant" in
  let t2 := member1 d "temperature_2m_max" in
  let pr := member1 d "precipitation_sum" in
  mapi (fun date_ i =>
          {| day := nth (getDay w date_) DAY_NAMES ""%string;
             date := date_;
             wind := round (num ws i * KMH_TO_KTS);
             gust := round (num wg i * KMH_TO_KTS);
             temp := round (num t2 i);
             rain := round (num pr i * 10) / 10;
             cloud := 0;
             tideHigh := 0; tideLow := 0; tideRange := 0;
             dirDeg := num wd i;
             spread_ := None; confidence_ := None; modelAgreement := None |})
       time_.

(** How far a single-model call gets before its first [await]. *)
Inductive Started (A : Type) :=
| Hit (data : A)            (* a cache entry younger than the TTL *)
| UnknownModel              (* [MODEL_URL[model]] is undefined *)
| Sent (req : Request).
Arguments Hit {A} data.
Arguments UnknownModel {A}.
Arguments Sent {A} req.

Definition dailyStart (now : R) (c : Caches) (lat lng : R) (model : string)
  : Started (list DayForecast) :=
  let miss := match MODEL_URL model with
              | None => UnknownModel
              | Some b => Sent (mkRequest b lat lng Daily)
              end in
  match dailyCache c (lat, lng, model) with
  | Some (ts, data) => if ltb (now - ts) CACHE_TTL then Hit data else miss
  | None => miss
  end.

(** The rest of the daily fetcher once the response is in: what the promise
    settles to, and the entry written to the cache, if any. *)
Definition dailyFinish (w : World) (model : string) (req : Request)
  : Outcome (list DayForecast) * option (R * list DayForecast) :=
  match respond w req with
  | NetworkError msg => (Throws msg, None)
  | NotOk status => (Throws (model ++ ": " ++ string_of_nat status), None)
  | BadBody msg => (Throws msg, None)
  | Body json =>
      let d := match daily json with Some o => o | None => emptyObject end in
      let data := dailyPoints w d in
      (Resolves data, Some (arrival w req, data))
  end.

(** One single-model call of [fetchDailyForecast]: the outcome, the entry
    it writes and the requests it sends. *)
Definition dailyRun (w : World) (now : R) (c : Caches) (lat lng : R)
           (model : string)
  : Outcome (list DayForecast) * option (R * list DayForecast) * list Request :=
  match dailyStart now c lat lng model with
  | Hit data => (Resolves data, None, [])
  | UnknownModel => (Throws ("Unknown model: " ++ model), None, [])
  | Sent req => let '(o, wr) := dailyFinish w model req in (o, wr, [req])
  end.

Definition applyDailyWrite (c : Caches) (k : DailyKey)
           (wr : option (R * list DayForecast)) : Caches :=
  match wr with Some e => setDaily c k e | None => c end.

Definition toSettled {A : Type} (o : Outcome A) : Settled A :=
  match o with Resolves v => Fulfilled v | Throws msg => Rejected msg end.

(** [fetchDailyForecast(lat, lng, model)]: the outcome, the caches after
    and the requests sent.  For BLEND the five single-model calls all read
    the cache as it is at the call, before any response; their writes go to
    five different keys, applied here in the order of [BASE_MODELS]. *)
Definition fetchDailyForecast (w : World) (now : R) (c : Caches)
           (lat lng : R) (model : string)
  : Outcome (list DayForecast) * Caches * list Request :=
  if String.eqb model "BLEND" then
    let run m := dailyRun w now c lat lng m in
    (fetchDailyForecast_BLEND (fun m => toSettled (fst (fst (run m)))),
     fold_left (fun c' m => applyDailyWrite c' (lat, lng, m) (snd (fst (run m))))
               BASE_MODELS c,
     flat_map (fun m => snd (run m)) BASE_MODELS)
  else
    let '(o, wr, reqs) := dailyRun w now c lat lng model in
    (o, applyDailyWrite c (lat, lng, model) wr, reqs).

(** The [Array.from({ length: n }, ...)] of the hourly fetcher from hour
    [i] on; [tideAt] is called for each hour in turn. *)
Fixpoint hourlyPointsFrom (env : Tide.Env) (h : JsonObject) (dayOff : nat)
         (lat : R) (i n : nat) (ts : Tide.State)
  : list HourForecast * Tide.State :=
  match n with
  | O => ([], ts)
  | S n' =>
      let ws := member2 h "wind_speed_10m" "windspeed_10m" in
      let wg := member2 h "wind_gusts_10m" "windgusts_10m" in
      let wd := member2 h "wind_direction_10m" "winddirection_10m" in
      let t2 := member1 h "temperature_2m" in
      let pr := member1 h "precipitation" in
      let s := (dayOff * 24)%nat in
      let '(tide_, ts1) := Tide.tideAt env ts (INR dayOff) (INR i) lat in
      let p := {| hour := (padStart 2 "0" (string_of_nat i) ++ ":00")%string;
                  hwind := round (num ws (s + i) * KMH_TO_KTS);
                  hgust := round (num wg (s + i) * KMH_TO_KTS);
                  hdirDeg := num wd (s + i);
                  htemp := num t2 (s + i);
                  hrain := num pr (s + i);
                  tide := tide_;
                  hspread := None; hconfidence := None |} in
      let '(rest, ts2) := hourlyPointsFrom env h dayOff lat (S i) n' ts1 in
      (p :: rest, ts2)
  end.

Definition hourlyStart (now : R) (c : Caches) (lat lng : R) (model : string)
           (dayOff : nat) : Started (list HourForecast) :=
  let miss := match MODEL_URL model with
              | None => UnknownModel
              | Some b => Sent (mkRequest b lat lng Hourly)
              end in
  match hourlyCache c (lat, lng, model, dayOff) with
  | Some (ts, data) => if ltb (now - ts) CACHE_TTL then Hit data else miss
  | None => miss
  end.

(** One single-model call of [fetchHourlyForecast]: the outcome, the
    caches and the tide state after, and the requests sent. *)
Definition fetchHourlyForecast_single
           (w : World) (env : Tide.Env) (now : R) (c : Caches)
           (ts : Tide.State) (lat lng : R) (model : string) (dayOff : nat)
  : Outcome (list HourForecast) * Caches * Tide.State * list Request :=
  match hourlyStart now c lat lng model dayOff with
  | Hit data => (Resolves data, c, ts, [])
  | UnknownModel => (Throws ("Unknown model: " ++ model), c, ts, [])
  | Sent req =>
      match respond w req with
      | NetworkError msg => (Throws msg, c, ts, [req])
      | NotOk status =>
          (Throws (model ++ ": " ++ string_of_nat status), c, ts, [req])
      | BadBody msg => (Throws msg, c, ts, [req])
      | Body json =>
          let h := match hourly json with Some o => o | None => emptyObject end in
          let '(data, ts') := hourlyPointsFrom env h dayOff lat 0 24 ts in
          (Resolves data,
           setHourly c (lat, lng, model, dayOff) (arrival w req, data),
           ts', [req])
      end
  end.

End Forecast.

(** ** types.ts: the compass label of a direction *)
Module Types.

Definition dirs : list string :=
  ["N"; "NE"; "E"; "SE"; "S"; "SW"; "W"; "NW"]%string.

(** [dirs[Math.round(deg / 45) % 8]]: [%] on whole numbers keeps the sign of
    the dividend, and a negative index reads [undefined]. *)
Definition dirLabel (deg : R) : option string :=
  let idx := Z.rem (Zfloor (deg / 45 + / 2)) 8 in
  if (idx <? 0)%Z then None else nth_error dirs (Z.to_nat idx).

End Types.

(** ** tide.ts: peaks of the day *)
Module Peaks.
Import JsNum.
Import Tide.

Record TidePeakInfo := mkPeak {
  hour : R; time : string; level : R; type : TideType }.

(** [String(z)] of a whole number. *)
Definition string_of_Z (z : Z) : string := NilZero.string_of_int (Z.to_int z).

(** The clock text both [tidePeaks] and [makePeak] build from a fractional
    hour: [h = Math.floor(fh)], [m = Math.round((fh - h) * 60)], each padded
    to two characters. *)
Definition clock (fh : R) : string :=
  let h := Zfloor fh in
  let m := Zfloor ((fh - IZR h) * 60 + / 2) in
  (Forecast.padStart 2 "0" (string_of_Z h) ++ ":"
   ++ Forecast.padStart 2 "0" (string_of_Z m))%string.

Definition makePeak (fh level_ : R) (type_ : TideType) : TidePeakInfo :=
  {| hour := fh; time := clock fh; level := toFixed 1 level_; type := type_ |}.

Definition steps : nat := 240.

(** [samples[i]] as the first loop of [simPeaks] pushes it. *)
Definition sampleAt (env : Env) (dayOffset lat_ : R) (i : nat) : R * R :=
  let t := INR i / INR steps * 24 in
  (t, tideRaw env dayOffset t lat_).

Definition samples (env : Env) (dayOffset lat_ : R) : list (R * R) :=
  map (sampleAt env dayOffset lat_) (seq 0 (S steps)).

(** The body of the second loop of [simPeaks] at index [i]. *)
Definition peaksAt (smp : list (R * R)) (i : nat) : list TidePeakInfo :=
  let prev := snd (nth (i - 1) smp (0, 0)) in
  let cur := snd (nth i smp (0, 0)) in
  let next := snd (nth (i + 1) smp (0, 0)) in
  (if ltb prev cur && ltb next cur
   then [makePeak (fst (nth i smp (0, 0))) cur high] else [])
  ++ (if ltb cur prev && ltb cur next
      then [makePeak (fst (nth i smp (0, 0))) cur low] else []).

Definition simPeaks (env : Env) (dayOffset lat_ : R) : list TidePeakInfo :=
  let smp := samples env dayOffset lat_ in
  flat_map (peaksAt smp) (seq 1 (length smp - 2)).

(** The peak [tidePeaks] pushes for a cached extreme of the day. *)
Definition cachedPeak (dayStart : R) (e : CachedExtreme) : TidePeakInfo :=
  let hourInDay := absHour e - dayStart in
  {| hour := hourInDay; time := clock hourInDay;
     level := Tide.level e; type := Tide.type e |}.

Definition inDay (dayStart : R) (e : CachedExtreme) : bool :=
  leb dayStart (absHour e) && ltb (absHour e) (dayStart + 24).

Definition tidePeaks (env : Env) (st : State) (dayOffset lat_ : R)
  : list TidePeakInfo * State :=
  let '(cache, st') := ensureCache env st lat_ in
  match cache with
  | Some c =>
      if nonEmpty (extremes c) then
        let dayStart := dayOffset * 24 in
        let results := map (cachedPeak dayStart)
                           (filter (inDay dayStart) (extremes c)) in
        if nonEmpty results then (results, st')
        else (simPeaks env dayOffset lat_, st')
      else (simPeaks env dayOffset lat_, st')
  | None => (simPeaks env dayOffset lat_, st')
  end.

End Peaks.

(** ** More reference notions and sample data *)

(** The record [doFetch] pushes for one event. *)
Definition parsedExtreme (e : RawExtreme) : CachedExtreme :=
  {| absHour := toFixed 3 (raw_absHour e);
     level := toFixed 1 (match raw_height e with Some x => x | None => 0 end);
     type := if raw_isHigh e then high else low |}.

(** Extremes in strictly increasing order of time. *)
Definition chronological (es : list CachedExtreme) : Prop :=
  forall a b ea eb,
    (a < b)%nat -> nth_error es a = Some ea -> nth_error es b = Some eb ->
    absHour ea < absHour eb.

(** The day of [secondOfNovember], with one seed station. *)
Definition seededToday : Env := utcNoon "2026-11-02" 20759 [yesterdaysRecord].

(** The same day on a host whose storage is full: every [setItem] throws. *)
Definition storageFull : Env :=
  {| todayStr := "2026-11-02";
     now := (20759 * 86400000 + 12 * 3600000)%Z;
     LocalTZA := fun _ _ => 0%Z;
     getItemThrows := fun _ => false;
     setItemThrows := fun _ _ => true;
     TIDE_SEEDS := [] |}.

(** A provider that answers 503 to everything. *)
Definition quietWorld : Forecast.World :=
  {| Forecast.respond := fun _ => Forecast.NotOk 503;
     Forecast.arrival := fun _ => 1000;
     Forecast.getDay := fun _ => 1%nat |}.

Definition noForecasts : Forecast.Caches :=
  {| Forecast.dailyCache := fun _ => None;
     Forecast.hourlyCache := fun _ => None |}.

(** A provider that answers with two days, the second without a wind. *)
Definition answeringWorld : Forecast.World :=
  {| Forecast.respond := fun _ =>
       Forecast.Body
         {| Forecast.daily :=
              Some {| Forecast.time := Some ["2026-11-02"; "2026-11-03"]%string;
                      Forecast.member := fun name =>
                        if String.eqb name "wind_speed_10m_max"
                        then Some [Some 30; None]
                        else None |};
            Forecast.hourly := None |};
     Forecast.arrival := fun _ => 1000;
     Forecast.getDay := fun _ => 1%nat |}.

(** A cache holding a forecast stamped 1000 for every model: a light day
    for GFS, a breezier one for the others. *)
Definition cachedDay (m : string) : list DayForecast :=
  if String.eqb m "GFS" then [sampleDay] else [breezyDay].

Definition warmCache : Forecast.Caches :=
  {| Forecast.dailyCache := fun k => Some (1000, cachedDay (snd k));
     Forecast.hourlyCache := fun _ => None |}.

(** * Properties *)

Import JsNum.

(** ** Evaluating the number primitives *)

Lemma ltb_true (a b : R) : a < b -> ltb a b = true.
Proof. intros H; unfold ltb; destruct (Rlt_dec a b); [reflexivity | contradiction]. Qed.

Lemma ltb_false (a b : R) : b <= a -> ltb a b = false.
Proof. intros H; unfold ltb; destruct (Rlt_dec a b); [lra | reflexivity]. Qed.

Lemma leb_true (a b : R) : a <= b -> leb a b = true.
Proof. intros H; unfold leb; destruct (Rle_dec a b); [reflexivity | contradiction]. Qed.

Lemma leb_false (a b : R) : b < a -> leb a b = false.
Proof. intros H; unfold leb; destruct (Rle_dec a b); [lra | reflexivity]. Qed.

Lemma round_eq (z : Z) (x : R) :
  IZR z - / 2 <= x < IZR z + / 2 -> round x = IZR z.
Proof.
  intros H; unfold round; f_equal; apply Zfloor_eq; lra.
Qed.

Lemma toFixed_nonneg_eq (d : nat) (z : Z) (x : R) :
  0 <= x -> IZR z - / 2 <= x * 10 ^ d < IZR z + / 2 ->
  toFixed d x = IZR z / 10 ^ d.
Proof.
  intros Hx H; unfold toFixed; rewrite ltb_false by lra.
  do 2 f_equal; apply Zfloor_eq; lra.
Qed.

Lemma toFixed_neg_eq (d : nat) (z : Z) (x : R) :
  x < 0 -> IZR z - / 2 <= - x * 10 ^ d < IZR z + / 2 ->
  toFixed d x = - (IZR z / 10 ^ d).
Proof.
  intros Hx H; unfold toFixed; rewrite ltb_true by lra.
  do 3 f_equal; apply Zfloor_eq; lra.
Qed.

(** Rewrites every comparison whose outcome [lra] can decide. *)
Ltac decide_cmp :=
  repeat first
    [ rewrite ltb_true by lra | rewrite ltb_false by lra
    | rewrite leb_true by lra | rewrite leb_false by lra ].

Ltac unfold_abs :=
  repeat match goal with
    | |- context [Rabs ?x] =>
        first [ rewrite (Rabs_pos_eq x) by lra
              | rewrite (Rabs_left x) by lra ]
    end.

Ltac unfold_minmax :=
  repeat match goal with
    | |- context [Rmax ?x ?y] =>
        first [ rewrite (Rmax_left x y) by lra | rewrite (Rmax_right x y) by lra ]
    | |- context [Rmin ?x ?y] =>
        first [ rewrite (Rmin_left x y) by lra | rewrite (Rmin_right x y) by lra ]
    end.

(** ** Sums over index lists *)

Import Openmeteo.

Lemma weightedSums_from (values ws : list R) (idx : list nat) (a b : R) :
  fold_left (fun '(sumV, sumW) i =>
               (sumV + at_ values i * at_ ws i, sumW + at_ ws i)) idx (a, b)
  = (a + Rsum (map (fun i => at_ values i * at_ ws i) idx),
     b + Rsum (map (at_ ws) idx)).
Proof.
  revert a b; induction idx as [|i idx IH]; intros a b; simpl.
  - f_equal; lra.
  - rewrite IH; f_equal; lra.
Qed.

Lemma weightedSums_eq (values ws : list R) (idx : list nat) :
  weightedSums values ws idx
  = (Rsum (map (fun i => at_ values i * at_ ws i) idx),
     Rsum (map (at_ ws) idx)).
Proof.
  unfold weightedSums; rewrite weightedSums_from; f_equal; lra.
Qed.

Lemma map_pair_seq (g : R * R -> R) (values ws : list R) (a n : nat) :
  (a + n <= length values)%nat -> (a + n <= length ws)%nat ->
  map (fun i => g (at_ values i, at_ ws i)) (seq a n)
  = map g (firstn n (skipn a (combine values ws))).
Proof.
  revert values ws a; induction n as [|n IH]; intros values ws a Hv Hw;
    simpl; [reflexivity|].
  revert values ws Hv Hw; induction a as [|a IHa]; intros values ws Hv Hw.
  - destruct values as [|v values]; [simpl in Hv; lia|].
    destruct ws as [|w ws]; [simpl in Hw; lia|].
    simpl. f_equal.
    simpl in Hv, Hw.
    specialize (IH (v :: values) (w :: ws) 1%nat).
    simpl in IH. rewrite IH by lia. reflexivity.
  - destruct values as [|v values]; [simpl in Hv; lia|].
    destruct ws as [|w ws]; [simpl in Hw; lia|].
    simpl in Hv, Hw.
    specialize (IHa values ws ltac:(lia) ltac:(lia)).
    change (at_ (v :: values) (S a)) with (at_ values a).
    change (at_ (w :: ws) (S a)) with (at_ ws a).
    change (skipn (S a) (combine (v :: values) (w :: ws)))
      with (skipn a (combine values ws)).
    rewrite <- IHa. f_equal.
    rewrite <- !seq_shift, !map_map. reflexivity.
Qed.

Lemma map_prod_seq (values ws : list R) (a n : nat) :
  (a + n <= length values)%nat -> (a + n <= length ws)%nat ->
  map (fun i => at_ values i * at_ ws i) (seq a n)
  = map (fun vw => fst vw * snd vw) (firstn n (skipn a (combine values ws))).
Proof. exact (map_pair_seq (fun vw => fst vw * snd vw) values ws a n). Qed.

Lemma map_weight_seq (values ws : list R) (a n : nat) :
  (a + n <= length values)%nat -> (a + n <= length ws)%nat ->
  map (at_ ws) (seq a n) = map snd (firstn n (skipn a (combine values ws))).
Proof. exact (map_pair_seq snd values ws a n). Qed.

Lemma filter_neq_seq (k n : nat) :
  (k < n)%nat ->
  filter (fun i => negb (Nat.eqb i k)) (seq 0 n)
  = seq 0 k ++ seq (S k) (n - S k).
Proof.
  intros H.
  replace n with (k + (1 + (n - S k)))%nat at 1 by lia.
  rewrite !seq_app, !filter_app. simpl seq at 2.
  assert (Hl : forall a m, (a + m <= k)%nat ->
             filter (fun i => negb (Nat.eqb i k)) (seq a m) = seq a m).
  { intros a m; revert a; induction m as [|m IH]; intros a Ha; simpl; [reflexivity|].
    destruct (Nat.eqb_spec a k); [lia|]. simpl. rewrite IH by lia. reflexivity. }
  assert (Hr : forall a m, (k < a)%nat ->
             filter (fun i => negb (Nat.eqb i k)) (seq a m) = seq a m).
  { intros a m; revert a; induction m as [|m IH]; intros a Ha; simpl; [reflexivity|].
    destruct (Nat.eqb_spec a k); [lia|]. simpl. rewrite IH by lia. reflexivity. }
  rewrite Hl by lia. simpl filter at 1.
  rewrite Nat.eqb_refl. simpl.
  rewrite Hr by lia.
  replace (k + 1)%nat with (S k) by lia. reflexivity.
Qed.

Lemma Rsum_app (l1 l2 : list R) : Rsum (l1 ++ l2) = Rsum l1 + Rsum l2.
Proof. induction l1 as [|x l1 IH]; simpl; [lra | rewrite IH; lra]. Qed.

(** The sums of [blendValues] over the index list [seq a n] are the sums
    over the corresponding slice of the (value, weight) pairs. *)
Lemma weightedSums_slices (values ws : list R) (k : nat) :
  length ws = length values -> (k < length values)%nat ->
  weightedSums values ws (seq 0 k ++ seq (S k) (length values - S k))
  = (Rsum (map (fun vw => fst vw * snd vw) (removeAt k (combine values ws))),
     Rsum (map snd (removeAt k (combine values ws)))).
Proof.
  intros Hl Hk. rewrite weightedSums_eq. unfold removeAt.
  rewrite !map_app, !Rsum_app.
  rewrite (map_prod_seq values ws 0 k) by lia.
  rewrite (map_prod_seq values ws (S k)) by lia.
  rewrite (map_weight_seq values ws 0 k) by lia.
  rewrite (map_weight_seq values ws (S k)) by lia.
  rewrite (firstn_all2 (n := length values - S k)); [reflexivity|].
  rewrite length_skipn, length_combine. lia.
Qed.

Lemma weightedSums_all (values ws : list R) :
  length ws = length values ->
  weightedSums values ws (seq 0 (length values))
  = (Rsum (map (fun vw => fst vw * snd vw) (combine values ws)),
     Rsum (map snd (combine values ws))).
Proof.
  intros Hl. rewrite weightedSums_eq.
  rewrite (map_prod_seq values ws 0) by lia.
  rewrite (map_weight_seq values ws 0) by lia.
  simpl skipn.
  rewrite (firstn_all2 (n := length values)); [reflexivity|].
  rewrite length_combine. lia.
Qed.

Lemma initialMeanOf_eq (values ws : list R) :
  length ws = length values ->
  initialMeanOf values ws = weightedMean (combine values ws).
Proof.
  intros Hl. unfold initialMeanOf. rewrite weightedSums_all by assumption.
  reflexivity.
Qed.

(** The outlier scan keeps the largest distance seen and the first index
    that reached it. *)
Lemma furthestFrom_inv (m : R) (vs : list R) :
  forall (i : nat) (acc : R * nat),
    let r := furthestFrom m vs i acc in
    fst acc <= fst r
    /\ (forall j, (j < length vs)%nat -> Rabs (at_ vs j - m) <= fst r)
    /\ (r = acc
        \/ exists j, (j < length vs)%nat /\ snd r = (i + j)%nat
                     /\ fst r = Rabs (at_ vs j - m)
                     /\ fst acc < fst r
                     /\ forall j', (j' < j)%nat -> Rabs (at_ vs j' - m) < fst r).
Proof.
  induction vs as [|v rest IH]; intros i acc; simpl.
  - split; [lra|]. split; [intros j Hj; lia | left; reflexivity].
  - set (dist := Rabs (v - m)).
    set (acc' := if ltb (fst acc) dist then (dist, i) else acc).
    destruct (IH (S i) acc') as (Hge & Hall & Hcase).
    assert (Hacc : fst acc <= fst acc' /\ dist <= fst acc').
    { unfold acc', ltb. destruct (Rlt_dec (fst acc) dist); simpl; lra. }
    split; [lra|]. split.
    + intros [|j] Hj; [unfold at_ at 1; simpl; fold dist; lra|].
      apply (Hall j). lia.
    + destruct Hcase as [Heq | (j & Hj & Hs & Hf & Hlt & Hbefore)].
      * rewrite Heq. unfold acc', ltb.
        destruct (Rlt_dec (fst acc) dist) as [Hd|Hd]; [|left; reflexivity].
        right. exists 0%nat. simpl.
        split; [lia|]. split; [lia|]. split; [reflexivity|].
        split; [exact Hd|]. intros j' Hj'; lia.
      * right. exists (S j).
        split; [lia|]. split; [lia|]. split; [exact Hf|].
        split; [lra|].
        intros [|j'] Hj'; [unfold at_ at 1; simpl; fold dist; lra|].
        apply (Hbefore j'). lia.
Qed.

(** ** blendValues on two or more values *)

Lemma blendValues_mean (values : list R) (names : list string) (trim : bool) :
  (2 <= length values)%nat ->
  let ws := map weightOf names in
  let sums := weightedSums values ws
                (useIdx values (initialMeanOf values ws) trim) in
  mean (blendValues values names trim) = fst sums / snd sums.
Proof.
  intros Hn ws sums. subst sums ws.
  destruct values as [|v1 [|v2 rest]]; simpl in Hn; try lia.
  unfold blendValues.
  destruct (weightedSums _ _ _) as [sumV sumW]. reflexivity.
Qed.

Lemma blendValues_spread (values : list R) (names : list string) (trim : bool) :
  (2 <= length values)%nat ->
  spread (blendValues values names trim) = maxOf values - minOf values.
Proof.
  intros Hn.
  destruct values as [|v1 [|v2 rest]]; simpl in Hn; try lia.
  unfold blendValues.
  destruct (weightedSums _ _ _) as [sumV sumW]. reflexivity.
Qed.

Lemma blendValues_confidence (values : list R) (names : list string)
      (trim : bool) :
  (2 <= length values)%nat ->
  let m := mean (blendValues values names trim) in
  let std := sqrt (fold_left (fun s v => s + (v - m) ^ 2) values 0
                   / INR (length values)) in
  let cv := if ltb 0 m then std / m else std in
  confidence (blendValues values names trim) = Rmax 0 (Rmin 1 (1 - cv * 2)).
Proof.
  intros Hn.
  destruct values as [|v1 [|v2 rest]]; simpl in Hn; try lia.
  unfold blendValues.
  destruct (weightedSums _ _ _) as [sumV sumW]. reflexivity.
Qed.

Lemma weightOf_GFS : weightOf "GFS" = 1.
Proof. unfold weightOf, MODEL_WEIGHT; simpl; lra. Qed.

Lemma useIdx_trim (values : list R) (m : R) :
  (4 <= length values)%nat ->
  useIdx values m true
  = filter (fun i => negb (Nat.eqb i (snd (furthestFrom m values 0 (0, 0%nat)))))
           (seq 0 (length values)).
Proof.
  intros Hn. unfold useIdx.
  replace (4 <=? length values)%nat with true
    by (symmetry; apply Nat.leb_le; exact Hn).
  reflexivity.
Qed.

(** The index the scan returns is in range, has the maximum distance, and
    is the first index with that distance. *)
Lemma furthestFrom_first_max (m : R) (values : list R) :
  (0 < length values)%nat ->
  let k := snd (furthestFrom m values 0 (0, 0%nat)) in
  (k < length values)%nat
  /\ (forall i, (i < length values)%nat ->
                Rabs (at_ values i - m) <= Rabs (at_ values k - m))
  /\ (forall i, (i < k)%nat -> Rabs (at_ values i - m) < Rabs (at_ values k - m)).
Proof.
  intros Hn k. subst k.
  destruct (furthestFrom_inv m values 0 (0, 0%nat)) as (_ & Hall & Hcase).
  destruct Hcase as [Heq | (j & Hj & Hs & Hf & _ & Hbefore)].
  - rewrite Heq in *. simpl in *.
    split; [exact Hn|]. split; [|intros i Hi; lia].
    intros i Hi. specialize (Hall i Hi).
    pose proof (Rabs_pos (at_ values 0 - m)). lra.
  - simpl in Hs. rewrite Hs. rewrite Hf in Hall, Hbefore.
    split; [exact Hj|]. split; assumption.
Qed.

(** *** The scenario of the specification: winds 12, 14, 13, 30 *)

Lemma scenario_weights :
  map weightOf ["GFS"; "GFS"; "GFS"; "GFS"]%string = [1; 1; 1; 1].
Proof. simpl map; rewrite weightOf_GFS; reflexivity. Qed.

Lemma scenario_initialMean :
  initialMeanOf [12; 14; 13; 30] [1; 1; 1; 1] = 17.25.
Proof. unfold initialMeanOf, weightedSums, at_; simpl; lra. Qed.

Lemma scenario_useIdx : useIdx [12; 14; 13; 30] 17.25 true = [0; 1; 2]%nat.
Proof.
  unfold useIdx. simpl length. simpl andb. cbv iota.
  unfold furthestFrom. simpl fst.
  replace (Rabs (12 - 17.25)) with 5.25 by (unfold_abs; lra).
  replace (Rabs (14 - 17.25)) with 3.25 by (unfold_abs; lra).
  replace (Rabs (13 - 17.25)) with 4.25 by (unfold_abs; lra).
  replace (Rabs (30 - 17.25)) with 12.75 by (unfold_abs; lra).
  rewrite (ltb_true 0 5.25) by lra. cbn [fst snd].
  rewrite (ltb_false 5.25 3.25) by lra. cbn [fst snd].
  rewrite (ltb_false 5.25 4.25) by lra. cbn [fst snd].
  rewrite (ltb_true 5.25 12.75) by lra.
  reflexivity.
Qed.

Lemma scenario_mean :
  mean (blendValues [12; 14; 13; 30] ["GFS"; "GFS"; "GFS"; "GFS"]%string true)
  = 13.
Proof.
  rewrite blendValues_mean by (simpl; lia).
  rewrite scenario_weights, scenario_initialMean, scenario_useIdx.
  unfold weightedSums, at_. simpl. lra.
Qed.

(** C1. With trimming on and N >= 4 values, [blendValues] takes the weighted
    mean of all N values, drops the one index whose value is furthest from
    that mean (the first such index on a tie), and returns the weighted mean
    of the N-1 values left; on winds 12, 14, 13, 30 with weight 1.0 each the
    initial mean is 17.25, index 3 (the value 30) is dropped, the mean is 13
    and the spread is 18. *)
Theorem blendValues_trims_furthest :
  (forall (values : list R) (names : list string),
      (4 <= length values)%nat -> length names = length values ->
      let pairs := combine values (map weightOf names) in
      let initialMean := weightedMean pairs in
      exists k : nat,
        (k < length values)%nat
        /\ initialMeanOf values (map weightOf names) = initialMean
        /\ (forall i, (i < length values)%nat ->
             Rabs (at_ values i - initialMean) <= Rabs (at_ values k - initialMean))
        /\ (forall i, (i < k)%nat ->
             Rabs (at_ values i - initialMean) < Rabs (at_ values k - initialMean))
        /\ (forall i, In i (useIdx values initialMean true)
                      <-> (i < length values)%nat /\ i <> k)
        /\ length (removeAt k pairs) = (length values - 1)%nat
        /\ mean (blendValues values names true) = weightedMean (removeAt k pairs))
  /\ (let winds := [12; 14; 13; 30] in
      let names := ["GFS"; "GFS"; "GFS"; "GFS"]%string in
      map weightOf names = [1; 1; 1; 1]
      /\ initialMeanOf winds (map weightOf names) = 17.25
      /\ useIdx winds 17.25 true = [0; 1; 2]%nat
      /\ mean (blendValues winds names true) = 13
      /\ spread (blendValues winds names true) = 18).
Proof.
  split.
  - intros values names Hn Hlen pairs initialMean.
    assert (Hws : length (map weightOf names) = length values)
      by (rewrite length_map; exact Hlen).
    pose proof (initialMeanOf_eq values (map weightOf names) Hws) as Hm.
    fold pairs in Hm. fold initialMean in Hm.
    destruct (furthestFrom_first_max initialMean values ltac:(lia))
      as (Hk & Hmax & Hfirst).
    set (k := snd (furthestFrom initialMean values 0 (0, 0%nat))) in *.
    exists k.
    split; [exact Hk|]. split; [exact Hm|].
    split; [exact Hmax|]. split; [exact Hfirst|].
    split; [|split].
    + intros i. rewrite useIdx_trim by exact Hn. fold k.
      rewrite filter_In, in_seq.
      destruct (Nat.eqb_spec i k) as [E|E]; simpl.
      * split; [intros [_ H]; discriminate | intros [_ H]; contradiction].
      * split; [intros [H _]; split; [lia | exact E]
               | intros [H _]; split; [lia | reflexivity]].
    + unfold removeAt. rewrite length_app, length_firstn, length_skipn.
      unfold pairs. rewrite length_combine. lia.
    + rewrite blendValues_mean by lia.
      rewrite Hm, useIdx_trim by exact Hn. fold k.
      rewrite filter_neq_seq by exact Hk.
      rewrite weightedSums_slices by assumption.
      reflexivity.
  - cbv zeta. split; [exact scenario_weights|]. rewrite scenario_weights.
    split; [exact scenario_initialMean|]. split; [exact scenario_useIdx|].
    split; [exact scenario_mean|].
    rewrite blendValues_spread by (simpl; lia).
    unfold maxOf, minOf. simpl fold_left.
    unfold_minmax. lra.
Qed.

(** ** Confidence of a blend *)

Lemma weightOf_pos (m : string) : 0 < weightOf m.
Proof.
  unfold weightOf, MODEL_WEIGHT.
  repeat match goal with
         | |- context [String.eqb ?a ?b] => destruct (String.eqb a b)
         end; lra.
Qed.

Lemma at_weights_pos (names : list string) (i : nat) :
  (i < length names)%nat -> 0 < at_ (map weightOf names) i.
Proof.
  intros Hi. unfold at_.
  rewrite (nth_indep _ 0 (weightOf "")) by (rewrite length_map; exact Hi).
  rewrite map_nth. apply weightOf_pos.
Qed.

Lemma fold_left_Rmax_bounds (l : list R) :
  forall a, a <= fold_left Rmax l a
            /\ forall x, In x l -> x <= fold_left Rmax l a.
Proof.
  induction l as [|y l IH]; intros a; simpl.
  - split; [lra | intros x []].
  - destruct (IH (Rmax a y)) as [Ha Hin].
    pose proof (Rmax_l a y). pose proof (Rmax_r a y).
    split; [lra|]. intros x [<-|Hx]; [lra | apply Hin; exact Hx].
Qed.

Lemma fold_left_Rmin_bounds (l : list R) :
  forall a, fold_left Rmin l a <= a
            /\ forall x, In x l -> fold_left Rmin l a <= x.
Proof.
  induction l as [|y l IH]; intros a; simpl.
  - split; [lra | intros x []].
  - destruct (IH (Rmin a y)) as [Ha Hin].
    pose proof (Rmin_l a y). pose proof (Rmin_r a y).
    split; [lra|]. intros x [<-|Hx]; [lra | apply Hin; exact Hx].
Qed.

Lemma minOf_maxOf_bounds (l : list R) (x : R) :
  In x l -> minOf l <= x <= maxOf l.
Proof.
  destruct l as [|y l]; [intros []|]. unfold minOf, maxOf.
  destruct (fold_left_Rmax_bounds l y) as [H1 H2].
  destruct (fold_left_Rmin_bounds l y) as [H3 H4].
  intros [<-|Hx]; [lra|]. specialize (H2 x Hx). specialize (H4 x Hx). lra.
Qed.

Lemma zero_range_all_equal (l : list R) (x y : R) :
  maxOf l - minOf l = 0 -> In x l -> In y l -> x = y.
Proof.
  intros H Hx Hy.
  pose proof (minOf_maxOf_bounds l x Hx).
  pose proof (minOf_maxOf_bounds l y Hy). lra.
Qed.

Lemma useIdx_range (values : list R) (m : R) (trim : bool) (i : nat) :
  In i (useIdx values m trim) -> (i < length values)%nat.
Proof.
  unfold useIdx. destruct (trim && (4 <=? length values)%nat).
  - rewrite filter_In, in_seq. lia.
  - rewrite in_seq. lia.
Qed.

Lemma useIdx_nonempty (values : list R) (m : R) (trim : bool) :
  (2 <= length values)%nat -> useIdx values m trim <> [].
Proof.
  intros Hn Hnil.
  assert (Hlen : length (useIdx values m trim) = 0%nat)
    by (rewrite Hnil; reflexivity).
  destruct trim.
  - destruct (Nat.leb_spec 4 (length values)) as [H4|H4].
    + rewrite useIdx_trim in Hlen by exact H4.
      destruct (furthestFrom_first_max m values ltac:(lia)) as (Hk & _).
      rewrite filter_neq_seq in Hlen by exact Hk.
      rewrite length_app, !length_seq in Hlen. lia.
    + unfold useIdx in Hlen.
      replace (4 <=? length values)%nat with false in Hlen
        by (symmetry; apply Nat.leb_gt; exact H4).
      simpl in Hlen. rewrite length_seq in Hlen. lia.
  - unfold useIdx in Hlen. simpl in Hlen. rewrite length_seq in Hlen. lia.
Qed.

Lemma Rsum_pos (f : nat -> R) (idx : list nat) :
  idx <> [] -> (forall i, In i idx -> 0 < f i) -> 0 < Rsum (map f idx).
Proof.
  induction idx as [|i idx IH]; [congruence|]. intros _ Hpos. simpl.
  assert (0 < f i) by (apply Hpos; left; reflexivity).
  destruct idx as [|j idx]; [simpl; lra|].
  assert (0 < Rsum (map f (j :: idx))).
  { apply IH; [discriminate|]. intros k Hk. apply Hpos. right. exact Hk. }
  lra.
Qed.

Lemma Rsum_const_factor (values ws : list R) (v : R) (idx : list nat) :
  (forall i, In i idx -> at_ values i = v) ->
  Rsum (map (fun i => at_ values i * at_ ws i) idx)
  = v * Rsum (map (at_ ws) idx).
Proof.
  induction idx as [|i idx IH]; intros H; simpl; [lra|].
  rewrite IH by (intros k Hk; apply H; right; exact Hk).
  rewrite (H i) by (left; reflexivity). lra.
Qed.

Lemma squares_from_mean_zero (values : list R) (m : R) :
  (forall x, In x values -> x = m) ->
  forall a, fold_left (fun s v => s + (v - m) ^ 2) values a = a.
Proof.
  induction values as [|v values IH]; intros H a; simpl; [reflexivity|].
  rewrite IH by (intros x Hx; apply H; right; exact Hx).
  rewrite (H v) by (left; reflexivity). lra.
Qed.

(** When every model reports the same value, the blend returns it. *)
Lemma blendValues_mean_of_equal (values : list R) (names : list string)
      (trim : bool) (v : R) :
  (2 <= length values)%nat -> length names = length values ->
  (forall x, In x values -> x = v) ->
  mean (blendValues values names trim) = v.
Proof.
  intros Hn Hlen Hall.
  rewrite blendValues_mean by exact Hn.
  set (idx := useIdx values _ trim).
  rewrite weightedSums_eq. cbn [fst snd].
  assert (Hr : forall i, In i idx -> (i < length values)%nat)
    by (intros i; apply useIdx_range).
  rewrite (Rsum_const_factor values _ v).
  - assert (0 < Rsum (map (at_ (map weightOf names)) idx)).
    { apply Rsum_pos; [apply useIdx_nonempty; exact Hn|].
      intros i Hi. apply at_weights_pos. rewrite Hlen. apply Hr. exact Hi. }
    field. lra.
  - intros i Hi. apply Hall. unfold at_. apply nth_In. apply Hr. exact Hi.
Qed.

Lemma fold_left_plus_Rsum (g : R -> R) (l : list R) :
  forall a, fold_left (fun s v => s + g v) l a = a + Rsum (map g l).
Proof.
  induction l as [|x l IH]; intros a; simpl; [lra | rewrite IH; lra].
Qed.

(** C2, as stated, fails: on winds 12, 14, 13, 30 the values left after the
    trim are 12, 14, 13, whose CV gives a confidence above 0.8, while
    [blendValues] returns confidence 0 (its deviation runs over all four
    values, the dropped 30 included). *)
Lemma confidence_is_not_post_trim_cv :
  let winds := [12; 14; 13; 30] in
  let names := ["GFS"; "GFS"; "GFS"; "GFS"]%string in
  let postTrim :=
    map (at_ winds)
        (useIdx winds (initialMeanOf winds (map weightOf names)) true) in
  postTrim = [12; 14; 13]
  /\ confidence (blendValues winds names true) = 0
  /\ 0.8 < claimedConfidence postTrim
  /\ confidence (blendValues winds names true) <> claimedConfidence postTrim.
Proof.
  cbv zeta.
  rewrite scenario_weights, scenario_initialMean, scenario_useIdx.
  assert (Hcode :
    confidence (blendValues [12; 14; 13; 30]
                            ["GFS"; "GFS"; "GFS"; "GFS"]%string true) = 0).
  { rewrite blendValues_confidence by (simpl; lia).
    rewrite scenario_mean. rewrite (ltb_true 0 13) by lra.
    rewrite fold_left_plus_Rsum. simpl.
    set (x := (0 + ((12 - 13) * ((12 - 13) * 1)
                    + ((14 - 13) * ((14 - 13) * 1)
                       + ((13 - 13) * ((13 - 13) * 1)
                          + ((30 - 13) * ((30 - 13) * 1) + 0)))))
              / (1 + 1 + 1 + 1)).
    assert (Hs : 6.5 <= sqrt x).
    { rewrite <- (sqrt_square 6.5) by lra.
      apply sqrt_le_1_alt. unfold x. lra. }
    rewrite Rmin_right by lra. rewrite Rmax_left by lra. reflexivity. }
  assert (Hclaim : 0.8 < claimedConfidence [12; 14; 13]).
  { unfold claimedConfidence, populationStd.
    assert (Hm : arithmeticMean [12; 14; 13] = 13)
      by (unfold arithmeticMean; simpl; lra).
    rewrite Hm. simpl.
    set (x := ((12 - 13) * ((12 - 13) * 1)
               + ((14 - 13) * ((14 - 13) * 1)
                  + ((13 - 13) * ((13 - 13) * 1) + 0))) / (1 + 1 + 1)).
    assert (Hs : 0 <= sqrt x <= 1).
    { split; [apply sqrt_pos|]. rewrite <- sqrt_1.
      apply sqrt_le_1_alt. unfold x. lra. }
    rewrite Rmin_right by lra. rewrite Rmax_right by lra. lra. }
  split; [reflexivity|]. split; [exact Hcode|]. split; [exact Hclaim|].
  rewrite Hcode. intros E.
  change (0 = claimedConfidence [12; 14; 13]) in E.
  rewrite <- E in Hclaim. lra.
Qed.

(** C2 (amended). On two or more values the confidence is
    clamp(1 - 2 cv, 0, 1), where the deviation is the root of the mean
    squared distance of ALL the values given (a trimmed one included) from
    the returned mean, and cv is that deviation over the mean when the mean
    is positive and the deviation itself otherwise; it lies in [0, 1], is 0
    once cv >= 0.5 and is 1 when the spread is zero. *)
Theorem blendValues_confidence_formula
        (values : list R) (names : list string) (trim : bool) :
  (2 <= length values)%nat -> length names = length values ->
  let b := blendValues values names trim in
  let std := sqrt (Rsum (map (fun v => (v - mean b) ^ 2) values)
                   / INR (length values)) in
  let cv := if ltb 0 (mean b) then std / mean b else std in
  confidence b = Rmax 0 (Rmin 1 (1 - 2 * cv))
  /\ 0 <= confidence b <= 1
  /\ (0.5 <= cv -> confidence b = 0)
  /\ (spread b = 0 -> confidence b = 1).
Proof.
  intros Hn Hlen b std cv.
  assert (Hc : confidence b = Rmax 0 (Rmin 1 (1 - 2 * cv))).
  { unfold b. rewrite blendValues_confidence by exact Hn.
    fold b. rewrite fold_left_plus_Rsum, Rplus_0_l.
    fold std. fold cv. f_equal. f_equal. lra. }
  split; [exact Hc|]. rewrite Hc.
  split; [|split].
  - split; [apply Rmax_l|].
    apply Rmax_lub; [lra | apply Rmin_l].
  - intros Hcv. rewrite Rmin_right by lra. rewrite Rmax_left by lra.
    reflexivity.
  - intros Hspread.
    unfold b in Hspread. rewrite blendValues_spread in Hspread by exact Hn.
    destruct values as [|v values]; [simpl in Hn; lia|].
    assert (Hall : forall x, In x (v :: values) -> x = v).
    { intros x Hx.
      apply (zero_range_all_equal (v :: values)); [exact Hspread|exact Hx|].
      left; reflexivity. }
    assert (Hmean : mean b = v)
      by (apply blendValues_mean_of_equal; assumption).
    assert (Hstd : std = 0).
    { unfold std. rewrite Hmean.
      pose proof (squares_from_mean_zero (v :: values) v Hall 0) as Hz.
      rewrite fold_left_plus_Rsum, Rplus_0_l in Hz. rewrite Hz.
      unfold Rdiv. rewrite Rmult_0_l. apply sqrt_0. }
    assert (Hcv : cv = 0).
    { unfold cv. rewrite Hstd. destruct (ltb 0 (mean b)); lra. }
    rewrite Hcv. rewrite Rmin_left by lra. rewrite Rmax_right by lra.
    reflexivity.
Qed.

(** ** One surviving model *)

Lemma In_mapi_from {A B : Type} (f : A -> nat -> B) (a : list A) :
  forall (i : nat) (y : B),
    In y (mapi_from f i a) -> exists x j, In x a /\ y = f x j.
Proof.
  induction a as [|x a IH]; intros i y; simpl; [intros []|].
  intros [<-|Hy].
  - exists x, i. split; [left; reflexivity | reflexivity].
  - destruct (IH _ _ Hy) as (x' & j & Hx' & ->).
    exists x', j. split; [right; exact Hx' | reflexivity].
Qed.

Lemma length_mapi_from {A B : Type} (f : A -> nat -> B) (a : list A) :
  forall i, length (mapi_from f i a) = length a.
Proof.
  induction a as [|x a IH]; intros i; simpl; [reflexivity | rewrite IH; reflexivity].
Qed.

Lemma nth_error_mapi_from {A B : Type} (f : A -> nat -> B) (a : list A) :
  forall (i n : nat),
    nth_error (mapi_from f i a) n
    = match nth_error a n with Some x => Some (f x (i + n)%nat) | None => None end.
Proof.
  induction a as [|x a IH]; intros i [|n]; simpl; try reflexivity.
  - rewrite Nat.add_0_r. reflexivity.
  - rewrite IH. replace (S i + n)%nat with (i + S n)%nat by lia. reflexivity.
Qed.

Lemma overall_single : round ((0.5 * 0.6 + 1 * 0.4) * 100) / 100 = 0.7.
Proof. rewrite (round_eq 70) by lra. lra. Qed.

Lemma blendDay_single (m : string) (data : list DayForecast)
      (d : DayForecast) (i : nat) :
  let p := blendDay [(m, data)] d i in
  spread_ p = Some 0 /\ confidence_ p = Some 0.7
  /\ modelAgreement p = Some "moderate"%string.
Proof.
  unfold blendDay, column, modelNames.
  cbn [spread_ confidence_ modelAgreement map blendValues
       spread confidence circularConcentration length Nat.leb].
  rewrite overall_single.
  unfold agreementLabel. rewrite leb_false by lra. rewrite leb_true by lra.
  repeat split.
Qed.

Lemma blendHour_single (m : string) (data : list HourForecast)
      (h : HourForecast) (i : nat) :
  let p := blendHour [(m, data)] h i in
  hspread p = Some 0 /\ hconfidence p = Some 0.7.
Proof.
  unfold blendHour, column, modelNames.
  cbn [hspread hconfidence map blendValues
       spread confidence circularConcentration length Nat.leb].
  rewrite overall_single. split; reflexivity.
Qed.

(** C3, as stated, fails: with GFS the only model that answers, the blended
    point carries confidence 0.7, not 0.5. *)
Lemma single_model_confidence_is_not_half :
  exists p, fetchDailyForecast_BLEND onlyGFS = Resolves [p]
            /\ spread_ p = Some 0
            /\ confidence_ p = Some 0.7
            /\ confidence_ p <> Some 0.5.
Proof.
  exists (blendDay [("GFS"%string, [sampleDay])] sampleDay 0).
  split; [reflexivity|].
  destruct (blendDay_single "GFS" [sampleDay] sampleDay 0) as (Hs & Hc & _).
  split; [exact Hs|]. split; [exact Hc|].
  rewrite Hc. intros E. injection E as E. lra.
Qed.

(** C3 (amended). When exactly one base model succeeds, the blend resolves
    and every point of it has spread 0 and overall confidence 0.7, that is
    0.6 times the wind confidence 0.5 of a single value plus 0.4 times the
    direction agreement 1 of a single direction (label "moderate" on daily
    points); this holds on the daily and on the hourly path. *)
Theorem single_model_blend :
  (forall (fetchOne : string -> Settled (list DayForecast))
          (m : string) (data : list DayForecast),
      succeededOf BASE_MODELS (map fetchOne BASE_MODELS) = [(m, data)] ->
      exists pts,
        fetchDailyForecast_BLEND fetchOne = Resolves pts
        /\ forall p, In p pts ->
                     spread_ p = Some 0 /\ confidence_ p = Some 0.7
                     /\ modelAgreement p = Some "moderate"%string)
  /\ (forall (fetchOne : string -> Settled (list HourForecast))
             (m : string) (data : list HourForecast),
         succeededOf BASE_MODELS (map fetchOne BASE_MODELS) = [(m, data)] ->
         exists pts,
           fetchHourlyForecast_BLEND fetchOne = Resolves pts
           /\ forall p, In p pts ->
                        hspread p = Some 0 /\ hconfidence p = Some 0.7)
  /\ (forall v names trim, confidence (blendValues [v] names trim) = 0.5
                           /\ spread (blendValues [v] names trim) = 0)
  /\ (forall a, circularConcentration [a] = 1).
Proof.
  split; [|split; [|split]].
  - intros fetchOne m data H.
    exists (mapi (blendDay [(m, data)]) data).
    unfold fetchDailyForecast_BLEND. rewrite H.
    split; [reflexivity|].
    intros p Hp. destruct (In_mapi_from _ _ _ _ Hp) as (d & i & _ & ->).
    apply blendDay_single.
  - intros fetchOne m data H.
    exists (mapi (blendHour [(m, data)]) data).
    unfold fetchHourlyForecast_BLEND. rewrite H.
    split; [reflexivity|].
    intros p Hp. destruct (In_mapi_from _ _ _ _ Hp) as (h & i & _ & ->).
    apply blendHour_single.
  - intros v names trim. split; reflexivity.
  - intros a. reflexivity.
Qed.

(** ** Partial failure of the base models *)

Lemma succeededOf_nil_iff {A : Type} (fetchOne : string -> Settled A)
      (models : list string) :
  succeededOf models (map fetchOne models) = []
  <-> forall m, In m models -> exists reason, fetchOne m = Rejected reason.
Proof.
  induction models as [|m0 models IH]; simpl.
  - split; [intros _ m [] | reflexivity].
  - destruct (fetchOne m0) as [v|reason] eqn:E.
    + split; [discriminate|].
      intros H. destruct (H m0 (or_introl eq_refl)) as [r Hr]. congruence.
    + rewrite IH. split.
      * intros H m [<-|Hm]; [exists reason; exact E | apply H; exact Hm].
      * intros H m Hm. apply H. right. exact Hm.
Qed.

(** Every entry of [succeeded] is a base model with the value its fetch
    was fulfilled with, in the order of [BASE_MODELS]. *)
Lemma succeededOf_In {A : Type} (fetchOne : string -> Settled A)
      (models : list string) (m : string) (v : A) :
  In (m, v) (succeededOf models (map fetchOne models))
  <-> In m models /\ fetchOne m = Fulfilled v.
Proof.
  induction models as [|m0 models IH]; simpl.
  - split; [intros [] | intros [[] _]].
  - destruct (fetchOne m0) as [v0|reason] eqn:E.
    + simpl. rewrite IH. split.
      * intros [H|[H1 H2]]; [injection H as <- <-; split; [left; reflexivity | exact E]|].
        split; [right; exact H1 | exact H2].
      * intros [[<-|H1] H2].
        -- left. rewrite E in H2. injection H2 as ->. reflexivity.
        -- right. split; assumption.
    + rewrite IH. split.
      * intros [H1 H2]. split; [right; exact H1 | exact H2].
      * intros [[<-|H1] H2]; [congruence | split; assumption].
Qed.

Lemma succeededOf_flat_map {A : Type} (fetchOne : string -> Settled A)
      (models : list string) :
  succeededOf models (map fetchOne models)
  = flat_map (fun m => match fetchOne m with
                       | Fulfilled v => [(m, v)]
                       | Rejected _ => []
                       end) models.
Proof.
  induction models as [|m models IH]; [reflexivity|].
  cbn [map succeededOf flat_map]. destruct (fetchOne m); rewrite IH; reflexivity.
Qed.

Lemma succeededOf_fulfilledOf {A : Type} (fetchOne : string -> Settled A) :
  succeededOf BASE_MODELS (map fetchOne BASE_MODELS) = fulfilledOf fetchOne.
Proof. apply succeededOf_flat_map. Qed.

Lemma sameAnswers_fulfilledOf {A : Type} (f g : string -> Settled A) :
  sameAnswers f g -> fulfilledOf g = fulfilledOf f.
Proof.
  unfold sameAnswers, fulfilledOf.
  induction BASE_MODELS as [|m models IH]; intros H; [reflexivity|].
  cbn [flat_map]. rewrite IH by (intros m' Hm'; apply H; right; exact Hm').
  specialize (H m (or_introl eq_refl)).
  destruct (f m), (g m); try contradiction; [rewrite H|]; reflexivity.
Qed.

Lemma blendDay_is_blend (ok : list (string * list DayForecast))
      (d : DayForecast) (i : nat) :
  blendOfDay ok i (blendDay ok d i).
Proof. unfold blendOfDay, blendDay. repeat split. Qed.

Lemma blendHour_is_blend (ok : list (string * list HourForecast))
      (h : HourForecast) (i : nat) :
  blendOfHour ok i (blendHour ok h i).
Proof. unfold blendOfHour, blendHour. repeat split. Qed.

Lemma nth_error_mapi {A B : Type} (f : A -> nat -> B) (a : list A)
      (i : nat) (y : B) :
  nth_error (mapi f a) i = Some y ->
  exists x, nth_error a i = Some x /\ y = f x i.
Proof.
  unfold mapi. rewrite nth_error_mapi_from.
  destruct (nth_error a i) as [x|]; [|discriminate].
  intros H. injection H as <-. exists x. split; reflexivity.
Qed.

(** C6, as stated, fails on the error: when every base model fails, either
    fetcher is rejected with a plain [Error] carrying the message
    "All models failed"; its name is "Error", not "AllModelsFailedError",
    and nothing but the message tells it from any other error. *)
Lemma all_models_failed_is_a_plain_Error :
  fetchDailyForecast_BLEND allRejected = Throws "All models failed"
  /\ fetchHourlyForecast_BLEND allRejected = Throws "All models failed"
  /\ blendRejection (fetchDailyForecast_BLEND allRejected)
     = Some {| name := "Error"; message := "All models failed" |}
  /\ blendRejection (fetchHourlyForecast_BLEND allRejected)
     = Some {| name := "Error"; message := "All models failed" |}
  /\ forall e, blendRejection (fetchDailyForecast_BLEND allRejected) = Some e ->
               name e <> "AllModelsFailedError"%string.
Proof.
  split; [reflexivity|]. split; [reflexivity|]. split; [reflexivity|].
  split; [reflexivity|].
  intros e H. cbn in H. injection H as <-. cbn [name Error]. discriminate.
Qed.

(** C6 (amended). The BLEND branch of either fetcher is rejected exactly
    when every base-model fetch was rejected, and then with a plain [Error]
    whose message is "All models failed".  As soon as one base model is
    fulfilled it resolves, whatever the others did, with one point per
    entry of the first fulfilled model; the point at each index is the
    blend of the values the fulfilled models, and only they, have at that
    index, each with its own weight.  The failed models leave no trace:
    two rounds in which the same models answer with the same data give the
    same outcome. *)
Theorem blend_fails_iff_all_models_fail :
  (forall fetchOne : string -> Settled (list DayForecast),
      let ok := fulfilledOf fetchOne in
      (forall m data, In (m, data) ok
                      <-> In m BASE_MODELS /\ fetchOne m = Fulfilled data)
      /\ (fetchDailyForecast_BLEND fetchOne = Throws "All models failed"
          <-> forall m, In m BASE_MODELS ->
                        exists reason, fetchOne m = Rejected reason)
      /\ (forall e, blendRejection (fetchDailyForecast_BLEND fetchOne) = Some e ->
                    e = Error "All models failed")
      /\ ((exists m data, In m BASE_MODELS /\ fetchOne m = Fulfilled data)
          <-> exists pts, fetchDailyForecast_BLEND fetchOne = Resolves pts)
      /\ (forall pts,
             fetchDailyForecast_BLEND fetchOne = Resolves pts ->
             (exists m0 data0 rest,
                 ok = (m0, data0) :: rest /\ length pts = length data0)
             /\ forall i p, nth_error pts i = Some p -> blendOfDay ok i p)
      /\ (forall fetchOne', sameAnswers fetchOne fetchOne' ->
                            fetchDailyForecast_BLEND fetchOne'
                            = fetchDailyForecast_BLEND fetchOne))
  /\ (forall fetchOne : string -> Settled (list HourForecast),
         let ok := fulfilledOf fetchOne in
         (forall m data, In (m, data) ok
                         <-> In m BASE_MODELS /\ fetchOne m = Fulfilled data)
         /\ (fetchHourlyForecast_BLEND fetchOne = Throws "All models failed"
             <-> forall m, In m BASE_MODELS ->
                           exists reason, fetchOne m = Rejected reason)
         /\ (forall e, blendRejection (fetchHourlyForecast_BLEND fetchOne) = Some e ->
                       e = Error "All models failed")
         /\ ((exists m data, In m BASE_MODELS /\ fetchOne m = Fulfilled data)
             <-> exists pts, fetchHourlyForecast_BLEND fetchOne = Resolves pts)
         /\ (forall pts,
                fetchHourlyForecast_BLEND fetchOne = Resolves pts ->
                (exists m0 data0 rest,
                    ok = (m0, data0) :: rest /\ length pts = length data0)
                /\ forall i p, nth_error pts i = Some p -> blendOfHour ok i p)
         /\ (forall fetchOne', sameAnswers fetchOne fetchOne' ->
                               fetchHourlyForecast_BLEND fetchOne'
                               = fetchHourlyForecast_BLEND fetchOne)).
Proof.
  split; intros fetchOne ok.
  - pose proof (succeededOf_nil_iff fetchOne BASE_MODELS) as Hnil.
    pose proof (fun m v => succeededOf_In fetchOne BASE_MODELS m v) as Hin.
    assert (Hsame : forall fetchOne', sameAnswers fetchOne fetchOne' ->
                      fetchDailyForecast_BLEND fetchOne'
                      = fetchDailyForecast_BLEND fetchOne).
    { intros fetchOne' H. unfold fetchDailyForecast_BLEND.
      rewrite !succeededOf_fulfilledOf, (sameAnswers_fulfilledOf _ _ H).
      reflexivity. }
    assert (Hout : fetchDailyForecast_BLEND fetchOne
                   = match ok with
                     | [] => Throws "All models failed"
                     | (_, data0) :: _ => Resolves (mapi (blendDay ok) data0)
                     end).
    { unfold fetchDailyForecast_BLEND. rewrite succeededOf_fulfilledOf. reflexivity. }
    rewrite succeededOf_fulfilledOf in Hnil, Hin. fold ok in Hnil, Hin.
    rewrite Hout in Hsame |- *. clear Hout.
    split; [exact Hin|].
    destruct ok as [|[m0 data0] rest] eqn:E.
    + split; [split; [intros _; apply Hnil; reflexivity | reflexivity]|].
      split; [intros e H; injection H as <-; reflexivity|].
      split; [|split; [intros pts H; discriminate | exact Hsame]].
      split; [|intros [pts H]; discriminate].
      intros (m & data & Hm & Hf).
      destruct (proj2 (Hin m data) (conj Hm Hf)).
    + split; [split; [discriminate | intros H; apply Hnil in H; discriminate]|].
      split; [intros e H; discriminate|].
      split; [|split; [|exact Hsame]].
      * split; [intros _; eexists; reflexivity|].
        intros _. exists m0, data0. apply Hin. left. reflexivity.
      * intros pts H. injection H as <-. split.
        -- exists m0, data0, rest. split; [reflexivity|].
           apply length_mapi_from.
        -- intros i p Hp. apply nth_error_mapi in Hp.
           destruct Hp as (d & _ & ->). apply blendDay_is_blend.
  - pose proof (succeededOf_nil_iff fetchOne BASE_MODELS) as Hnil.
    pose proof (fun m v => succeededOf_In fetchOne BASE_MODELS m v) as Hin.
    assert (Hsame : forall fetchOne', sameAnswers fetchOne fetchOne' ->
                      fetchHourlyForecast_BLEND fetchOne'
                      = fetchHourlyForecast_BLEND fetchOne).
    { intros fetchOne' H. unfold fetchHourlyForecast_BLEND.
      rewrite !succeededOf_fulfilledOf, (sameAnswers_fulfilledOf _ _ H).
      reflexivity. }
    assert (Hout : fetchHourlyForecast_BLEND fetchOne
                   = match ok with
                     | [] => Throws "All models failed"
                     | (_, data0) :: _ => Resolves (mapi (blendHour ok) data0)
                     end).
    { unfold fetchHourlyForecast_BLEND. rewrite succeededOf_fulfilledOf. reflexivity. }
    rewrite succeededOf_fulfilledOf in Hnil, Hin. fold ok in Hnil, Hin.
    rewrite Hout in Hsame |- *. clear Hout.
    split; [exact Hin|].
    destruct ok as [|[m0 data0] rest] eqn:E.
    + split; [split; [intros _; apply Hnil; reflexivity | reflexivity]|].
      split; [intros e H; injection H as <-; reflexivity|].
      split; [|split; [intros pts H; discriminate | exact Hsame]].
      split; [|intros [pts H]; discriminate].
      intros (m & data & Hm & Hf).
      destruct (proj2 (Hin m data) (conj Hm Hf)).
    + split; [split; [discriminate | intros H; apply Hnil in H; discriminate]|].
      split; [intros e H; discriminate|].
      split; [|split; [|exact Hsame]].
      * split; [intros _; eexists; reflexivity|].
        intros _. exists m0, data0. apply Hin. left. reflexivity.
      * intros pts H. injection H as <-. split.
        -- exists m0, data0, rest. split; [reflexivity|].
           apply length_mapi_from.
        -- intros i p Hp. apply nth_error_mapi in Hp.
           destruct Hp as (h & _ & ->). apply blendHour_is_blend.
Qed.

(** ** Fields the blend leaves alone *)

Lemma succeededOf_head {A : Type} (fetchOne : string -> Settled A)
      (models : list string) (m0 : string) (v0 : A)
      (rest : list (string * A)) :
  succeededOf models (map fetchOne models) = (m0, v0) :: rest ->
  exists pre post,
    models = pre ++ m0 :: post
    /\ (forall m, In m pre -> exists reason, fetchOne m = Rejected reason)
    /\ fetchOne m0 = Fulfilled v0.
Proof.
  induction models as [|m models IH]; simpl; [discriminate|].
  destruct (fetchOne m) as [v|reason] eqn:E.
  - intros H. injection H as <- <- _.
    exists [], models. split; [reflexivity|]. split; [intros x []|exact E].
  - intros H. destruct (IH H) as (pre & post & -> & Hpre & Hm0).
    exists (m :: pre), post. split; [reflexivity|]. split; [|exact Hm0].
    intros x [<-|Hx]; [exists reason; exact E | apply Hpre; exact Hx].
Qed.

(** C10. A blended sequence has the length of the sequence of the first
    base model (in [BASE_MODELS] order) whose fetch succeeded, and its point
    at each index keeps that model's day, date, cloud, tideHigh, tideLow and
    tideRange (daily) or hour label and tide (hourly). *)
Theorem blend_preserves_untouched_fields :
  (forall (fetchOne : string -> Settled (list DayForecast))
          (pts : list DayForecast),
      fetchDailyForecast_BLEND fetchOne = Resolves pts ->
      exists m0 data0 pre post,
        BASE_MODELS = pre ++ m0 :: post
        /\ (forall m, In m pre -> exists reason, fetchOne m = Rejected reason)
        /\ fetchOne m0 = Fulfilled data0
        /\ length pts = length data0
        /\ forall i d, nth_error data0 i = Some d ->
             exists p, nth_error pts i = Some p
                       /\ day p = day d /\ date p = date d
                       /\ cloud p = cloud d /\ tideHigh p = tideHigh d
                       /\ tideLow p = tideLow d /\ tideRange p = tideRange d)
  /\ (forall (fetchOne : string -> Settled (list HourForecast))
             (pts : list HourForecast),
         fetchHourlyForecast_BLEND fetchOne = Resolves pts ->
         exists m0 data0 pre post,
           BASE_MODELS = pre ++ m0 :: post
           /\ (forall m, In m pre -> exists reason, fetchOne m = Rejected reason)
           /\ fetchOne m0 = Fulfilled data0
           /\ length pts = length data0
           /\ forall i h, nth_error data0 i = Some h ->
                exists p, nth_error pts i = Some p
                          /\ hour p = hour h /\ tide p = tide h).
Proof.
  split; intros fetchOne pts.
  - unfold fetchDailyForecast_BLEND.
    destruct (succeededOf BASE_MODELS (map fetchOne BASE_MODELS))
      as [|[m0 data0] rest] eqn:E; [discriminate|].
    intros H. injection H as <-.
    destruct (succeededOf_head _ _ _ _ _ E) as (pre & post & Hb & Hpre & Hm0).
    exists m0, data0, pre, post.
    split; [exact Hb|]. split; [exact Hpre|]. split; [exact Hm0|].
    split; [apply length_mapi_from|].
    intros i d Hd. unfold mapi. rewrite nth_error_mapi_from, Hd.
    eexists. split; [reflexivity|]. repeat split.
  - unfold fetchHourlyForecast_BLEND.
    destruct (succeededOf BASE_MODELS (map fetchOne BASE_MODELS))
      as [|[m0 data0] rest] eqn:E; [discriminate|].
    intros H. injection H as <-.
    destruct (succeededOf_head _ _ _ _ _ E) as (pre & post & Hb & Hpre & Hm0).
    exists m0, data0, pre, post.
    split; [exact Hb|]. split; [exact Hpre|]. split; [exact Hm0|].
    split; [apply length_mapi_from|].
    intros i h Hh. unfold mapi. rewrite nth_error_mapi_from, Hh.
    eexists. split; [reflexivity|].
    split; [reflexivity|]. cbn [blendHour tide Nat.add]. rewrite Hh. reflexivity.
Qed.

(** ** Circular mean of directions *)

Lemma atan_sign_pos (x : R) : 0 < x -> 0 < atan x.
Proof. intros H. rewrite <- atan_0. apply atan_increasing. exact H. Qed.

Lemma atan_sign_nonpos (x : R) : x <= 0 -> atan x <= 0.
Proof.
  intros [H|H].
  - left. rewrite <- atan_0. apply atan_increasing. exact H.
  - rewrite H, atan_0. lra.
Qed.

Lemma atan2_range (y x : R) : - PI < atan2 y x <= PI.
Proof.
  pose proof PI_RGT_0 as Hpi.
  pose proof (atan_bound (y / x)) as Hb.
  unfold atan2, ltb.
  destruct (Rlt_dec 0 x) as [Hx|Hx]; [lra|].
  destruct (Rlt_dec x 0) as [Hx'|Hx'].
  - destruct (Rlt_dec y 0) as [Hy|Hy].
    + assert (0 < atan (y / x)).
      { apply atan_sign_pos. unfold Rdiv.
        replace (y * / x) with ((- y) * / (- x)) by (field; lra).
        apply Rmult_lt_0_compat; [lra|]. apply Rinv_0_lt_compat. lra. }
      lra.
    + assert (atan (y / x) <= 0).
      { apply atan_sign_nonpos. unfold Rdiv.
        replace (y * / x) with (- (y * / (- x))) by (field; lra).
        assert (0 <= y * / (- x)).
        { apply Rmult_le_pos; [lra|]. left. apply Rinv_0_lt_compat. lra. }
        lra. }
      lra.
  - destruct (Rlt_dec 0 y); [lra|]. destruct (Rlt_dec y 0); lra.
Qed.

Lemma circularMeanRaw_range (angles ws : list R) :
  0 <= circularMeanRaw angles ws < 360.
Proof.
  unfold circularMeanRaw.
  destruct (circularSums angles ws) as [[sumSin sumCos] sumW].
  pose proof PI_RGT_0 as Hpi.
  pose proof (atan2_range (sumSin / sumW) (sumCos / sumW)) as Hr.
  set (a := atan2 (sumSin / sumW) (sumCos / sumW)) in *.
  assert (Hd : a * 180 / PI = (a / PI) * 180) by (field; lra).
  assert (Hlo : -1 < a / PI).
  { apply (Rmult_lt_reg_r PI); [lra|]. replace (a / PI * PI) with a by (field; lra). lra. }
  assert (Hhi : a / PI <= 1).
  { apply (Rmult_le_reg_r PI); [lra|]. replace (a / PI * PI) with a by (field; lra). lra. }
  rewrite Hd. unfold ltb.
  destruct (Rlt_dec (a / PI * 180) 0); lra.
Qed.

Lemma round_range (x : R) :
  0 <= x < 360 -> exists z : Z, round x = IZR z /\ (0 <= z <= 360)%Z.
Proof.
  intros Hx. exists (Zfloor (x + / 2)). split; [reflexivity|].
  pose proof (Zfloor_bound (x + / 2)) as Hb.
  split.
  - apply Zfloor_lub. lra.
  - assert (Zfloor (x + / 2) < 361)%Z by (apply lt_IZR; lra). lia.
Qed.

Lemma circularSums_from (angles ws : list R) (idx : list nat) (a b c : R) :
  fold_left (fun '(sumSin, sumCos, sumW) i =>
               let rad := at_ angles i * PI / 180 in
               (sumSin + sin rad * at_ ws i,
                sumCos + cos rad * at_ ws i,
                sumW + at_ ws i)) idx (a, b, c)
  = (a + Rsum (map (fun i => sin (at_ angles i * PI / 180) * at_ ws i) idx),
     b + Rsum (map (fun i => cos (at_ angles i * PI / 180) * at_ ws i) idx),
     c + Rsum (map (at_ ws) idx)).
Proof.
  revert a b c; induction idx as [|i idx IH]; intros a b c; simpl.
  - f_equal; [f_equal|]; lra.
  - rewrite IH. f_equal; [f_equal|]; lra.
Qed.

(** The three sums of [circularMeanDeg] over (direction, weight) pairs. *)
Lemma circularSums_pairs (angles ws : list R) :
  length ws = length angles ->
  let pairs := combine angles ws in
  circularSums angles ws
  = (Rsum (map (fun aw => sin (fst aw * PI / 180) * snd aw) pairs),
     Rsum (map (fun aw => cos (fst aw * PI / 180) * snd aw) pairs),
     Rsum (map snd pairs)).
Proof.
  intros Hl pairs. unfold circularSums. rewrite circularSums_from.
  rewrite !Rplus_0_l.
  pose proof (map_pair_seq (fun aw => sin (fst aw * PI / 180) * snd aw)
                angles ws 0 (length angles) ltac:(lia) ltac:(lia)) as Hs.
  pose proof (map_pair_seq (fun aw => cos (fst aw * PI / 180) * snd aw)
                angles ws 0 (length angles) ltac:(lia) ltac:(lia)) as Hc.
  pose proof (map_weight_seq angles ws 0 (length angles)
                ltac:(lia) ltac:(lia)) as Hw.
  cbn [fst snd skipn] in Hs, Hc, Hw.
  rewrite (firstn_all2 (n := length angles)) in Hs, Hc, Hw
    by (rewrite length_combine; lia).
  rewrite Hs, Hc, Hw. reflexivity.
Qed.

Lemma atan2_pos_x (y x : R) : 0 < x -> atan2 y x = atan (y / x).
Proof. intros H. unfold atan2. rewrite ltb_true by exact H. reflexivity. Qed.

Lemma sin_full_turn_minus (a : R) : sin (2 * PI - a) = - sin a.
Proof. rewrite sin_minus, sin_2PI, cos_2PI. lra. Qed.

Lemma cos_full_turn_minus (a : R) : cos (2 * PI - a) = cos a.
Proof. rewrite cos_minus, sin_2PI, cos_2PI. lra. Qed.

(** Directions 350 and 10 with equal weights average to north. *)
Lemma circularMeanDeg_350_10 : circularMeanDeg [350; 10] [1; 1] = 0.
Proof.
  pose proof PI_RGT_0 as Hpi.
  unfold circularMeanDeg, circularMeanRaw, circularSums, at_. simpl.
  set (a := 10 * PI / 180).
  replace (350 * PI / 180) with (2 * PI - a) by (unfold a; lra).
  rewrite sin_full_turn_minus, cos_full_turn_minus.
  assert (Hc : 0 < cos a) by (apply cos_gt_0; unfold a; lra).
  rewrite atan2_pos_x by lra.
  assert (E : (0 + - sin a * 1 + sin a * 1) / (0 + 1 + 1)
              / ((0 + cos a * 1 + cos a * 1) / (0 + 1 + 1)) = 0)
    by (field; lra).
  rewrite E, atan_0.
  replace (0 * 180 / PI) with 0 by (field; lra).
  rewrite ltb_false by lra.
  rewrite (round_eq 0) by lra. reflexivity.
Qed.

Lemma weightOf_ECMWF : weightOf "ECMWF" = 1.3.
Proof. unfold weightOf, MODEL_WEIGHT; simpl; lra. Qed.

(** Directions 359 (weight 1.0) and 0 (weight 1.3): the mean direction lies
    between 359.5 and 360 and is rounded to 360. *)
Lemma circularMeanDeg_359_0 : circularMeanDeg [359; 0] [1; 1.3] = 360.
Proof.
  pose proof PI_RGT_0 as Hpi.
  unfold circularMeanDeg, circularMeanRaw, circularSums, at_. simpl.
  set (h := PI / 360).
  replace (359 * PI / 180) with (2 * PI - 2 * h) by (unfold h; lra).
  replace (0 * PI / 180) with 0 by lra.
  rewrite sin_full_turn_minus, cos_full_turn_minus, sin_0, cos_0.
  rewrite sin_2a, cos_2a_cos.
  assert (Hh : 0 < h < PI / 2) by (unfold h; lra).
  assert (Hsh : 0 < sin h) by (apply sin_gt_0; lra).
  assert (Hch : 0 < cos h) by (apply cos_gt_0; lra).
  remember (sin h) as sh eqn:Esh. remember (cos h) as ch eqn:Ech.
  assert (Hcc : 0 < ch * ch) by (apply Rmult_lt_0_compat; assumption).
  assert (Hden : 0 < 2 * (ch * ch) + 3 / 10) by lra.
  replace 1.3 with (13 / 10) by lra.
  rewrite atan2_pos_x
    by (replace ((0 + (2 * ch * ch - 1) * 1 + 1 * (13 / 10)) / (0 + 1 + 13 / 10))
          with ((2 * (ch * ch) + 3 / 10) / (23 / 10)) by lra; lra).
  assert (E : (0 + - (2 * sh * ch) * 1 + 0 * (13 / 10)) / (0 + 1 + 13 / 10)
              / ((0 + (2 * ch * ch - 1) * 1 + 1 * (13 / 10)) / (0 + 1 + 13 / 10))
              = - (2 * sh * ch / (2 * (ch * ch) + 3 / 10)))
    by (field; lra).
  rewrite E.
  set (q := 2 * sh * ch / (2 * (ch * ch) + 3 / 10)).
  assert (Hq : 0 < q).
  { unfold q. apply Rdiv_lt_0_compat; [|exact Hden].
    apply Rmult_lt_0_compat; [lra | exact Hch]. }
  assert (Hqt : q < tan h).
  { unfold tan. rewrite <- Esh, <- Ech.
    assert (Hdiff : sh / ch - q
                    = (3 / 10) * sh / (ch * (2 * (ch * ch) + 3 / 10)))
      by (unfold q; field; lra).
    assert (0 < (3 / 10) * sh / (ch * (2 * (ch * ch) + 3 / 10))).
    { apply Rdiv_lt_0_compat; [lra|]. apply Rmult_lt_0_compat; assumption. }
    lra. }
  assert (Hlo : - h < atan (- q)).
  { rewrite <- (atan_tan (- h)) by lra.
    apply atan_increasing. rewrite tan_neg. lra. }
  assert (Hhi : atan (- q) < 0).
  { rewrite <- atan_0. apply atan_increasing. lra. }
  set (A := atan (- q)) in *.
  assert (Hd : A * 180 / PI = (A / PI) * 180) by (field; lra).
  assert (Hlo' : - / 360 < A / PI).
  { apply (Rmult_lt_reg_r PI); [lra|].
    replace (A / PI * PI) with A by (field; lra). unfold h in Hlo. lra. }
  assert (Hhi' : A / PI < 0).
  { apply (Rmult_lt_reg_r PI); [lra|].
    replace (A / PI * PI) with A by (field; lra). lra. }
  rewrite Hd. rewrite ltb_true by lra.
  rewrite (round_eq 360) by lra. reflexivity.
Qed.

(** C5: the code departs from the claim.  With GFS reporting 359 and ECMWF
    reporting 0, the weighted mean direction lies between 359.5 and 360;
    the negative angle is brought into [0, 360) first and rounded after, so
    [circularMeanDeg] returns 360, which is outside [0, 360). *)
Theorem circular_mean_reaches_360 :
  let r := circularMeanDeg [359; 0] (map weightOf ["GFS"; "ECMWF"]%string) in
  r = 360 /\ ~ (0 <= r < 360).
Proof.
  cbv zeta. simpl map. rewrite weightOf_GFS, weightOf_ECMWF.
  rewrite circularMeanDeg_359_0. split; [reflexivity | lra].
Qed.

(** What [circularMeanDeg] computes: the unit vectors of the directions
    scaled by the weights are summed, [atan2] is taken of the sums (each
    divided by the total weight), the angle is converted to degrees and 360
    is added to a negative one, which gives a value in [0, 360); the value
    returned is that one rounded, an integer between 0 and 360 inclusive.
    Directions 350 and 10 with equal weights give 0. *)
Lemma circularMeanDeg_spec :
  (forall angles ws : list R,
      length ws = length angles ->
      let pairs := combine angles ws in
      let sumSin := Rsum (map (fun aw => sin (fst aw * PI / 180) * snd aw) pairs) in
      let sumCos := Rsum (map (fun aw => cos (fst aw * PI / 180) * snd aw) pairs) in
      let sumW := Rsum (map snd pairs) in
      let deg := atan2 (sumSin / sumW) (sumCos / sumW) * 180 / PI in
      let normalized := if ltb deg 0 then deg + 360 else deg in
      circularMeanDeg angles ws = round normalized
      /\ 0 <= normalized < 360
      /\ exists z : Z, circularMeanDeg angles ws = IZR z /\ (0 <= z <= 360)%Z)
  /\ circularMeanDeg [350; 10] [1; 1] = 0.
Proof.
  split; [|exact circularMeanDeg_350_10].
  intros angles ws Hl pairs sumSin sumCos sumW deg normalized.
  assert (Hraw : circularMeanRaw angles ws = normalized).
  { unfold circularMeanRaw. rewrite circularSums_pairs by exact Hl.
    reflexivity. }
  pose proof (circularMeanRaw_range angles ws) as Hr. rewrite Hraw in Hr.
  split; [unfold circularMeanDeg; rewrite Hraw; reflexivity|].
  split; [exact Hr|].
  unfold circularMeanDeg. rewrite Hraw. apply round_range. exact Hr.
Qed.

(** ** Interpolation of sea levels from extremes *)

Import Tide.

Lemma nth_error_map_seq {B : Type} (f : nat -> B) (n : nat) :
  forall a h, (h < n)%nat -> nth_error (map f (seq a n)) h = Some (f (a + h)%nat).
Proof.
  induction n as [|n IH]; intros a h Hh; [lia|].
  destruct h as [|h]; simpl.
  - rewrite Nat.add_0_r. reflexivity.
  - rewrite IH by lia. f_equal. f_equal. lia.
Qed.

Lemma interpolate_nth (e1 e2 : CachedExtreme) (rest : list CachedExtreme)
      (h : nat) :
  (h < totalHours)%nat ->
  nth_error (interpolateFromExtremes (e1 :: e2 :: rest)) h
  = Some (levelAt e1 (e1 :: e2 :: rest) h).
Proof.
  intros Hh. unfold interpolateFromExtremes.
  rewrite nth_error_map_seq by exact Hh. reflexivity.
Qed.

(** The search returns the first pair that brackets the hour. *)
Lemma bracket_first (h : R) (es : list CachedExtreme) :
  forall (i : nat) (e1 e2 dflt : _),
    nth_error es i = Some e1 -> nth_error es (S i) = Some e2 ->
    absHour e1 <= h <= absHour e2 ->
    (forall j, (j < i)%nat -> ~ brackets es h j) ->
    bracket h es dflt = (e1, e2).
Proof.
  induction es as [|a es IH]; intros i e1 e2 dflt H1 H2 Hb Hfirst.
  - destruct i; discriminate.
  - destruct es as [|b es]; [destruct i as [|[|i]]; discriminate|].
    destruct i as [|i].
    + simpl in H1, H2. injection H1 as ->. injection H2 as ->.
      simpl. rewrite !leb_true by lra. reflexivity.
    + cbn [bracket].
      destruct (leb (absHour a) h && leb h (absHour b)) eqn:E.
      * exfalso. apply (Hfirst 0%nat); [lia|].
        exists a, b. split; [reflexivity|]. split; [reflexivity|].
        apply andb_prop in E. destruct E as [Ea Eb].
        unfold leb in Ea, Eb.
        destruct (Rle_dec (absHour a) h); [|discriminate].
        destruct (Rle_dec h (absHour b)); [|discriminate]. lra.
      * apply (IH i); try assumption.
        intros j Hj (x & y & Hx & Hy & Hxy).
        apply (Hfirst (S j)); [lia|]. exists x, y. repeat split; assumption || lra.
Qed.

Lemma pow_10_2 : 10 ^ 2 = 100.
Proof. simpl; lra. Qed.

Lemma scenario_hour_5 :
  levelAt (mkExtreme 2 1.0 low) scenarioExtremes 5 = mkSeaLevel 5 2.
Proof.
  unfold levelAt, scenarioExtremes. cbn [bracket last absHour level].
  replace (INR 5) with 5 by (simpl; lra).
  rewrite !leb_true by lra. cbn [andb absHour level].
  rewrite leb_false by lra.
  replace ((5 - 2) / (8 - 2) * PI) with (PI / 2) by lra.
  rewrite cos_PI2.
  rewrite (toFixed_nonneg_eq 2 200) by (rewrite ?pow_10_2; lra).
  rewrite pow_10_2. f_equal. lra.
Qed.

Lemma scenario_hour_0 :
  levelAt (mkExtreme 2 1.0 low) scenarioExtremes 0 = mkSeaLevel 0 1.5.
Proof.
  unfold levelAt, scenarioExtremes. cbn [bracket last absHour level INR].
  rewrite (leb_false 2 0) by lra. cbn [andb absHour level].
  rewrite leb_false by lra.
  replace ((0 - 2) / (8 - 2) * PI) with (- (PI / 3)) by lra.
  rewrite cos_neg, cos_PI3.
  rewrite (toFixed_nonneg_eq 2 150) by (rewrite ?pow_10_2; lra).
  rewrite pow_10_2. f_equal. lra.
Qed.

Lemma inv_sqrt2_bounds : 0.70 < 1 / sqrt 2 < 0.71.
Proof.
  assert (H2 : sqrt 2 * sqrt 2 = 2) by (apply sqrt_sqrt; lra).
  assert (Hp : 0 < sqrt 2) by (apply sqrt_lt_R0; lra).
  assert (Hr : 1 / sqrt 2 = sqrt 2 / 2).
  { apply (Rmult_eq_reg_r (sqrt 2)); [|lra].
    replace (1 / sqrt 2 * sqrt 2) with 1 by (field; lra). lra. }
  rewrite Hr. split; nra.
Qed.

Lemma quarter_way_hour_1 :
  levelAt (mkExtreme 0 0 low) [mkExtreme 0 0 low; mkExtreme 4 1 high] 1
  = mkSeaLevel 1 0.15.
Proof.
  unfold levelAt. cbn [bracket last absHour level INR].
  rewrite !leb_true by lra. cbn [andb absHour level].
  rewrite leb_false by lra.
  replace ((1 - 0) / (4 - 0) * PI) with (PI / 4) by lra.
  rewrite cos_PI4.
  pose proof inv_sqrt2_bounds as Hb.
  rewrite (toFixed_nonneg_eq 2 15) by (rewrite ?pow_10_2; lra).
  rewrite pow_10_2. f_equal; lra.
Qed.

(** [toFixed d] moves a number by at most half a unit of the last digit. *)
Lemma toFixed_close (d : nat) (x : R) :
  Rabs (toFixed d x - x) <= / 2 / 10 ^ d.
Proof.
  assert (Hp : 0 < 10 ^ d) by (apply pow_lt; lra).
  set (p := 10 ^ d) in *.
  assert (Hu : 0 < / p) by (apply Rinv_0_lt_compat; exact Hp).
  assert (Hkey : forall y z, IZR z <= y * p + / 2 < IZR z + 1 ->
                             - (/ 2 / p) <= IZR z / p - y <= / 2 / p).
  { intros y z [H1 H2].
    assert (E : IZR z / p - y = (IZR z - y * p) * / p) by (field; lra).
    rewrite E. unfold Rdiv.
    split.
    - replace (- (/ 2 * / p)) with ((- / 2) * / p) by lra.
      apply Rmult_le_compat_r; lra.
    - apply Rmult_le_compat_r; lra. }
  unfold toFixed, ltb. fold p.
  destruct (Rlt_dec x 0) as [Hx|Hx].
  - pose proof (Hkey (- x) _ (Zfloor_bound (- x * p + / 2))) as Hb.
    apply Rabs_le. lra.
  - pose proof (Hkey x _ (Zfloor_bound (x * p + / 2))) as Hb.
    apply Rabs_le. lra.
Qed.

(** C4, as stated, fails on both of its formulas.  For the extremes of the
    scenario, hour 0 lies before the first extreme (hour 2, level 1.0) and
    gets level 1.5, not the boundary level 1.0; and between the extremes
    (hour 0, level 0) and (hour 4, level 1) hour 1 gets 0.15, the eased
    value rounded to two decimals, not the eased value itself. *)
Lemma interpolation_neither_clamps_nor_exact :
  (exists sl,
      nth_error (interpolateFromExtremes scenarioExtremes) 0 = Some sl
      /\ INR 0 < 2
      /\ sl_level sl = 1.5 /\ sl_level sl <> 1.0)
  /\ (exists sl,
         nth_error (interpolateFromExtremes
                      [mkExtreme 0 0 low; mkExtreme 4 1 high]) 1 = Some sl
         /\ sl_level sl = 0.15
         /\ sl_level sl
            <> 0 + (1 - 0) * (1 - cos ((INR 1 - 0) / (4 - 0) * PI)) / 2).
Proof.
  split.
  - exists (mkSeaLevel 0 1.5).
    unfold scenarioExtremes.
    rewrite interpolate_nth by (unfold totalHours; lia).
    fold scenarioExtremes. rewrite scenario_hour_0.
    split; [reflexivity|]. cbn [sl_level INR]. repeat split; lra.
  - exists (mkSeaLevel 1 0.15).
    rewrite interpolate_nth by (unfold totalHours; lia).
    rewrite quarter_way_hour_1.
    split; [reflexivity|]. cbn [sl_level INR]. split; [reflexivity|].
    replace ((1 - 0) / (4 - 0) * PI) with (PI / 4) by lra.
    rewrite cos_PI4. pose proof inv_sqrt2_bounds. lra.
Qed.

(** C4 (amended). With fewer than two extremes the result is empty;
    otherwise it has one entry per hour 0..167, entry [h] carrying hour [h].
    For an hour bracketed by two consecutive extremes (the first such pair),
    the level is [before.level + (after.level - before.level) * (1 - cos (t PI)) / 2]
    rounded to two decimals (so within 0.005 of it), [t] being the position
    of the hour between the two; when the two coincide the level is
    [before.level].  For the scenario the level at hour 5 is 2.0. *)
Theorem interpolateFromExtremes_spec :
  (forall es, (length es < 2)%nat -> interpolateFromExtremes es = [])
  /\ (forall es, (2 <= length es)%nat ->
        length (interpolateFromExtremes es) = (7 * 24)%nat
        /\ forall h, (h < 7 * 24)%nat ->
             exists sl, nth_error (interpolateFromExtremes es) h = Some sl
                        /\ sl_absHour sl = INR h)
  /\ (forall es h i before after,
        (h < 7 * 24)%nat ->
        nth_error es i = Some before -> nth_error es (S i) = Some after ->
        absHour before <= INR h <= absHour after ->
        (forall j, (j < i)%nat -> ~ brackets es (INR h) j) ->
        let t := (INR h - absHour before) / (absHour after - absHour before) in
        let eased := level before
                     + (level after - level before) * ((1 - cos (t * PI)) / 2) in
        exists sl,
          nth_error (interpolateFromExtremes es) h = Some sl
          /\ (absHour before < absHour after ->
              sl_level sl = toFixed 2 eased
              /\ Rabs (sl_level sl - eased) <= 0.005)
          /\ (absHour after <= absHour before -> sl_level sl = level before))
  /\ nth_error (interpolateFromExtremes scenarioExtremes) 5
     = Some (mkSeaLevel 5 2.0).
Proof.
  split; [|split; [|split]].
  - intros [|e1 [|e2 rest]] H; simpl in H; try lia; reflexivity.
  - intros [|e1 [|e2 rest]] H; simpl in H; try lia.
    split.
    + unfold interpolateFromExtremes. rewrite length_map, length_seq.
      reflexivity.
    + intros h Hh. eexists. rewrite interpolate_nth by exact Hh.
      split; [reflexivity|].
      unfold levelAt.
      destruct (bracket _ _ _) as [b a]. destruct (leb _ 0); reflexivity.
  - intros es h i before after Hh H1 H2 Hb Hfirst t eased.
    destruct es as [|e1 [|e2 rest]];
      [destruct i; discriminate | destruct i as [|[|i]]; discriminate |].
    eexists. rewrite interpolate_nth by exact Hh.
    split; [reflexivity|].
    unfold levelAt.
    rewrite (bracket_first _ _ i before after) by assumption.
    split.
    + intros Hlt. rewrite leb_false by lra. cbn [sl_level].
      fold t. fold eased. split; [reflexivity|].
      pose proof (toFixed_close 2 eased) as Hc. rewrite pow_10_2 in Hc. lra.
    + intros Hle. rewrite leb_true by lra. reflexivity.
  - unfold scenarioExtremes.
    rewrite interpolate_nth by (unfold totalHours; lia).
    fold scenarioExtremes. rewrite scenario_hour_5.
    do 2 f_equal; lra.
Qed.

(** ** The harmonic simulator *)

Lemma fmod_small_turn (x : R) : 360 <= x < 720 -> fmod x 360 = x - 360.
Proof.
  intros Hx. unfold fmod, trunc.
  assert (Hq : 1 <= x / 360 < 2) by lra.
  rewrite ltb_false by lra.
  rewrite (Zfloor_eq 1) by lra. lra.
Qed.

(** [tideRaw] is the mean sea level plus the main amplitude, which follows
    the day of the year, times a factor that does not. *)
Lemma tideRaw_factored (env : Env) (dayOffset hour lat_ : R) :
  let locPhase := fmod (lat_ * 7.3 + 41.7) 360 * PI / 180 in
  let lunarPhase := dayOffset * LUNAR_SHIFT_RAD + locPhase in
  let t := (hour / 12.42) * 2 * PI + lunarPhase in
  let mainAmp :=
    1.2 + 0.8 * (0.5 + 0.5 * cos (((IZR (getDayOfYear env) + dayOffset)
                                    / SPRING_NEAP_PERIOD) * 2 * PI)) in
  tideRaw env dayOffset hour lat_
  = 2.1 + mainAmp * (cos t
                     + 0.18 * cos ((hour / 24) * 2 * PI + lunarPhase * 0.52 + 0.8)
                     + 0.06 * cos (2 * t + 0.4)).
Proof. cbv zeta. unfold tideRaw. lra. Qed.

Lemma tideRaw_bounds (env : Env) (dayOffset hour lat_ : R) :
  -0.38 <= tideRaw env dayOffset hour lat_ <= 4.58.
Proof.
  rewrite tideRaw_factored.
  set (c0 := cos _). set (c1 := cos _). set (c2 := cos _). set (c3 := cos _).
  pose proof (COS_bound (((IZR (getDayOfYear env) + dayOffset)
                          / SPRING_NEAP_PERIOD) * 2 * PI)) as H0.
  fold c0 in H0.
  assert (H1 : -1 <= c1 <= 1) by apply COS_bound.
  assert (H2 : -1 <= c2 <= 1) by apply COS_bound.
  assert (H3 : -1 <= c3 <= 1) by apply COS_bound.
  set (A := 1.2 + 0.8 * (0.5 + 0.5 * c0)).
  assert (HA : 1.2 <= A <= 2) by (unfold A; lra).
  set (F := c1 + 0.18 * c2 + 0.06 * c3).
  assert (HF : -1.24 <= F <= 1.24) by (unfold F; lra).
  split; nra.
Qed.

(** *** The day of the year *)

Lemma YearFromTime_spec (t : Z) :
  (JsDate.TimeFromYear (JsDate.YearFromTime t) <= t
   < JsDate.TimeFromYear (JsDate.YearFromTime t + 1))%Z.
Proof.
  unfold JsDate.YearFromTime, JsDate.TimeFromYear.
  assert (Hd : (JsDate.msPerDay * JsDate.Day t <= t
                < JsDate.msPerDay * (JsDate.Day t + 1))%Z).
  { unfold JsDate.Day, JsDate.msPerDay. Z.div_mod_to_equations. lia. }
  set (d := JsDate.Day t) in *. clearbody d.
  set (y := (1970 + 400 * d / 146097)%Z).
  assert (Hy : (146097 * (y - 1970) <= 400 * d < 146097 * (y - 1969))%Z).
  { unfold y. Z.div_mod_to_equations. lia. }
  clearbody y.
  assert (K : forall a b, (a <= b)%Z ->
                          (JsDate.msPerDay * a <= JsDate.msPerDay * b)%Z)
    by (intros a b Hab; unfold JsDate.msPerDay; lia).
  assert (Hin : forall yr, (JsDate.DayFromYear yr <= d)%Z ->
                           (d + 1 <= JsDate.DayFromYear (yr + 1))%Z ->
                           (JsDate.msPerDay * JsDate.DayFromYear yr <= t
                            < JsDate.msPerDay * JsDate.DayFromYear (yr + 1))%Z).
  { intros yr H1 H2. pose proof (K _ _ H1). pose proof (K _ _ H2). lia. }
  destruct (Z.ltb_spec d (JsDate.DayFromYear y)) as [H1|H1].
  - apply Hin.
    + unfold JsDate.DayFromYear in *. Z.div_mod_to_equations. lia.
    + replace (y - 1 + 1)%Z with y by lia. lia.
  - destruct (Z.leb_spec (JsDate.DayFromYear (y + 1)) d) as [H2|H2].
    + apply Hin; [exact H2|].
      unfold JsDate.DayFromYear in *. Z.div_mod_to_equations. lia.
    + apply Hin; lia.
Qed.

(** On standard time [getDayOfYear] is the ordinal of the local calendar
    day. *)
Lemma getDayOfYear_standardTime (env : Env) :
  (99 < JsDate.getFullYear (LocalTZA env) (now env))%Z ->
  standardTime env ->
  getDayOfYear env = localDayOfYear env.
Proof.
  unfold standardTime, getDayOfYear, localDayOfYear, JsDate.newDateJanuary,
    JsDate.UTC, JsDate.DayWithinYear, JsDate.getFullYear, JsDate.LocalTime.
  cbv zeta.
  set (off := LocalTZA env (now env) true).
  set (y := JsDate.YearFromTime (now env + off)).
  intros Hy Hstd.
  replace ((0 <=? y) && (y <=? 99))%Z with false
    by (symmetry; apply andb_false_iff; right; apply Z.leb_gt; exact Hy).
  rewrite <- Hstd.
  unfold JsDate.MakeDateJanuary.
  set (D := JsDate.DayFromYear y). clearbody D.
  unfold JsDate.Day, JsDate.msPerDay.
  Z.div_mod_to_equations. lia.
Qed.

Lemma tideRaw_same_count (env1 env2 : Env) (dayOffset hour lat_ : R) :
  getDayOfYear env1 = getDayOfYear env2 ->
  tideRaw env1 dayOffset hour lat_ = tideRaw env2 dayOffset hour lat_.
Proof. intros H. unfold tideRaw. rewrite H. reflexivity. Qed.

(** At midnight off Montreal the level falls from one day to the next
    while the spring-neap cycle, [k] whole periods in, is in its falling
    half. *)
Lemma tideRaw_falls_with_the_cycle (env1 env2 : Env) (k : nat) :
  let a1 := IZR (getDayOfYear env1) / SPRING_NEAP_PERIOD - INR k in
  let a2 := IZR (getDayOfYear env2) / SPRING_NEAP_PERIOD - INR k in
  0 <= a1 -> a1 < a2 -> a2 <= / 2 ->
  tideRaw env2 0 0 45 < tideRaw env1 0 0 45.
Proof.
  cbv zeta. intros H0 H12 H2.
  pose proof PI_RGT_0 as Hpi.
  rewrite !tideRaw_factored.
  set (n1 := IZR (getDayOfYear env1)) in *.
  set (n2 := IZR (getDayOfYear env2)) in *.
  replace (45 * 7.3 + 41.7) with 370.2 by lra.
  rewrite fmod_small_turn by lra.
  set (t := 0 / 12.42 * 2 * PI
            + (0 * LUNAR_SHIFT_RAD + (370.2 - 360) * PI / 180)).
  assert (Ht : t = 10.2 * PI / 180) by (unfold t; lra).
  set (c2 := cos (_ + 0.8)). set (c3 := cos (2 * t + 0.4)).
  assert (Hc2 : -1 <= c2 <= 1) by apply COS_bound.
  assert (Hc3 : -1 <= c3 <= 1) by apply COS_bound.
  assert (H1 : / 2 < cos t).
  { replace (/ 2) with (cos (PI / 3)) by (rewrite cos_PI3; lra).
    apply cos_decreasing_1; rewrite ?Ht; lra. }
  set (r1 := (n1 / SPRING_NEAP_PERIOD - INR k) * (2 * PI)) in *.
  set (r2 := (n2 / SPRING_NEAP_PERIOD - INR k) * (2 * PI)) in *.
  assert (E1 : (n1 + 0) / SPRING_NEAP_PERIOD * 2 * PI = r1 + 2 * INR k * PI)
    by (unfold r1, SPRING_NEAP_PERIOD; lra).
  assert (E2 : (n2 + 0) / SPRING_NEAP_PERIOD * 2 * PI = r2 + 2 * INR k * PI)
    by (unfold r2, SPRING_NEAP_PERIOD; lra).
  rewrite E1, E2, !cos_period.
  assert (Hr1 : 0 <= r1) by (unfold r1; nra).
  assert (Hr12 : r1 < r2) by (unfold r1, r2; nra).
  assert (Hr2 : r2 <= PI) by (unfold r2; nra).
  assert (Hd : cos r2 < cos r1) by (apply cos_decreasing_1; lra).
  set (F := cos t + 0.18 * c2 + 0.06 * c3).
  assert (HF : 0 < F) by (unfold F; lra).
  nra.
Qed.

Lemma getDayOfYear_samples :
  getDayOfYear newYearsDay = 1%Z /\ getDayOfYear secondOfJanuary = 2%Z
  /\ getDayOfYear secondOfNovember = 306%Z
  /\ getDayOfYear torontoJulyEarly = 181%Z
  /\ getDayOfYear torontoJulyNoon = 182%Z.
Proof. repeat split; vm_compute; reflexivity. Qed.

(** C9, as stated, fails: the same three arguments give a higher level on
    1 January than on 2 January, because [tideRaw] reads the day of the
    year from the clock. *)
Lemma tideRaw_changes_with_the_day :
  tideRaw secondOfJanuary 0 0 45 < tideRaw newYearsDay 0 0 45
  /\ tideRaw newYearsDay 0 0 45 <> tideRaw secondOfJanuary 0 0 45.
Proof.
  assert (Hlt : tideRaw secondOfJanuary 0 0 45 < tideRaw newYearsDay 0 0 45).
  { pose proof (tideRaw_falls_with_the_cycle newYearsDay secondOfJanuary 0) as H.
    cbv zeta in H. destruct getDayOfYear_samples as (E1 & E2 & _).
    rewrite E1, E2 in H. unfold SPRING_NEAP_PERIOD in H. cbn [INR] in H.
    apply H; lra. }
  split; [exact Hlt | lra].
Qed.

(** Under daylight saving the count of whole days since the local midnight
    that opened 31 December, taken on standard time, changes at 01:00: in
    Toronto on 1 July 2026 a call at 00:30 still counts day 181 and a call
    at noon day 182, and the two levels differ on one calendar day. *)
Lemma tideRaw_changes_within_a_summer_day :
  localDayOfYear torontoJulyEarly = 182%Z
  /\ localDayOfYear torontoJulyNoon = 182%Z
  /\ getDayOfYear torontoJulyEarly = 181%Z
  /\ getDayOfYear torontoJulyNoon = 182%Z
  /\ ~ standardTime torontoJulyEarly
  /\ tideRaw torontoJulyNoon 0 0 45 < tideRaw torontoJulyEarly 0 0 45.
Proof.
  destruct getDayOfYear_samples as (_ & _ & _ & E1 & E2).
  split; [vm_compute; reflexivity|]. split; [vm_compute; reflexivity|].
  split; [exact E1|]. split; [exact E2|]. split.
  - vm_compute. discriminate.
  - pose proof (tideRaw_falls_with_the_cycle torontoJulyEarly torontoJulyNoon 12)
      as H.
    cbv zeta in H. rewrite E1, E2 in H. unfold SPRING_NEAP_PERIOD in H.
    replace (INR 12) with 12 in H by (simpl; lra).
    apply H; lra.
Qed.

(** C9 (amended). [tideRaw] is a function of its three arguments and of the
    clock, which it reads through [getDayOfYear], the number of whole
    24-hour periods since the local midnight that opened 31 December of the
    year before.  On standard time (and past the year 99) that number is
    the ordinal of the local calendar day, so that two calls with the same
    arguments made on the same local day of the year, at any two instants
    and in any two years or places, return the same level; in general two
    calls return the same level whenever that number is the same at both. *)
Theorem tideRaw_deterministic_per_day :
  (forall env : Env,
      (99 < JsDate.getFullYear (LocalTZA env) (now env))%Z ->
      standardTime env ->
      getDayOfYear env = localDayOfYear env)
  /\ (forall (env1 env2 : Env) (dayOffset hour lat_ : R),
         (99 < JsDate.getFullYear (LocalTZA env1) (now env1))%Z ->
         (99 < JsDate.getFullYear (LocalTZA env2) (now env2))%Z ->
         standardTime env1 -> standardTime env2 ->
         localDayOfYear env1 = localDayOfYear env2 ->
         tideRaw env1 dayOffset hour lat_ = tideRaw env2 dayOffset hour lat_)
  /\ (forall (env1 env2 : Env) (dayOffset hour lat_ : R),
         getDayOfYear env1 = getDayOfYear env2 ->
         tideRaw env1 dayOffset hour lat_ = tideRaw env2 dayOffset hour lat_).
Proof.
  split; [exact getDayOfYear_standardTime|]. split.
  - intros env1 env2 dayOffset hour lat_ Hy1 Hy2 Hs1 Hs2 Hday.
    apply tideRaw_same_count.
    rewrite (getDayOfYear_standardTime env1 Hy1 Hs1).
    rewrite (getDayOfYear_standardTime env2 Hy2 Hs2).
    exact Hday.
  - intros env1 env2 dayOffset hour lat_ H.
    apply tideRaw_same_count. exact H.
Qed.

(** ** The synchronous query and the date of the cached record *)

Lemma nearest_spec (target : R) (sls : list SeaLevel) :
  forall best bestDist,
    bestDist = Rabs (sl_absHour best - target) ->
    let r := nearest target sls best bestDist in
    snd r = Rabs (sl_absHour (fst r) - target)
    /\ (fst r = best \/ In (fst r) sls)
    /\ snd r <= bestDist
    /\ forall s, In s sls -> snd r <= Rabs (sl_absHour s - target).
Proof.
  induction sls as [|sl sls IH]; intros best bestDist Hd; simpl.
  - split; [exact Hd|]. split; [left; reflexivity|]. split; [lra | intros s []].
  - unfold ltb.
    destruct (Rlt_dec (Rabs (sl_absHour sl - target)) bestDist) as [Hlt|Hge].
    + destruct (IH sl _ eq_refl) as (H1 & H2 & H3 & H4).
      split; [exact H1|]. split; [right; destruct H2 as [->|H2]; [left; reflexivity | right; exact H2]|].
      split; [lra|].
      intros s [<-|Hs]; [exact H3 | apply H4; exact Hs].
    + destruct (IH best bestDist Hd) as (H1 & H2 & H3 & H4).
      split; [exact H1|]. split; [destruct H2 as [H2|H2]; [left; exact H2 | right; right; exact H2]|].
      split; [exact H3|].
      intros s [<-|Hs]; [lra | apply H4; exact Hs].
Qed.

(** [tideAt] answers from the record in memory whenever its latitude is
    within 0.3 degrees and a sample lies within 1.5 hours: the date of the
    record is not looked at. *)
Lemma tideAt_reads_memCache (env : Env) (st : State) (c : TideCache)
      (dayOffset hour lat_ : R) :
  memCache st = Some c ->
  Rabs (lat c - lat_) < 0.3 ->
  (exists s, In s (seaLevels c)
             /\ Rabs (sl_absHour s - (dayOffset * 24 + hour)) <= 1.5) ->
  exists best,
    In best (seaLevels c)
    /\ tideAt env st dayOffset hour lat_ = (sl_level best, st)
    /\ forall s, In s (seaLevels c) ->
                 Rabs (sl_absHour best - (dayOffset * 24 + hour))
                 <= Rabs (sl_absHour s - (dayOffset * 24 + hour)).
Proof.
  intros Hm Hlat (s & Hs & Hnear).
  unfold tideAt, ensureCache. rewrite Hm. rewrite ltb_true by exact Hlat.
  destruct (seaLevels c) as [|first rest] eqn:E; [destruct Hs|].
  set (target := dayOffset * 24 + hour) in *.
  pose proof (nearest_spec target (first :: rest) first _ eq_refl) as Hn.
  destruct (nearest target (first :: rest) first _) as [best bestDist].
  cbn [fst snd] in Hn. destruct Hn as (H1 & H2 & H3 & H4).
  exists best.
  split; [destruct H2 as [->|H2]; [left; reflexivity | exact H2]|].
  split.
  - rewrite leb_true; [reflexivity|]. specialize (H4 s Hs). lra.
  - intros s' Hs'. rewrite <- H1. apply H4. exact Hs'.
Qed.

(** C8: the code departs from the claim.  On 2 November, with the record
    of 1 November still in memory, [cacheCovers] treats it as a miss, but
    [tideAt] answers 7.5 from it, a level the simulator cannot produce. *)
Theorem tideAt_answers_from_stale_record :
  String.eqb (date yesterdaysRecord) (todayStr secondOfNovember) = false
  /\ cacheCovers secondOfNovember leftOvernight 45 (-73.5) = false
  /\ tideAt secondOfNovember leftOvernight 0 0 45 = (7.5, leftOvernight)
  /\ toFixed 2 (tideRaw secondOfNovember 0 0 45) < 7.5.
Proof.
  split; [reflexivity|]. split; [reflexivity|]. split.
  - unfold tideAt, ensureCache, leftOvernight, yesterdaysRecord.
    cbn [memCache lat seaLevels nearest sl_absHour sl_level].
    replace (Rabs (45 - 45)) with 0 by (unfold_abs; lra).
    rewrite (ltb_true 0 0.3) by lra.
    cbn [memCache lat seaLevels nearest sl_absHour sl_level].
    replace (Rabs (0 - (0 * 24 + 0))) with 0 by (unfold_abs; lra).
    replace (Rabs (1 - (0 * 24 + 0))) with 1 by (unfold_abs; lra).
    rewrite (ltb_false 0 0) by lra. rewrite (ltb_false 1 0) by lra.
    rewrite leb_true by lra. reflexivity.
  - pose proof (tideRaw_bounds secondOfNovember 0 0 45) as Hb.
    pose proof (toFixed_close 2 (tideRaw secondOfNovember 0 0 45)) as Hc.
    rewrite pow_10_2 in Hc.
    pose proof (Rle_abs (toFixed 2 (tideRaw secondOfNovember 0 0 45)
                         - tideRaw secondOfNovember 0 0 45)).
    lra.
Qed.

(** ** The in-flight marker of fetchTideData *)

Lemma pow_10_1 : 10 ^ 1 = 10.
Proof. simpl; lra. Qed.

Lemma gridKey_montreal : gridKey 45 (-73.5) = (45, -73.5).
Proof.
  unfold gridKey.
  rewrite (round_eq 150) by lra. rewrite (round_eq (-245)) by lra.
  rewrite (toFixed_nonneg_eq 1 450) by (rewrite ?pow_10_1; lra).
  rewrite (toFixed_neg_eq 1 735) by (rewrite ?pow_10_1; lra).
  rewrite pow_10_1. f_equal; lra.
Qed.

Lemma gridKey_tarifa : gridKey 36 (-5.7) = (36, -5.7).
Proof.
  unfold gridKey.
  rewrite (round_eq 120) by lra. rewrite (round_eq (-19)) by lra.
  rewrite (toFixed_nonneg_eq 1 360) by (rewrite ?pow_10_1; lra).
  rewrite (toFixed_neg_eq 1 57) by (rewrite ?pow_10_1; lra).
  rewrite pow_10_1. f_equal; lra.
Qed.

Lemma gridKey_eqb_refl (g : GridKey) : gridKey_eqb g g = true.
Proof.
  unfold gridKey_eqb.
  destruct (Req_dec_T (fst g) (fst g)); [|congruence].
  destruct (Req_dec_T (snd g) (snd g)); [reflexivity | congruence].
Qed.

Lemma gridKey_eqb_fst_neq (a b : GridKey) :
  fst a <> fst b -> gridKey_eqb a b = false.
Proof.
  intros H. unfold gridKey_eqb.
  destruct (Req_dec_T (fst a) (fst b)); [contradiction | reflexivity].
Qed.

Lemma loadCache_absent (env : Env) (st : State) (lat_ lng_ : R) :
  localStorage st (gridKey lat_ lng_) = None ->
  loadCache env st lat_ lng_ = None.
Proof.
  intros H. unfold loadCache. rewrite H.
  destruct (getItemThrows env (gridKey lat_ lng_)); reflexivity.
Qed.

Lemma cacheCovers_empty (env : Env) (st : State) (lat_ lng_ : R) :
  memCache st = None -> cacheCovers env st lat_ lng_ = false.
Proof. intros H. unfold cacheCovers. rewrite H. reflexivity. Qed.

Lemma findSeed_no_seeds (env : Env) (lat_ lng_ : R) :
  TIDE_SEEDS env = [] -> findSeed env lat_ lng_ = None.
Proof. intros H. unfold findSeed. rewrite H. reflexivity. Qed.

(** A call that finds nothing in memory, in the durable cache or among
    the seeds, with a key configured, sends a request unless the marker
    holds this very cell. *)
Lemma fetchTideData_uncached (env : Env) (st : State) (lat_ lng_ : R) :
  cacheCovers env st lat_ lng_ = false ->
  loadCache env st lat_ lng_ = None ->
  findSeed env lat_ lng_ = None ->
  String.eqb (apiKey st) "" = false ->
  match inflight st, inflightGrid st with
  | Some _, Some g => gridKey_eqb g (gridKey lat_ lng_) = false
  | _, _ => True
  end ->
  fetchTideData env st lat_ lng_
  = (Awaits (issued st), issueRequest st lat_ lng_).
Proof.
  intros Hc Hl Hseed Hkey Hmark.
  unfold fetchTideData. rewrite Hc, Hl, Hseed, Hkey.
  destruct (inflight st) as [p|]; [|reflexivity].
  destruct (inflightGrid st) as [g|]; [|reflexivity].
  rewrite Hmark. reflexivity.
Qed.

(** With nothing cached or seeded and a key configured, a call sends a
    request unless the marker holds this very cell. *)
Lemma fetchTideData_sends (env : Env) (st : State) (lat_ lng_ : R) :
  memCache st = None ->
  localStorage st (gridKey lat_ lng_) = None ->
  TIDE_SEEDS env = [] ->
  String.eqb (apiKey st) "" = false ->
  match inflight st, inflightGrid st with
  | Some _, Some g => gridKey_eqb g (gridKey lat_ lng_) = false
  | _, _ => True
  end ->
  fetchTideData env st lat_ lng_
  = (Awaits (issued st), issueRequest st lat_ lng_).
Proof.
  intros Hm Hs Hseed Hkey Hmark.
  apply fetchTideData_uncached; try assumption.
  - apply cacheCovers_empty; exact Hm.
  - apply loadCache_absent; exact Hs.
  - apply findSeed_no_seeds; exact Hseed.
Qed.

(** ... and joins the pending promise when the marker holds this cell. *)
Lemma fetchTideData_joins (env : Env) (st : State) (lat_ lng_ : R) (p : nat) :
  memCache st = None ->
  localStorage st (gridKey lat_ lng_) = None ->
  TIDE_SEEDS env = [] ->
  String.eqb (apiKey st) "" = false ->
  inflight st = Some p ->
  inflightGrid st = Some (gridKey lat_ lng_) ->
  fetchTideData env st lat_ lng_ = (Awaits p, st).
Proof.
  intros Hm Hs Hseed Hkey Hp Hg.
  unfold fetchTideData.
  rewrite (cacheCovers_empty env st lat_ lng_ Hm).
  rewrite (loadCache_absent env st lat_ lng_ Hs).
  rewrite (findSeed_no_seeds env lat_ lng_ Hseed).
  rewrite Hkey, Hp, Hg, gridKey_eqb_refl. reflexivity.
Qed.

(** C7: the code departs from the claim.  The spot at (45, -73.5) is
    selected, then the spot at (36, -5.7), then the first one again, all
    before any response arrives.  The first two calls each send a request;
    the marker now holds the second cell only, so the third call sends a
    second request for the first cell while the first is still pending.
    (Had the second spot not been selected in between, the repeated call
    would have joined the pending promise.) *)
Theorem interleaved_cells_duplicate_request :
  let env := secondOfNovember in
  let s1 := snd (fetchTideData env freshStart 45 (-73.5)) in
  let s2 := snd (fetchTideData env s1 36 (-5.7)) in
  let s3 := snd (fetchTideData env s2 45 (-73.5)) in
  fetchTideData env freshStart 45 (-73.5) = (Awaits 0, s1)
  /\ fetchTideData env s1 36 (-5.7) = (Awaits 1, s2)
  /\ fetchTideData env s2 45 (-73.5) = (Awaits 2, s3)
  /\ issued s3 = 3%nat
  /\ pending s3 = [mkRequest 0 45 (-73.5); mkRequest 1 36 (-5.7);
                   mkRequest 2 45 (-73.5)]
  /\ pendingCells s3 = [(45, -73.5); (36, -5.7); (45, -73.5)]
  /\ fetchTideData env s1 45 (-73.5) = (Awaits 0, s1).
Proof.
  cbv zeta.
  assert (H1 : fetchTideData secondOfNovember freshStart 45 (-73.5)
               = (Awaits 0, issueRequest freshStart 45 (-73.5)))
    by (apply fetchTideData_sends; reflexivity || exact I).
  rewrite H1. cbn [snd].
  assert (H2 : fetchTideData secondOfNovember (issueRequest freshStart 45 (-73.5))
                             36 (-5.7)
               = (Awaits 1, issueRequest (issueRequest freshStart 45 (-73.5))
                                         36 (-5.7))).
  { apply fetchTideData_sends; try reflexivity.
    cbn [inflight inflightGrid issueRequest].
    rewrite gridKey_montreal, gridKey_tarifa.
    apply gridKey_eqb_fst_neq. cbn [fst]. lra. }
  rewrite H2. cbn [snd].
  assert (H3 : fetchTideData secondOfNovember
                 (issueRequest (issueRequest freshStart 45 (-73.5)) 36 (-5.7))
                 45 (-73.5)
               = (Awaits 2,
                  issueRequest
                    (issueRequest (issueRequest freshStart 45 (-73.5)) 36 (-5.7))
                    45 (-73.5))).
  { apply fetchTideData_sends; try reflexivity.
    cbn [inflight inflightGrid issueRequest].
    rewrite gridKey_montreal, gridKey_tarifa.
    apply gridKey_eqb_fst_neq. cbn [fst]. lra. }
  rewrite H3. cbn [snd].
  split; [reflexivity|]. split; [reflexivity|]. split; [reflexivity|].
  split; [reflexivity|]. split; [reflexivity|]. split.
  - unfold pendingCells. cbn [pending issueRequest freshStart app map rlat rlng].
    rewrite gridKey_montreal, gridKey_tarifa. reflexivity.
  - apply fetchTideData_joins; reflexivity.
Qed.

(** The [finally] block of an earlier request clears the marker of a later
    one: once the request for the first cell has failed, a repeated call
    for the second cell sends a duplicate of the request still pending. *)
Lemma early_response_clears_later_marker :
  let env := secondOfNovember in
  let s2 := issueRequest (issueRequest freshStart 45 (-73.5)) 36 (-5.7) in
  let s3 := snd (settle env s2 0 HttpNotOk) in
  settle env s2 0 HttpNotOk = (Some false, s3)
  /\ inflight s3 = None
  /\ pending s3 = [mkRequest 1 36 (-5.7)]
  /\ fetchTideData env s3 36 (-5.7) = (Awaits 2, issueRequest s3 36 (-5.7))
  /\ pending (issueRequest s3 36 (-5.7))
     = [mkRequest 1 36 (-5.7); mkRequest 2 36 (-5.7)].
Proof.
  cbv zeta.
  assert (Hs : settle secondOfNovember
                 (issueRequest (issueRequest freshStart 45 (-73.5)) 36 (-5.7))
                 0 HttpNotOk
               = (Some false,
                  clearInflight
                    (issueRequest (issueRequest freshStart 45 (-73.5)) 36 (-5.7))
                    0)) by reflexivity.
  rewrite Hs. cbn [snd].
  split; [reflexivity|]. split; [reflexivity|]. split; [reflexivity|].
  split; [|reflexivity].
  apply fetchTideData_sends; reflexivity || exact I.
Qed.

(** ** The theorems at concrete inputs *)

Lemma blendValues_trims_furthest_scenario :
  (4 <= length [12; 14; 13; 30])%nat
  /\ exists k : nat,
       (k < 4)%nat
       /\ mean (blendValues [12; 14; 13; 30]
                            ["GFS"; "GFS"; "GFS"; "GFS"]%string true)
          = weightedMean
              (removeAt k (combine [12; 14; 13; 30]
                             (map weightOf ["GFS"; "GFS"; "GFS"; "GFS"]%string))).
Proof.
  split; [simpl; lia|].
  destruct (proj1 blendValues_trims_furthest [12; 14; 13; 30]
                  ["GFS"; "GFS"; "GFS"; "GFS"]%string)
    as (k & Hk & _ & _ & _ & _ & _ & Hm); [simpl; lia | reflexivity |].
  exists k. split; [exact Hk | exact Hm].
Defined.

Lemma blendValues_confidence_formula_scenario :
  (2 <= length [12; 14; 13; 30])%nat
  /\ 0 <= confidence (blendValues [12; 14; 13; 30]
                                  ["GFS"; "GFS"; "GFS"; "GFS"]%string true) <= 1.
Proof.
  split; [simpl; lia|].
  apply (blendValues_confidence_formula
           [12; 14; 13; 30] ["GFS"; "GFS"; "GFS"; "GFS"]%string true);
    [simpl; lia | reflexivity].
Defined.

Lemma single_model_blend_onlyGFS :
  succeededOf BASE_MODELS (map onlyGFS BASE_MODELS)
  = [("GFS"%string, [sampleDay])]
  /\ exists pts,
       fetchDailyForecast_BLEND onlyGFS = Resolves pts
       /\ forall p, In p pts ->
                    spread_ p = Some 0 /\ confidence_ p = Some 0.7
                    /\ modelAgreement p = Some "moderate"%string.
Proof.
  split; [reflexivity|].
  apply (proj1 single_model_blend onlyGFS "GFS"%string [sampleDay]).
  reflexivity.
Defined.

Lemma interpolateFromExtremes_spec_hour_5 :
  absHour (mkExtreme 2 1.0 low) <= INR 5 <= absHour (mkExtreme 8 3.0 high)
  /\ exists sl,
       nth_error (interpolateFromExtremes scenarioExtremes) 5 = Some sl
       /\ (absHour (mkExtreme 2 1.0 low) < absHour (mkExtreme 8 3.0 high) ->
           Rabs (sl_level sl
                 - (1.0 + (3.0 - 1.0)
                          * ((1 - cos ((INR 5 - 2) / (8 - 2) * PI)) / 2)))
           <= 0.005).
Proof.
  assert (Hb : absHour (mkExtreme 2 1.0 low) <= INR 5
               <= absHour (mkExtreme 8 3.0 high)) by (simpl; lra).
  split; [exact Hb|].
  destruct (proj1 (proj2 (proj2 interpolateFromExtremes_spec))
              scenarioExtremes 5%nat 0%nat
              (mkExtreme 2 1.0 low) (mkExtreme 8 3.0 high))
    as (sl & Hsl & Hlt & _);
    [lia | reflexivity | reflexivity | exact Hb | intros j Hj; lia |].
  exists sl. split; [exact Hsl|].
  intros H. exact (proj2 (Hlt H)).
Defined.

Lemma circularMeanDeg_spec_350_10 :
  length [1; 1] = length [350; 10]
  /\ exists z : Z, circularMeanDeg [350; 10] [1; 1] = IZR z /\ (0 <= z <= 360)%Z.
Proof.
  split; [reflexivity|].
  exact (proj2 (proj2 (proj1 circularMeanDeg_spec [350; 10] [1; 1] eq_refl))).
Defined.

Lemma tideRaw_deterministic_same_day :
  (99 < JsDate.getFullYear (LocalTZA torontoJanuaryEarly)
                           (now torontoJanuaryEarly))%Z
  /\ standardTime torontoJanuaryEarly /\ standardTime torontoJanuaryLate
  /\ localDayOfYear torontoJanuaryEarly = 15%Z
  /\ localDayOfYear torontoJanuaryLate = 15%Z
  /\ todayStr torontoJanuaryEarly <> todayStr torontoJanuaryLate
  /\ tideRaw torontoJanuaryEarly 0 0 45 = tideRaw torontoJanuaryLate 0 0 45.
Proof.
  split; [vm_compute; reflexivity|].
  split; [vm_compute; reflexivity|]. split; [vm_compute; reflexivity|].
  split; [vm_compute; reflexivity|]. split; [vm_compute; reflexivity|].
  split; [discriminate|].
  apply (proj1 (proj2 tideRaw_deterministic_per_day)
               torontoJanuaryEarly torontoJanuaryLate 0 0 45);
    vm_compute; reflexivity.
Defined.

Lemma two_model_mean (a b : R) (trim : bool) :
  mean (blendValues [a; b] ["GFS"; "ICON"]%string trim)
  = (a * 1.0 + b * 1.1) / 2.1.
Proof.
  rewrite blendValues_mean by (simpl; lia).
  unfold useIdx. cbn [length]. rewrite andb_false_r.
  unfold weightedSums, at_, weightOf, MODEL_WEIGHT. simpl. lra.
Qed.

Lemma blend_fails_iff_all_models_fail_gfsAndIcon :
  fulfilledOf gfsAndIcon
  = [("GFS"%string, [sampleDay]); ("ICON"%string, [breezyDay])]
  /\ wind sampleDay = 12 /\ wind breezyDay = 20
  /\ exists p,
       fetchDailyForecast_BLEND gfsAndIcon = Resolves [p]
       /\ wind p = 16 /\ gust p = 24 /\ temp p = 10.
Proof.
  split; [reflexivity|]. split; [reflexivity|]. split; [reflexivity|].
  destruct (proj1 blend_fails_iff_all_models_fail gfsAndIcon)
    as (_ & _ & _ & _ & Hpts & _).
  destruct (Hpts [blendDay [("GFS"%string, [sampleDay]);
                            ("ICON"%string, [breezyDay])] sampleDay 0]
                 eq_refl) as (_ & Hb).
  destruct (Hb 0%nat (blendDay [("GFS"%string, [sampleDay]);
                                ("ICON"%string, [breezyDay])] sampleDay 0)
               eq_refl) as (Hw & Hg & Ht & _).
  exists (blendDay [("GFS"%string, [sampleDay]); ("ICON"%string, [breezyDay])]
                   sampleDay 0).
  split; [reflexivity|].
  change (fulfilledOf gfsAndIcon)
    with [("GFS"%string, [sampleDay]); ("ICON"%string, [breezyDay])]
    in Hw, Hg, Ht.
  cbn [map fst snd fieldAt nth_error wind gust temp sampleDay breezyDay]
    in Hw, Hg, Ht.
  rewrite two_model_mean in Hw, Hg, Ht.
  split; [|split].
  - rewrite Hw. apply (round_eq 16). lra.
  - rewrite Hg. apply (round_eq 24). lra.
  - rewrite Ht. apply (round_eq 10). lra.
Defined.

Lemma blend_preserves_untouched_fields_onlyGFS :
  fetchDailyForecast_BLEND onlyGFS
  = Resolves [blendDay [("GFS"%string, [sampleDay])] sampleDay 0]
  /\ exists m0 data0,
       onlyGFS m0 = Fulfilled data0
       /\ forall i d, nth_error data0 i = Some d ->
            exists p,
              nth_error [blendDay [("GFS"%string, [sampleDay])] sampleDay 0] i
              = Some p
              /\ day p = day d /\ Openmeteo.date p = Openmeteo.date d.
Proof.
  split; [reflexivity|].
  destruct (proj1 blend_preserves_untouched_fields onlyGFS _ eq_refl)
    as (m0 & data0 & pre & post & _ & _ & Hm0 & _ & Hf).
  exists m0, data0. split; [exact Hm0|].
  intros i d Hd. destruct (Hf i d Hd) as (p & Hp & Hday & Hdate & _).
  exists p. split; [exact Hp|]. split; [exact Hday | exact Hdate].
Defined.

(** * Further properties of the blend *)

Lemma Rsum_weighted_bounds (f w : nat -> R) (lo hi : R) (idx : list nat) :
  (forall i, In i idx -> lo <= f i <= hi /\ 0 < w i) ->
  lo * Rsum (map w idx) <= Rsum (map (fun i => f i * w i) idx)
                        <= hi * Rsum (map w idx).
Proof.
  induction idx as [|i idx IH]; intros H; simpl; [lra|].
  destruct (H i (or_introl eq_refl)) as [Hf Hw].
  assert (IH' := IH (fun j Hj => H j (or_intror Hj))).
  split; nra.
Qed.

Lemma maxOf_singleton_mean (v : R) : minOf [v] <= v <= maxOf [v].
Proof. simpl; lra. Qed.

Lemma round_le (x y : R) : x <= y -> round x <= round y.
Proof. intros H. unfold round. apply IZR_le, Zfloor_le. lra. Qed.

Lemma blendValues_mean_within_range_aux
        (values : list R) (names : list string) (trim : bool) :
  (1 <= length values)%nat -> length names = length values ->
  minOf values <= mean (blendValues values names trim) <= maxOf values.
Proof.
  intros Hn Hlen.
  destruct values as [|v [|v2 rest]]; [simpl in Hn; lia | simpl; lra |].
  set (values := v :: v2 :: rest) in *.
  assert (H2 : (2 <= length values)%nat) by (simpl; lia).
  rewrite blendValues_mean by exact H2.
  set (idx := useIdx values _ trim).
  rewrite weightedSums_eq. cbn [fst snd].
  assert (Hr : forall i, In i idx -> (i < length values)%nat)
    by (intros i; apply useIdx_range).
  set (W := Rsum (map (at_ (map weightOf names)) idx)).
  assert (HW : 0 < W).
  { apply Rsum_pos; [apply useIdx_nonempty; exact H2|].
    intros i Hi. apply at_weights_pos. rewrite Hlen. apply Hr. exact Hi. }
  destruct (Rsum_weighted_bounds (at_ values) (at_ (map weightOf names))
              (minOf values) (maxOf values) idx) as [Hlo Hhi].
  { intros i Hi. split.
    - apply minOf_maxOf_bounds. unfold at_. apply nth_In. apply Hr. exact Hi.
    - apply at_weights_pos. rewrite Hlen. apply Hr. exact Hi. }
  fold W in Hlo, Hhi.
  split.
  - apply (Rmult_le_reg_r W); [exact HW|].
    unfold Rdiv. rewrite Rmult_assoc, Rinv_l by lra. lra.
  - apply (Rmult_le_reg_r W); [exact HW|].
    unfold Rdiv. rewrite Rmult_assoc, Rinv_l by lra. lra.
Qed.

(** X1. The blended value never leaves the range of the values blended:
    with one model name per value, the mean [blendValues] returns lies
    between the smallest and the largest input, trimmed or not. *)
Theorem blendValues_mean_within_range
        (values : list R) (names : list string) (trim : bool) :
  (1 <= length values)%nat -> length names = length values ->
  minOf values <= mean (blendValues values names trim) <= maxOf values
  /\ round (minOf values) <= round (mean (blendValues values names trim))
                           <= round (maxOf values).
Proof.
  intros Hn Hlen.
  pose proof (blendValues_mean_within_range_aux values names trim Hn Hlen)
    as [Hlo Hhi].
  split; [split; assumption|].
  split; apply round_le; assumption.
Qed.

Lemma blendValues_mean_within_range_scenario :
  (1 <= length [12; 14; 13; 30])%nat
  /\ minOf [12; 14; 13; 30]
     <= mean (blendValues [12; 14; 13; 30]
                          ["GFS"; "ECMWF"; "ICON"; "MF"]%string true)
     <= maxOf [12; 14; 13; 30].
Proof.
  split; [simpl; lia|].
  apply (blendValues_mean_within_range
           [12; 14; 13; 30] ["GFS"; "ECMWF"; "ICON"; "MF"]%string true);
    [simpl; lia | reflexivity].
Defined.

Lemma useIdx_all (values : list R) (m : R) (trim : bool) :
  trim = false \/ (length values < 4)%nat ->
  useIdx values m trim = seq 0 (length values).
Proof.
  intros [-> | H]; unfold useIdx; [reflexivity|].
  replace (4 <=? length values)%nat with false
    by (symmetry; apply Nat.leb_gt; exact H).
  rewrite andb_false_r. reflexivity.
Qed.

(** X2. Nothing is trimmed when trimming is off (temperature, rain) or when
    fewer than four values are given: the mean returned is then the weighted
    mean of all the (value, weight) pairs. *)
Theorem blendValues_untrimmed_mean
        (values : list R) (names : list string) (trim : bool) :
  (2 <= length values)%nat -> length names = length values ->
  trim = false \/ (length values < 4)%nat ->
  mean (blendValues values names trim)
  = weightedMean (combine values (map weightOf names)).
Proof.
  intros Hn Hlen Hno.
  rewrite blendValues_mean by exact Hn.
  rewrite useIdx_all by exact Hno.
  rewrite weightedSums_all by (rewrite length_map; exact Hlen).
  reflexivity.
Qed.

Lemma blendValues_untrimmed_mean_temps :
  (2 <= length [9; 11; 10; 25])%nat
  /\ mean (blendValues [9; 11; 10; 25]
                       ["GFS"; "ECMWF"; "ICON"; "MF"]%string false)
     = weightedMean (combine [9; 11; 10; 25]
                       (map weightOf ["GFS"; "ECMWF"; "ICON"; "MF"]%string)).
Proof.
  split; [simpl; lia|].
  apply blendValues_untrimmed_mean; [simpl; lia | reflexivity |].
  left; reflexivity.
Defined.

Lemma fold_left_Rmax_In (l : list R) :
  forall a, fold_left Rmax l a = a \/ In (fold_left Rmax l a) l.
Proof.
  induction l as [|y l IH]; intros a; simpl; [left; reflexivity|].
  destruct (IH (Rmax a y)) as [H|H]; [|right; right; exact H].
  rewrite H. unfold Rmax. destruct (Rle_dec a y); [right; left; reflexivity | left; reflexivity].
Qed.

Lemma fold_left_Rmin_In (l : list R) :
  forall a, fold_left Rmin l a = a \/ In (fold_left Rmin l a) l.
Proof.
  induction l as [|y l IH]; intros a; simpl; [left; reflexivity|].
  destruct (IH (Rmin a y)) as [H|H]; [|right; right; exact H].
  rewrite H. unfold Rmin. destruct (Rle_dec a y); [left; reflexivity | right; left; reflexivity].
Qed.

Lemma maxOf_In (l : list R) : l <> [] -> In (maxOf l) l.
Proof.
  destruct l as [|x l]; [congruence|]. intros _. unfold maxOf.
  destruct (fold_left_Rmax_In l x) as [H|H]; [left; symmetry; exact H | right; exact H].
Qed.

Lemma minOf_In (l : list R) : l <> [] -> In (minOf l) l.
Proof.
  destruct l as [|x l]; [congruence|]. intros _. unfold minOf.
  destruct (fold_left_Rmin_In l x) as [H|H]; [left; symmetry; exact H | right; exact H].
Qed.

(** X3. The spread reported with a blend is never negative, is the largest
    difference between two of the values given, and is zero exactly when
    all the values agree. *)
Theorem blendValues_spread_is_range
        (values : list R) (names : list string) (trim : bool) :
  let s := spread (blendValues values names trim) in
  0 <= s
  /\ (forall x y, In x values -> In y values -> x - y <= s)
  /\ ((2 <= length values)%nat ->
      exists x y, In x values /\ In y values /\ s = x - y)
  /\ (s = 0 <-> forall x y, In x values -> In y values -> x = y).
Proof.
  destruct values as [|v [|v2 rest]].
  - simpl. split; [lra|]. split; [intros x y []|].
    split; [intros H; lia|]. split; [intros _ x y [] | reflexivity].
  - simpl. split; [lra|].
    split; [intros x y [<-|[]] [<-|[]]; lra|].
    split; [intros H; lia|].
    split; [intros _ x y [<-|[]] [<-|[]]; reflexivity | reflexivity].
  - set (values := v :: v2 :: rest).
    assert (H2 : (2 <= length values)%nat) by (simpl; lia).
    cbv zeta. rewrite blendValues_spread by exact H2.
    assert (Hne : values <> []) by discriminate.
    pose proof (maxOf_In values Hne) as Hmax.
    pose proof (minOf_In values Hne) as Hmin.
    pose proof (minOf_maxOf_bounds values _ Hmax) as Hb.
    split; [lra|]. split; [|split; [|split]].
    + intros x y Hx Hy.
      pose proof (minOf_maxOf_bounds values x Hx).
      pose proof (minOf_maxOf_bounds values y Hy). lra.
    + intros _. exists (maxOf values), (minOf values).
      split; [exact Hmax|]. split; [exact Hmin | reflexivity].
    + intros Hs x y Hx Hy.
      apply (zero_range_all_equal values); assumption.
    + intros Hall. rewrite (Hall _ _ Hmax Hmin). lra.
Qed.

(** ** Direction agreement *)

(** The squared length of a sum of unit vectors is at most the square of
    their number. *)
Lemma resultant_bound (angles : list R) :
  forall (s c : R) (k : nat),
    s * s + c * c <= INR k * INR k ->
    let '(sumSin, sumCos) :=
      fold_left (fun '(sumSin, sumCos) a =>
                   let rad := a * PI / 180 in
                   (sumSin + sin rad, sumCos + cos rad))
                angles (s, c) in
    sumSin * sumSin + sumCos * sumCos
    <= INR (k + length angles) * INR (k + length angles).
Proof.
  induction angles as [|a angles IH]; intros s c k H; simpl.
  - rewrite Nat.add_0_r. exact H.
  - replace (k + S (length angles))%nat with (S k + length angles)%nat by lia.
    apply IH.
    set (x := sin (a * PI / 180)). set (y := cos (a * PI / 180)).
    assert (Hu : x * x + y * y = 1).
    { pose proof (sin2_cos2 (a * PI / 180)) as Hsc. unfold Rsqr in Hsc.
      exact Hsc. }
    assert (Hk : 0 <= INR k) by apply pos_INR.
    rewrite S_INR.
    assert (Hcs : (s * x + c * y) * (s * x + c * y) <= INR k * INR k).
    { pose proof (Rle_0_sqr (s * y - c * x)) as Hq. unfold Rsqr in Hq. nra. }
    assert (Hd : s * x + c * y <= INR k).
    { destruct (Rle_dec (s * x + c * y) (INR k)) as [Hle|Hgt]; [exact Hle|].
      exfalso. apply Rnot_le_lt in Hgt.
      assert (INR k * INR k < (s * x + c * y) * (s * x + c * y)) by nra.
      lra. }
    nra.
Qed.

Lemma circularConcentration_bounds (angles : list R) :
  0 <= circularConcentration angles <= 1.
Proof.
  unfold circularConcentration.
  destruct (Nat.leb_spec (length angles) 1) as [Hn|Hn]; [lra|].
  pose proof (resultant_bound angles 0 0 0) as Hb.
  destruct (fold_left _ angles (0, 0)) as [sumSin sumCos].
  simpl in Hb. specialize (Hb ltac:(lra)).
  assert (Hpos : 0 < INR (length angles)) by (apply lt_0_INR; lia).
  set (N := INR (length angles)) in *.
  assert (Hs : 0 <= sqrt (sumSin * sumSin + sumCos * sumCos) <= N).
  { split; [apply sqrt_pos|].
    rewrite <- (sqrt_square N) by lra. apply sqrt_le_1_alt. exact Hb. }
  split.
  + apply Rmult_le_pos; [lra|]. left. apply Rinv_0_lt_compat. exact Hpos.
  + apply (Rmult_le_reg_r N); [exact Hpos|].
    unfold Rdiv. rewrite Rmult_assoc, Rinv_l by lra. lra.
Qed.

(** X4. The direction agreement [circularConcentration] always lies in
    [0, 1], and is 1 when every model reports the same direction. *)
Theorem circularConcentration_range :
  (forall angles, 0 <= circularConcentration angles <= 1)
  /\ (forall a n, circularConcentration (repeat a n) = 1).
Proof.
  split; [exact circularConcentration_bounds|].
  intros a n. unfold circularConcentration. rewrite repeat_length.
  destruct (Nat.leb_spec n 1) as [Hn|Hn]; [reflexivity|].
  assert (Hf : forall m s c,
             fold_left (fun '(sumSin, sumCos) a0 =>
                          let rad := a0 * PI / 180 in
                          (sumSin + sin rad, sumCos + cos rad))
                       (repeat a m) (s, c)
             = (s + INR m * sin (a * PI / 180),
                c + INR m * cos (a * PI / 180))).
  { induction m as [|m IH]; intros s c.
    - simpl. f_equal; lra.
    - cbn [repeat fold_left]. rewrite IH, S_INR. f_equal; lra. }
  rewrite Hf.
  assert (Hpos : 0 < INR n) by (apply lt_0_INR; lia).
  set (x := sin (a * PI / 180)). set (y := cos (a * PI / 180)).
  assert (Hu : x * x + y * y = 1).
  { pose proof (sin2_cos2 (a * PI / 180)) as Hsc. unfold Rsqr in Hsc.
    exact Hsc. }
  replace ((0 + INR n * x) * (0 + INR n * x)
           + (0 + INR n * y) * (0 + INR n * y))
    with (INR n * INR n) by nra.
  rewrite sqrt_square by lra. field. lra.
Qed.

(** ** Fields of a blended point *)

Lemma blendValues_confidence_range
      (values : list R) (names : list string) (trim : bool) :
  0 <= confidence (blendValues values names trim) <= 1.
Proof.
  destruct values as [|v [|v2 rest]]; [simpl; lra | simpl; lra |].
  rewrite blendValues_confidence by (simpl; lia).
  split; [apply Rmax_l|]. apply Rmax_lub; [lra | apply Rmin_l].
Qed.

Lemma round_IZR (z : Z) : round (IZR z) = IZR z.
Proof. apply round_eq. lra. Qed.

(** The [confidence] field: the overall score times 100, rounded, over 100. *)
Lemma displayed_confidence (overall : R) :
  0 <= overall <= 1 ->
  exists k : Z, round (overall * 100) / 100 = IZR k / 100
                /\ (0 <= k <= 100)%Z
                /\ (0.75 <= overall -> (75 <= k)%Z)
                /\ (0.45 <= overall -> (45 <= k)%Z)
                /\ (overall < 0.75 -> (k <= 75)%Z)
                /\ (overall < 0.45 -> (k <= 45)%Z).
Proof.
  intros Ho. exists (Zfloor (overall * 100 + / 2)).
  pose proof (Zfloor_bound (overall * 100 + / 2)) as Hb.
  split; [reflexivity|].
  assert (Hup : forall n : Z, overall * 100 + / 2 < IZR n + 1 ->
                              (Zfloor (overall * 100 + / 2) <= n)%Z).
  { intros n Hn.
    assert (Zfloor (overall * 100 + / 2) < n + 1)%Z; [|lia].
    apply lt_IZR. rewrite plus_IZR. lra. }
  split; [split; [apply Zfloor_lub; lra | apply Hup; lra]|].
  split; [intros H; apply Zfloor_lub; lra|].
  split; [intros H; apply Zfloor_lub; lra|].
  split; intros H; apply Hup; lra.
Qed.

Lemma overall_confidence_range (wc dc : R) :
  0 <= wc <= 1 -> 0 <= dc <= 1 -> 0 <= wc * 0.6 + dc * 0.4 <= 1.
Proof. intros; lra. Qed.

(** X5. Whatever the models returned, the confidence of a blended point
    (daily or hourly) is a whole number of hundredths between 0 and 1. *)
Theorem blended_confidence_in_unit_interval :
  (forall succeeded d i,
      exists k : Z,
        confidence_ (blendDay succeeded d i) = Some (IZR k / 100)
        /\ (0 <= k <= 100)%Z)
  /\ (forall succeeded h i,
         exists k : Z,
           hconfidence (blendHour succeeded h i) = Some (IZR k / 100)
           /\ (0 <= k <= 100)%Z).
Proof.
  split.
  - intros succeeded d i. unfold blendDay. cbn [confidence_].
    set (wc := confidence (blendValues _ _ true)).
    set (dc := circularConcentration _).
    assert (Hw : 0 <= wc <= 1) by apply blendValues_confidence_range.
    assert (Hd : 0 <= dc <= 1) by apply circularConcentration_bounds.
    destruct (displayed_confidence _ (overall_confidence_range wc dc Hw Hd))
      as (k & Hk & Hr & _).
    exists k. rewrite Hk. split; [reflexivity | exact Hr].
  - intros succeeded h i. unfold blendHour. cbn [hconfidence].
    set (wc := confidence (blendValues _ _ true)).
    set (dc := circularConcentration _).
    assert (Hw : 0 <= wc <= 1) by apply blendValues_confidence_range.
    assert (Hd : 0 <= dc <= 1) by apply circularConcentration_bounds.
    destruct (displayed_confidence _ (overall_confidence_range wc dc Hw Hd))
      as (k & Hk & Hr & _).
    exists k. rewrite Hk. split; [reflexivity | exact Hr].
Qed.

(** X6. On a daily blended point the agreement label and the confidence
    shown never contradict each other: label "high" comes with a confidence
    of at least 0.75, "moderate" with one between 0.45 and 0.75, and "low"
    with one of at most 0.45; no other label occurs. *)
Theorem agreement_label_matches_confidence
        (succeeded : list (string * list DayForecast))
        (d : DayForecast) (i : nat) :
  let p := blendDay succeeded d i in
  exists c label,
    confidence_ p = Some c /\ modelAgreement p = Some label
    /\ ((label = "high"%string /\ 0.75 <= c <= 1)
        \/ (label = "moderate"%string /\ 0.45 <= c <= 0.75)
        \/ (label = "low"%string /\ 0 <= c <= 0.45)).
Proof.
  unfold blendDay. cbn [confidence_ modelAgreement].
  set (wc := confidence (blendValues _ _ true)).
  set (dc := circularConcentration _).
  assert (Hw : 0 <= wc <= 1) by apply blendValues_confidence_range.
  assert (Hd : 0 <= dc <= 1) by apply circularConcentration_bounds.
  pose proof (overall_confidence_range wc dc Hw Hd) as Ho.
  set (overall := wc * 0.6 + dc * 0.4) in *.
  destruct (displayed_confidence overall Ho)
    as (k & Hk & Hr & H75 & H45 & L75 & L45).
  exists (IZR k / 100), (agreementLabel overall).
  rewrite Hk. split; [reflexivity|]. split; [reflexivity|].
  assert (Hk0 : 0 <= IZR k <= 100)
    by (split; [apply (IZR_le 0) | apply (IZR_le k 100)]; lia).
  unfold agreementLabel, leb.
  destruct (Rle_dec 0.75 overall) as [Hh|Hh].
  - left. split; [reflexivity|].
    pose proof (IZR_le 75 k (H75 Hh)). lra.
  - apply Rnot_le_lt in Hh. pose proof (IZR_le k 75 (L75 Hh)).
    destruct (Rle_dec 0.45 overall) as [Hm|Hm].
    + right. left. split; [reflexivity|].
      pose proof (IZR_le 45 k (H45 Hm)). lra.
    + apply Rnot_le_lt in Hm. pose proof (IZR_le k 45 (L45 Hm)).
      right. right. split; [reflexivity|]. lra.
Qed.

Lemma column_length {P : Type} (succeeded : list (string * list P))
      (f : P -> R) (i : nat) :
  length (column succeeded f i) = length succeeded.
Proof. unfold column. apply length_map. Qed.

Lemma modelNames_length {P : Type} (succeeded : list (string * list P)) :
  length (modelNames succeeded) = length succeeded.
Proof. unfold modelNames. apply length_map. Qed.

Lemma rounded_blend_within_range {P : Type}
      (succeeded : list (string * list P)) (f : P -> R) (i : nat)
      (trim : bool) :
  succeeded <> [] ->
  round (minOf (column succeeded f i))
  <= round (mean (blendValues (column succeeded f i) (modelNames succeeded) trim))
  <= round (maxOf (column succeeded f i)).
Proof.
  intros Hne.
  assert (Hn : (1 <= length (column succeeded f i))%nat).
  { rewrite column_length. destruct succeeded; [congruence | simpl; lia]. }
  destruct (blendValues_mean_within_range_aux (column succeeded f i)
              (modelNames succeeded) trim Hn) as [Hlo Hhi].
  { rewrite column_length, modelNames_length. reflexivity. }
  split; apply round_le; assumption.
Qed.

(** X7. The wind, gust and temperature of a daily blended point, and the
    wind and gust of an hourly one, stay within the (rounded) range of what
    the surviving models gave at that index: no blend reports more wind
    than the windiest model or less than the calmest. *)
Theorem blended_point_within_models
        (i : nat) :
  (forall (succeeded : list (string * list DayForecast)) (d : DayForecast),
      succeeded <> [] ->
      let p := blendDay succeeded d i in
      round (minOf (column succeeded wind i)) <= wind p
                                              <= round (maxOf (column succeeded wind i))
      /\ round (minOf (column succeeded gust i)) <= gust p
                                                 <= round (maxOf (column succeeded gust i))
      /\ round (minOf (column succeeded temp i)) <= temp p
                                                 <= round (maxOf (column succeeded temp i)))
  /\ (forall (succeeded : list (string * list HourForecast)) (h : HourForecast),
         succeeded <> [] ->
         let p := blendHour succeeded h i in
         round (minOf (column succeeded hwind i)) <= hwind p
                                                  <= round (maxOf (column succeeded hwind i))
         /\ round (minOf (column succeeded hgust i)) <= hgust p
                                                     <= round (maxOf (column succeeded hgust i))).
Proof.
  split.
  - intros succeeded d Hne. unfold blendDay. cbn [wind gust temp].
    split; [|split]; apply rounded_blend_within_range; exact Hne.
  - intros succeeded h Hne. unfold blendHour. cbn [hwind hgust].
    split; apply rounded_blend_within_range; exact Hne.
Qed.

Lemma blended_point_within_models_onlyGFS :
  [("GFS"%string, [sampleDay])] <> []
  /\ round (minOf (column [("GFS"%string, [sampleDay])] wind 0))
     <= wind (blendDay [("GFS"%string, [sampleDay])] sampleDay 0)
     <= round (maxOf (column [("GFS"%string, [sampleDay])] wind 0)).
Proof.
  split; [discriminate|].
  apply (proj1 (blended_point_within_models 0)
               [("GFS"%string, [sampleDay])] sampleDay).
  discriminate.
Defined.

(** ** Unanimous directions *)

Lemma tan_shift_PI (x : R) : cos x <> 0 -> tan (x - PI) = sin x / cos x.
Proof.
  intros Hc. unfold tan.
  rewrite sin_minus, cos_minus, sin_PI, cos_PI. field. exact Hc.
Qed.

Lemma tan_shift_PI_plus (x : R) : cos x <> 0 -> tan (x + PI) = sin x / cos x.
Proof.
  intros Hc. unfold tan.
  rewrite sin_plus, cos_plus, sin_PI, cos_PI. field. exact Hc.
Qed.

(** [atan2] inverts the unit circle on (-PI, PI]. *)
Lemma atan2_sin_cos (x : R) : - PI < x <= PI -> atan2 (sin x) (cos x) = x.
Proof.
  intros [Hlo Hhi]. pose proof PI_RGT_0 as Hpi.
  destruct (Rlt_dec x (- (PI / 2))) as [H1|H1].
  - (* third quadrant *)
    assert (Hc : cos x < 0).
    { rewrite <- cos_neg. apply cos_lt_0; lra. }
    assert (Hs : sin x < 0) by (apply sin_lt_0_var; lra).
    unfold atan2. rewrite (ltb_false 0 (cos x)) by lra.
    rewrite (ltb_true (cos x) 0) by lra. rewrite (ltb_true (sin x) 0) by lra.
    rewrite <- tan_shift_PI_plus by lra. rewrite atan_tan by lra. lra.
  - apply Rnot_lt_le in H1.
    destruct (Req_dec_T x (- (PI / 2))) as [E|E].
    + subst x. unfold atan2. rewrite cos_neg, sin_neg, cos_PI2, sin_PI2.
      decide_cmp. reflexivity.
    + destruct (Rlt_dec x (PI / 2)) as [H2|H2].
      * assert (Hc : 0 < cos x) by (apply cos_gt_0; lra).
        rewrite atan2_pos_x by exact Hc.
        change (sin x / cos x) with (tan x). apply atan_tan. lra.
      * apply Rnot_lt_le in H2.
        destruct (Req_dec_T x (PI / 2)) as [E2|E2].
        -- subst x. unfold atan2. rewrite cos_PI2, sin_PI2.
           decide_cmp. reflexivity.
        -- assert (Hc : cos x < 0) by (apply cos_lt_0; lra).
           assert (Hs : 0 <= sin x) by (apply sin_ge_0; lra).
           unfold atan2. rewrite (ltb_false 0 (cos x)) by lra.
           rewrite (ltb_true (cos x) 0) by lra.
           rewrite (ltb_false (sin x) 0) by lra.
           rewrite <- tan_shift_PI by lra. rewrite atan_tan by lra. lra.
Qed.

Lemma Rsum_common_factor (g : R -> R) (a : R) (pairs : list (R * R)) :
  (forall aw, In aw pairs -> fst aw = a) ->
  Rsum (map (fun aw => g (fst aw) * snd aw) pairs)
  = g a * Rsum (map snd pairs).
Proof.
  induction pairs as [|aw pairs IH]; intros H; simpl; [lra|].
  rewrite IH by (intros x Hx; apply H; right; exact Hx).
  rewrite (H aw) by (left; reflexivity). lra.
Qed.

Lemma Rsum_snd_pos (pairs : list (R * R)) :
  pairs <> [] -> (forall aw, In aw pairs -> 0 < snd aw) ->
  0 < Rsum (map snd pairs).
Proof.
  induction pairs as [|aw pairs IH]; [congruence|]. intros _ H. simpl.
  assert (0 < snd aw) by (apply H; left; reflexivity).
  destruct pairs as [|aw' pairs]; [simpl; lra|].
  assert (0 < Rsum (map snd (aw' :: pairs))).
  { apply IH; [discriminate|]. intros x Hx. apply H. right. exact Hx. }
  lra.
Qed.

(** X8. When every model reports the same whole direction between 0 and
    359 degrees, the blended direction is that direction, for any positive
    weights. *)
Theorem circularMeanDeg_unanimous
        (angles ws : list R) (z : Z) :
  angles <> [] -> length ws = length angles ->
  (0 <= z < 360)%Z ->
  (forall a, In a angles -> a = IZR z) ->
  (forall w, In w ws -> 0 < w) ->
  circularMeanDeg angles ws = IZR z.
Proof.
  intros Hne Hlen Hz Hall Hpos. pose proof PI_RGT_0 as Hpi.
  unfold circularMeanDeg, circularMeanRaw.
  rewrite circularSums_pairs by exact Hlen.
  set (pairs := combine angles ws).
  assert (Hfst : forall aw, In aw pairs -> fst aw = IZR z).
  { intros [a w] Haw. apply Hall. exact (in_combine_l _ _ _ _ Haw). }
  assert (Hsnd : forall aw, In aw pairs -> 0 < snd aw).
  { intros [a w] Haw. apply Hpos. exact (in_combine_r _ _ _ _ Haw). }
  assert (Hpne : pairs <> []).
  { unfold pairs. destruct angles as [|a angles]; [congruence|].
    destruct ws as [|w ws]; [discriminate | discriminate]. }
  pose proof (Rsum_snd_pos pairs Hpne Hsnd) as HW.
  rewrite (Rsum_common_factor (fun a => sin (a * PI / 180)) (IZR z)) by exact Hfst.
  rewrite (Rsum_common_factor (fun a => cos (a * PI / 180)) (IZR z)) by exact Hfst.
  set (W := Rsum (map snd pairs)) in *.
  set (x := IZR z * PI / 180).
  replace (sin x * W / W) with (sin x) by (field; lra).
  replace (cos x * W / W) with (cos x) by (field; lra).
  assert (Hz0 : 0 <= IZR z) by (apply (IZR_le 0); lia).
  assert (Hz1 : IZR z <= 359) by (apply (IZR_le z 359); lia).
  assert (Hx : x = IZR z * (PI / 180)) by (unfold x; lra).
  assert (Hx0 : 0 <= x) by (rewrite Hx; apply Rmult_le_pos; lra).
  assert (Hx1 : x <= 359 * (PI / 180))
    by (rewrite Hx; apply Rmult_le_compat_r; lra).
  destruct (Rle_dec x PI) as [Hle|Hgt].
  - rewrite atan2_sin_cos by lra.
    replace (x * 180 / PI) with (IZR z) by (unfold x; field; lra).
    rewrite ltb_false by lra. apply round_IZR.
  - apply Rnot_le_lt in Hgt.
    replace (sin x) with (sin (x - 2 * PI))
      by (rewrite sin_minus, sin_2PI, cos_2PI; lra).
    replace (cos x) with (cos (x - 2 * PI))
      by (rewrite cos_minus, sin_2PI, cos_2PI; lra).
    rewrite atan2_sin_cos by lra.
    replace ((x - 2 * PI) * 180 / PI) with (IZR z - 360)
      by (unfold x; field; lra).
    rewrite ltb_true by lra.
    replace (IZR z - 360 + 360) with (IZR z) by lra. apply round_IZR.
Qed.

Lemma circularMeanDeg_unanimous_west :
  [270; 270; 270] <> []
  /\ circularMeanDeg [270; 270; 270] (map weightOf ["GFS"; "ECMWF"; "GEM"]%string)
     = 270.
Proof.
  split; [discriminate|].
  apply (circularMeanDeg_unanimous [270; 270; 270] _ 270);
    [discriminate | reflexivity | lia | |].
  - intros a [<-|[<-|[<-|[]]]]; reflexivity.
  - intros w Hw. apply in_map_iff in Hw. destruct Hw as (m & <- & _).
    apply weightOf_pos.
Defined.

(** * Further properties of the tide engine *)

(** ** Parsing the provider's events *)

Lemma toFixed_nonneg (d : nat) (x : R) : 0 <= x -> 0 <= toFixed d x.
Proof.
  intros Hx. assert (Hp : 0 < 10 ^ d) by (apply pow_lt; lra).
  unfold toFixed. rewrite ltb_false by lra.
  apply Rmult_le_pos; [|left; apply Rinv_0_lt_compat; exact Hp].
  apply (IZR_le 0). apply Zfloor_lub.
  assert (0 <= x * 10 ^ d) by (apply Rmult_le_pos; lra). lra.
Qed.

(** X9. Parsing keeps exactly the events at or after today's midnight, in
    the order received: the extremes stored are those events (time rounded
    to three decimals, height to one, a missing height read as 0), none has
    a negative hour, and an event before midnight is dropped. *)
Theorem parseExtremes_keeps_todays_events (data : list RawExtreme) :
  parseExtremes data
  = map parsedExtreme (filter (fun e => leb 0 (raw_absHour e)) data)
  /\ (forall e, In e (parseExtremes data) -> 0 <= absHour e)
  /\ (length (parseExtremes data) <= length data)%nat.
Proof.
  assert (Heq : parseExtremes data
                = map parsedExtreme (filter (fun e => leb 0 (raw_absHour e)) data)).
  { unfold parseExtremes. induction data as [|e data IH]; [reflexivity|].
    cbn [flat_map filter]. destruct (leb 0 (raw_absHour e)); [|exact IH].
    cbn [app map]. rewrite IH. reflexivity. }
  split; [exact Heq|]. split.
  - intros e He. rewrite Heq in He. apply in_map_iff in He.
    destruct He as (raw & <- & Hraw). apply filter_In in Hraw.
    destruct Hraw as [_ Hge]. cbn [parsedExtreme absHour].
    apply toFixed_nonneg. unfold leb in Hge.
    destruct (Rle_dec 0 (raw_absHour raw)); [assumption | discriminate].
  - rewrite Heq, length_map. apply filter_length_le.
Qed.

(** ** The durable cache *)

Lemma gridKey_eqb_eq (a b : GridKey) : gridKey_eqb a b = true <-> a = b.
Proof.
  destruct a as [a1 a2], b as [b1 b2]. unfold gridKey_eqb. cbn [fst snd].
  destruct (Req_dec_T a1 b1) as [E1|E1]; destruct (Req_dec_T a2 b2) as [E2|E2];
    cbn [andb]; split; intros H; try discriminate; try congruence.
Qed.

(** X10. What [saveCache] stores under a grid cell, [loadCache] gives back
    for any location of that cell while the record's date is today's and
    the storage does not throw; once the date differs the record is a
    miss; the records of other cells are left as they were.  A [setItem]
    that throws is swallowed: [saveCache] returns and the whole state is as
    before.  A [getItem] that throws reads as a miss. *)
Theorem saveCache_loadCache
        (env : Env) (st : State) (c : TideCache) (lat_ lng_ : R) :
  (gridKey lat_ lng_ = gridKey (lat c) (lng c) ->
   setItemThrows env (gridKey (lat c) (lng c)) c = false ->
   getItemThrows env (gridKey lat_ lng_) = false ->
   loadCache env (saveCache env st c) lat_ lng_
   = if String.eqb (date c) (todayStr env) then Some c else None)
  /\ (gridKey lat_ lng_ <> gridKey (lat c) (lng c) ->
      loadCache env (saveCache env st c) lat_ lng_ = loadCache env st lat_ lng_)
  /\ (setItemThrows env (gridKey (lat c) (lng c)) c = true ->
      saveCache env st c = st)
  /\ (getItemThrows env (gridKey lat_ lng_) = true ->
      loadCache env (saveCache env st c) lat_ lng_ = None)
  /\ memCache (saveCache env st c) = memCache st.
Proof.
  split; [|split; [|split; [|split]]].
  - intros E Hset Hget. unfold loadCache, saveCache. rewrite Hset, Hget.
    cbn [localStorage]. rewrite (proj2 (gridKey_eqb_eq _ _) E).
    destruct (String.eqb (date c) (todayStr env)); reflexivity.
  - intros NE. unfold loadCache, saveCache.
    destruct (setItemThrows env (gridKey (lat c) (lng c)) c); [reflexivity|].
    cbn [localStorage].
    destruct (gridKey_eqb (gridKey lat_ lng_) (gridKey (lat c) (lng c))) eqn:E;
      [|reflexivity].
    apply gridKey_eqb_eq in E. contradiction.
  - intros Hset. unfold saveCache. rewrite Hset. reflexivity.
  - intros Hget. unfold loadCache. rewrite Hget. reflexivity.
  - unfold saveCache.
    destruct (setItemThrows env (gridKey (lat c) (lng c)) c); reflexivity.
Qed.

Lemma saveCache_loadCache_overnight :
  gridKey 45 (-73.5) = gridKey (lat yesterdaysRecord) (lng yesterdaysRecord)
  /\ loadCache secondOfNovember
               (saveCache secondOfNovember freshStart yesterdaysRecord)
               45 (-73.5)
     = None
  /\ loadCache (utcNoon "2026-11-01" 20758 [])
               (saveCache (utcNoon "2026-11-01" 20758 []) freshStart
                          yesterdaysRecord)
               45 (-73.5)
     = Some yesterdaysRecord
  /\ saveCache storageFull freshStart yesterdaysRecord = freshStart.
Proof.
  split; [reflexivity|]. split; [|split].
  - exact (proj1 (saveCache_loadCache secondOfNovember freshStart
                    yesterdaysRecord 45 (-73.5)) eq_refl eq_refl eq_refl).
  - exact (proj1 (saveCache_loadCache (utcNoon "2026-11-01" 20758 []) freshStart
                    yesterdaysRecord 45 (-73.5)) eq_refl eq_refl eq_refl).
  - exact (proj1 (proj2 (proj2 (saveCache_loadCache storageFull freshStart
                                  yesterdaysRecord 45 (-73.5)))) eq_refl).
Defined.

(** ** After the response *)

Lemma cacheCovers_own_record (env : Env) (st : State) (c : TideCache) :
  memCache st = Some c -> date c = todayStr env ->
  cacheCovers env st (lat c) (lng c) = true.
Proof.
  intros Hm Hd. unfold cacheCovers. rewrite Hm, Hd, String.eqb_refl.
  cbn [negb].
  replace (lat c - lat c) with 0 by lra.
  replace (lng c - lng c) with 0 by lra.
  rewrite Rabs_R0. rewrite ltb_true by lra. reflexivity.
Qed.

(** X11. Once the response of a request has been parsed, the promise
    resolves to true, the record is in memory under today's date, the
    marker is cleared, and the next call for the same location is answered
    from memory without any request; that call reports whether hourly
    levels exist, although the fetch itself resolved to true.  The record
    is also in the durable cache, provided the storage does not throw: a
    [setItem] that throws is swallowed and leaves the durable cache as it
    was, without any other consequence. *)
Theorem successful_fetch_is_cached
        (env : Env) (st : State) (p : nat) (r : Request)
        (data : list RawExtreme) :
  find (fun q => Nat.eqb (rid q) p) (pending st) = Some r ->
  let extremes_ := parseExtremes data in
  let record := {| date := todayStr env; lat := rlat r; lng := rlng r;
                   seaLevels := interpolateFromExtremes extremes_;
                   extremes := extremes_ |} in
  let st' := snd (settle env st p (Json data)) in
  fst (settle env st p (Json data)) = Some true
  /\ memCache st' = Some record
  /\ (setItemThrows env (gridKey (rlat r) (rlng r)) record = false ->
      getItemThrows env (gridKey (rlat r) (rlng r)) = false ->
      loadCache env st' (rlat r) (rlng r) = Some record)
  /\ (setItemThrows env (gridKey (rlat r) (rlng r)) record = true ->
      forall k, localStorage st' k = localStorage st k)
  /\ inflight st' = None /\ inflightGrid st' = None
  /\ (forall q, In q (pending st') -> rid q <> p)
  /\ fetchTideData env st' (rlat r) (rlng r)
     = (Returned (nonEmpty (interpolateFromExtremes extremes_)), st').
Proof.
  intros Hf extremes_ record st'.
  assert (Hs : settle env st p (Json data)
               = (Some true,
                  clearInflight (saveCache env (setMemCache st record) record) p)).
  { unfold settle. rewrite Hf. reflexivity. }
  assert (Hmem : memCache (saveCache env (setMemCache st record) record)
                 = Some record).
  { unfold saveCache.
    destruct (setItemThrows env (gridKey (lat record) (lng record)) record);
      reflexivity. }
  unfold st'. rewrite Hs. cbn [fst snd].
  split; [reflexivity|]. split; [exact Hmem|].
  split; [|split; [|split; [|split; [|split]]]].
  - intros Hset Hget. unfold loadCache, clearInflight, saveCache.
    cbn [lat lng record]. rewrite Hset, Hget.
    cbn [localStorage date record].
    rewrite gridKey_eqb_refl, String.eqb_refl. reflexivity.
  - intros Hset k. unfold clearInflight, saveCache.
    cbn [lat lng record]. rewrite Hset. reflexivity.
  - reflexivity.
  - reflexivity.
  - intros q Hq. unfold clearInflight in Hq. cbn [pending] in Hq.
    apply filter_In in Hq. destruct Hq as [_ Hq].
    destruct (Nat.eqb_spec (rid q) p); [discriminate | assumption].
  - unfold fetchTideData.
    rewrite (cacheCovers_own_record env _ record) by (exact Hmem || reflexivity).
    unfold clearInflight at 1. cbn [memCache]. rewrite Hmem. reflexivity.
Qed.

Lemma successful_fetch_is_cached_montreal :
  let st := issueRequest freshStart 45 (-73.5) in
  let data := [mkRaw 2 (Some 1.04) false; mkRaw 8 (Some 3.02) true] in
  find (fun q => Nat.eqb (rid q) 0) (pending st) = Some (mkRequest 0 45 (-73.5))
  /\ fst (settle secondOfNovember st 0 (Json data)) = Some true
  /\ fst (settle storageFull st 0 (Json data)) = Some true
  /\ (forall k, localStorage (snd (settle storageFull st 0 (Json data))) k = None).
Proof.
  cbv zeta. split; [reflexivity|]. split; [|split].
  - exact (proj1 (successful_fetch_is_cached secondOfNovember
                    (issueRequest freshStart 45 (-73.5)) 0 (mkRequest 0 45 (-73.5))
                    [mkRaw 2 (Some 1.04) false; mkRaw 8 (Some 3.02) true]
                    eq_refl)).
  - exact (proj1 (successful_fetch_is_cached storageFull
                    (issueRequest freshStart 45 (-73.5)) 0 (mkRequest 0 45 (-73.5))
                    [mkRaw 2 (Some 1.04) false; mkRaw 8 (Some 3.02) true]
                    eq_refl)).
  - exact (proj1 (proj2 (proj2 (proj2
             (successful_fetch_is_cached storageFull
                (issueRequest freshStart 45 (-73.5)) 0 (mkRequest 0 45 (-73.5))
                [mkRaw 2 (Some 1.04) false; mkRaw 8 (Some 3.02) true]
                eq_refl)))) eq_refl).
Defined.

(** X12. A failed fetch (bad status, network or parse error) is not cached:
    the promise resolves to false, memory and durable cache are untouched,
    and the marker is cleared, so that the next call that finds nothing in
    memory, in the durable cache or among the seeds, for that location or
    any other, sends a fresh request. *)
Theorem failed_fetch_is_not_cached
        (env : Env) (st : State) (p : nat) (r : Request) (res : Response) :
  find (fun q => Nat.eqb (rid q) p) (pending st) = Some r ->
  res = HttpNotOk \/ res = Failed ->
  let st' := snd (settle env st p res) in
  fst (settle env st p res) = Some false
  /\ memCache st' = memCache st
  /\ (forall k, localStorage st' k = localStorage st k)
  /\ inflight st' = None /\ inflightGrid st' = None
  /\ (forall lat_ lng_ : R,
         cacheCovers env st' lat_ lng_ = false ->
         loadCache env st' lat_ lng_ = None ->
         findSeed env lat_ lng_ = None ->
         String.eqb (apiKey st') "" = false ->
         fetchTideData env st' lat_ lng_
         = (Awaits (issued st), issueRequest st' lat_ lng_)).
Proof.
  intros Hf Hres st'.
  assert (Hs : settle env st p res = (Some false, clearInflight st p)).
  { unfold settle. rewrite Hf. destruct Hres as [-> | ->]; reflexivity. }
  unfold st'. rewrite Hs. cbn [fst snd].
  split; [reflexivity|]. split; [reflexivity|]. split; [reflexivity|].
  split; [reflexivity|]. split; [reflexivity|].
  intros lat_ lng_ Hc Hl Hseed Hkey.
  apply (fetchTideData_uncached env (clearInflight st p)); try assumption.
  exact I.
Qed.

Lemma findSeed_far_from_montreal : findSeed seededToday 36 (-5.7) = None.
Proof.
  unfold findSeed, seededToday, utcNoon, yesterdaysRecord.
  cbn [TIDE_SEEDS find lat lng].
  rewrite (ltb_false (Rabs (45 - 36)) 0.2) by (unfold_abs; lra).
  reflexivity.
Qed.

Lemma failed_fetch_is_not_cached_tarifa :
  let st := issueRequest freshStart 36 (-5.7) in
  let st' := snd (settle seededToday st 0 HttpNotOk) in
  find (fun q => Nat.eqb (rid q) 0) (pending st) = Some (mkRequest 0 36 (-5.7))
  /\ TIDE_SEEDS seededToday = [yesterdaysRecord]
  /\ fst (settle seededToday st 0 HttpNotOk) = Some false
  /\ fetchTideData seededToday st' 36 (-5.7)
     = (Awaits 1, issueRequest st' 36 (-5.7)).
Proof.
  cbv zeta. split; [reflexivity|]. split; [reflexivity|].
  pose proof (failed_fetch_is_not_cached seededToday
                (issueRequest freshStart 36 (-5.7)) 0 (mkRequest 0 36 (-5.7))
                HttpNotOk eq_refl (or_introl eq_refl)) as H.
  cbv zeta in H. destruct H as (H1 & _ & _ & _ & _ & H6).
  split; [exact H1|].
  apply (H6 36 (-5.7));
    [reflexivity | reflexivity | exact findSeed_far_from_montreal | reflexivity].
Defined.

(** ** What a call may do to the network *)

(** X13. One call of [fetchTideData] sends at most one request: either it
    sends none and leaves the pending requests as they are, or it sends
    exactly one, for the location asked, and waits on it.  A call that
    returns a boolean at once sends none, and without a provider key no
    call ever sends one.  The durable cache and the key are never changed
    by the call itself. *)
Theorem fetchTideData_sends_at_most_one
        (env : Env) (st : State) (lat_ lng_ : R) :
  let r := fst (fetchTideData env st lat_ lng_) in
  let st' := snd (fetchTideData env st lat_ lng_) in
  ((issued st' = issued st /\ pending st' = pending st)
   \/ (r = Awaits (issued st) /\ issued st' = S (issued st)
       /\ pending st' = pending st ++ [mkRequest (issued st) lat_ lng_]))
  /\ (forall b, r = Returned b ->
                issued st' = issued st /\ pending st' = pending st)
  /\ (apiKey st = ""%string ->
      (exists b, r = Returned b)
      /\ issued st' = issued st /\ pending st' = pending st)
  /\ (forall k, localStorage st' k = localStorage st k)
  /\ apiKey st' = apiKey st.
Proof.
  cbv zeta. unfold fetchTideData.
  destruct (cacheCovers env st lat_ lng_).
  { cbn [fst snd]. split; [left; split; reflexivity|].
    split; [intros b _; split; reflexivity|].
    split; [intros _; split; [eexists; reflexivity | split; reflexivity]|].
    split; reflexivity. }
  destruct (loadCache env st lat_ lng_) as [cached|].
  { cbn [fst snd]. split; [left; split; reflexivity|].
    split; [intros b _; split; reflexivity|].
    split; [intros _; split; [eexists; reflexivity | split; reflexivity]|].
    split; reflexivity. }
  destruct (findSeed env lat_ lng_) as [seed|].
  { cbn [fst snd]. split; [left; split; reflexivity|].
    split; [intros b _; split; reflexivity|].
    split; [intros _; split; [eexists; reflexivity | split; reflexivity]|].
    split; reflexivity. }
  destruct (String.eqb_spec (apiKey st) "") as [Hk|Hk].
  { cbn [fst snd]. split; [left; split; reflexivity|].
    split; [intros b _; split; reflexivity|].
    split; [intros _; split; [eexists; reflexivity | split; reflexivity]|].
    split; reflexivity. }
  assert (Hnew : forall x : CallResult * State,
             x = (Awaits (issued st), issueRequest st lat_ lng_) ->
             ((issued (snd x) = issued st /\ pending (snd x) = pending st)
              \/ (fst x = Awaits (issued st) /\ issued (snd x) = S (issued st)
                  /\ pending (snd x)
                     = pending st ++ [mkRequest (issued st) lat_ lng_]))
             /\ (forall b, fst x = Returned b ->
                           issued (snd x) = issued st
                           /\ pending (snd x) = pending st)
             /\ (apiKey st = ""%string ->
                 (exists b, fst x = Returned b)
                 /\ issued (snd x) = issued st /\ pending (snd x) = pending st)
             /\ (forall k, localStorage (snd x) k = localStorage st k)
             /\ apiKey (snd x) = apiKey st).
  { intros x ->. cbn [fst snd issueRequest issued pending localStorage apiKey].
    split; [right; repeat split|].
    split; [intros b Hb; discriminate|].
    split; [intros Hk'; contradiction|]. split; reflexivity. }
  destruct (inflight st) as [q|]; [|apply Hnew; reflexivity].
  destruct (inflightGrid st) as [g|]; [|apply Hnew; reflexivity].
  destruct (gridKey_eqb g (gridKey lat_ lng_)); [|apply Hnew; reflexivity].
  cbn [fst snd]. split; [left; split; reflexivity|].
  split; [intros b Hb; discriminate|].
  split; [intros Hk'; contradiction|]. split; reflexivity.
Qed.

(** X14. The synchronous query never touches the network or the durable
    cache: [tideAt] can only replace the record in memory (by a seed, when
    the one in memory is for another latitude); pending requests, the
    request count, the marker, the key and the durable cache stay as they
    were. *)
Theorem tideAt_stays_off_the_network
        (env : Env) (st : State) (dayOffset hour lat_ : R) :
  let st' := snd (tideAt env st dayOffset hour lat_) in
  pending st' = pending st /\ issued st' = issued st
  /\ inflight st' = inflight st /\ inflightGrid st' = inflightGrid st
  /\ apiKey st' = apiKey st
  /\ (forall k, localStorage st' k = localStorage st k)
  /\ (memCache st' = memCache st
      \/ exists seed, In seed (TIDE_SEEDS env)
                      /\ Rabs (lat seed - lat_) < 0.2
                      /\ memCache st' = Some (withDate (todayStr env) seed)).
Proof.
  cbv zeta.
  assert (Hst : snd (tideAt env st dayOffset hour lat_)
                = snd (ensureCache env st lat_)).
  { unfold tideAt. destruct (ensureCache env st lat_) as [[c|] st1]; cbn [snd];
      [|reflexivity].
    destruct (seaLevels c) as [|first rest]; [reflexivity|].
    destruct (nearest _ _ _ _) as [best bestDist].
    destruct (leb bestDist 1.5); reflexivity. }
  rewrite Hst.
  assert (Hseed : forall x,
             x = match findSeedByLat env lat_ with
                 | Some seed => (Some seed, setMemCache st seed)
                 | None => (None, st)
                 end ->
             pending (snd x) = pending st /\ issued (snd x) = issued st
             /\ inflight (snd x) = inflight st
             /\ inflightGrid (snd x) = inflightGrid st
             /\ apiKey (snd x) = apiKey st
             /\ (forall k, localStorage (snd x) k = localStorage st k)
             /\ (memCache (snd x) = memCache st
                 \/ exists seed, In seed (TIDE_SEEDS env)
                                 /\ Rabs (lat seed - lat_) < 0.2
                                 /\ memCache (snd x)
                                    = Some (withDate (todayStr env) seed))).
  { intros x ->. unfold findSeedByLat.
    destruct (find _ (TIDE_SEEDS env)) as [seed|] eqn:E; cbn [snd].
    - repeat (split; [reflexivity|]). right. exists seed.
      apply find_some in E. destruct E as [Hin Hlt].
      split; [exact Hin|]. split; [|reflexivity].
      unfold ltb in Hlt.
      destruct (Rlt_dec (Rabs (lat seed - lat_)) 0.2); [assumption | discriminate].
    - repeat (split; [reflexivity|]). left. reflexivity. }
  unfold ensureCache. destruct (memCache st) as [c|] eqn:Hm.
  - destruct (ltb (Rabs (lat c - lat_)) 0.3).
    + cbn [snd]. repeat (split; [reflexivity|]). left. exact Hm.
    + apply Hseed. reflexivity.
  - apply Hseed. reflexivity.
Qed.

(** ** Seeded spots *)

(** X15. A spot within 0.2 degrees (latitude and longitude) of a seed
    station, with nothing valid in memory or in the durable cache, is
    answered true from the seed table at no network cost: the seed, dated
    today, becomes the record in memory, and the next call is served from
    it. *)
Theorem seeded_spot_needs_no_request
        (env : Env) (st : State) (lat_ lng_ : R) (s : TideCache) :
  In s (TIDE_SEEDS env) ->
  Rabs (lat s - lat_) < 0.2 -> Rabs (lng s - lng_) < 0.2 ->
  cacheCovers env st lat_ lng_ = false ->
  loadCache env st lat_ lng_ = None ->
  exists seed,
    In seed (TIDE_SEEDS env)
    /\ Rabs (lat seed - lat_) < 0.2 /\ Rabs (lng seed - lng_) < 0.2
    /\ let st' := setMemCache st (withDate (todayStr env) seed) in
       fetchTideData env st lat_ lng_ = (Returned true, st')
       /\ issued st' = issued st /\ pending st' = pending st
       /\ fetchTideData env st' lat_ lng_
          = (Returned (nonEmpty (seaLevels seed)), st').
Proof.
  intros Hin Hlat Hlng Hcov Hload.
  destruct (find (fun seed => ltb (Rabs (lat seed - lat_)) 0.2
                              && ltb (Rabs (lng seed - lng_)) 0.2)
                 (TIDE_SEEDS env)) as [seed|] eqn:E.
  - pose proof (find_some _ _ E) as [Hs Hnear].
    apply andb_prop in Hnear. destruct Hnear as [H1 H2].
    unfold ltb in H1, H2.
    destruct (Rlt_dec (Rabs (lat seed - lat_)) 0.2) as [H1'|]; [|discriminate].
    destruct (Rlt_dec (Rabs (lng seed - lng_)) 0.2) as [H2'|]; [|discriminate].
    exists seed. split; [exact Hs|]. split; [exact H1'|]. split; [exact H2'|].
    cbv zeta. split; [|split; [reflexivity|split; [reflexivity|]]].
    + unfold fetchTideData, findSeed. rewrite Hcov, Hload, E. reflexivity.
    + unfold fetchTideData, cacheCovers, setMemCache, withDate.
      cbn [memCache date lat lng seaLevels]. rewrite String.eqb_refl.
      cbn [negb]. rewrite !ltb_true by lra. reflexivity.
  - exfalso. pose proof (find_none _ _ E s Hin) as Hn. cbv beta in Hn.
    rewrite !ltb_true in Hn by assumption. discriminate.
Qed.

Lemma seeded_spot_needs_no_request_montreal :
  In yesterdaysRecord (TIDE_SEEDS seededToday)
  /\ exists seed,
       fetchTideData seededToday freshStart 45.1 (-73.6)
       = (Returned true,
          setMemCache freshStart (withDate (todayStr seededToday) seed)).
Proof.
  split; [left; reflexivity|].
  destruct (seeded_spot_needs_no_request seededToday freshStart 45.1 (-73.6)
              yesterdaysRecord)
    as (seed & _ & _ & _ & Hf & _).
  - left; reflexivity.
  - cbn [lat yesterdaysRecord]. unfold_abs. lra.
  - cbn [lng yesterdaysRecord]. unfold_abs. lra.
  - reflexivity.
  - reflexivity.
  - exists seed. exact Hf.
Defined.

(** ** Where a synchronous answer comes from *)

Lemma Rabs_le_both (a e : R) : Rabs a <= e -> - e <= a <= e.
Proof. unfold Rabs. destruct (Rcase_abs a); lra. Qed.

(** X16. [tideAt] answers either with the level of a sample of the record
    it resolved, one nearest to the time asked and no more than 1.5 hours
    from it, or with the simulated level rounded to two decimals, which is
    always between -0.385 and 4.585 metres. *)
Theorem tideAt_cached_or_simulated
        (env : Env) (st : State) (dayOffset hour lat_ : R) :
  let v := fst (tideAt env st dayOffset hour lat_) in
  let target := dayOffset * 24 + hour in
  (exists c sl,
      fst (ensureCache env st lat_) = Some c
      /\ In sl (seaLevels c) /\ v = sl_level sl
      /\ Rabs (sl_absHour sl - target) <= 1.5
      /\ forall s, In s (seaLevels c) ->
                   Rabs (sl_absHour sl - target) <= Rabs (sl_absHour s - target))
  \/ (v = toFixed 2 (tideRaw env dayOffset hour lat_)
      /\ -0.385 <= v <= 4.585).
Proof.
  cbv zeta.
  assert (Hsim : toFixed 2 (tideRaw env dayOffset hour lat_)
                 = toFixed 2 (tideRaw env dayOffset hour lat_)
                 /\ -0.385 <= toFixed 2 (tideRaw env dayOffset hour lat_) <= 4.585).
  { split; [reflexivity|].
    pose proof (tideRaw_bounds env dayOffset hour lat_) as Hb.
    pose proof (toFixed_close 2 (tideRaw env dayOffset hour lat_)) as Hc.
    rewrite pow_10_2 in Hc. apply Rabs_le_both in Hc. lra. }
  unfold tideAt.
  destruct (ensureCache env st lat_) as [[c|] st1]; cbn [fst];
    [|right; exact Hsim].
  destruct (seaLevels c) as [|first rest] eqn:E; [right; exact Hsim|].
  set (target := dayOffset * 24 + hour).
  pose proof (nearest_spec target (first :: rest) first _ eq_refl) as Hn.
  destruct (nearest target (first :: rest) first _) as [best bestDist].
  cbn [fst snd] in Hn. destruct Hn as (H1 & H2 & H3 & H4).
  unfold leb. destruct (Rle_dec bestDist 1.5) as [Hle|Hgt]; cbn [fst];
    [|right; exact Hsim].
  left. exists c, best. split; [reflexivity|]. rewrite E.
  split; [destruct H2 as [->|H2]; [left; reflexivity | exact H2]|].
  split; [reflexivity|]. rewrite <- H1. split; [exact Hle | exact H4].
Qed.

(** ** Shape of the interpolated curve *)

Lemma last_In {A : Type} (l : list A) (d : A) : l <> [] -> In (last l d) l.
Proof.
  induction l as [|x l IH]; [congruence|]. intros _.
  destruct l as [|y l]; [left; reflexivity|].
  right. apply IH. discriminate.
Qed.

Lemma bracket_In (h : R) (es : list CachedExtreme) (d1 d2 : CachedExtreme) :
  let r := bracket h es (d1, d2) in
  r = (d1, d2) \/ (In (fst r) es /\ In (snd r) es).
Proof.
  induction es as [|e1 es IH]; [left; reflexivity|].
  destruct es as [|e2 es]; [left; reflexivity|].
  cbn [bracket].
  destruct (leb (absHour e1) h && leb h (absHour e2)).
  - right. cbn [fst snd]. split; [left; reflexivity | right; left; reflexivity].
  - destruct IH as [IH|[IH1 IH2]]; [left; exact IH|].
    right. split; right; assumption.
Qed.

Lemma eased_between (lb la c : R) :
  0 <= c <= 1 -> Rmin lb la <= lb + (la - lb) * c <= Rmax lb la.
Proof.
  intros Hc. unfold Rmin, Rmax. destruct (Rle_dec lb la); split; nra.
Qed.

(** X17. No interpolated level overshoots: each hourly level lies between
    the levels of two of the extremes given, up to the 0.005 of the final
    rounding, also for the hours that no pair of extremes brackets. *)
Theorem interpolated_levels_within_extremes
        (es : list CachedExtreme) (sl : SeaLevel) :
  In sl (interpolateFromExtremes es) ->
  exists e1 e2,
    In e1 es /\ In e2 es
    /\ Rmin (level e1) (level e2) - 0.005
       <= sl_level sl <= Rmax (level e1) (level e2) + 0.005.
Proof.
  intros Hsl.
  destruct es as [|first [|second rest]]; [destruct Hsl | destruct Hsl |].
  set (es := first :: second :: rest) in *.
  unfold interpolateFromExtremes in Hsl. fold es in Hsl.
  apply in_map_iff in Hsl. destruct Hsl as (h & <- & _).
  unfold levelAt.
  assert (Hfirst : In first es) by (left; reflexivity).
  assert (Hlast : In (last es first) es) by (apply last_In; discriminate).
  pose proof (bracket_In (INR h) es first (last es first)) as Hb.
  destruct (bracket (INR h) es (first, last es first)) as [before after].
  cbn [fst snd] in Hb.
  assert (Hin : In before es /\ In after es).
  { destruct Hb as [Hb|Hb]; [injection Hb as -> ->; split; assumption | exact Hb]. }
  destruct Hin as [Hbe Haf].
  exists before, after. split; [exact Hbe|]. split; [exact Haf|].
  pose proof (Rmin_l (level before) (level after)).
  pose proof (Rmax_l (level before) (level after)).
  destruct (leb (absHour after - absHour before) 0); cbn [sl_level]; [lra|].
  set (c := (1 - cos _) / 2).
  assert (Hc : 0 <= c <= 1).
  { unfold c. match goal with |- context [cos ?a] => pose proof (COS_bound a) end.
    lra. }
  pose proof (eased_between (level before) (level after) c Hc) as He.
  pose proof (toFixed_close 2 (level before + (level after - level before) * c))
    as Ht.
  rewrite pow_10_2 in Ht. apply Rabs_le_both in Ht. lra.
Qed.

Lemma interpolated_levels_within_extremes_scenario :
  In (mkSeaLevel 5 2) (interpolateFromExtremes scenarioExtremes)
  /\ exists e1 e2,
       In e1 scenarioExtremes /\ In e2 scenarioExtremes
       /\ Rmin (level e1) (level e2) - 0.005
          <= 2 <= Rmax (level e1) (level e2) + 0.005.
Proof.
  assert (Hin : In (mkSeaLevel 5 2) (interpolateFromExtremes scenarioExtremes)).
  { apply (nth_error_In _ 5). unfold scenarioExtremes.
    rewrite interpolate_nth by (unfold totalHours; lia).
    fold scenarioExtremes. rewrite scenario_hour_5. reflexivity. }
  split; [exact Hin|].
  exact (interpolated_levels_within_extremes scenarioExtremes _ Hin).
Defined.

Lemma toFixed_2_of_hundredths (k : Z) : toFixed 2 (IZR k / 100) = IZR k / 100.
Proof.
  destruct (Rlt_dec (IZR k / 100) 0) as [Hneg|Hpos].
  - rewrite (toFixed_neg_eq 2 (- k)) by (rewrite ?pow_10_2, ?opp_IZR; lra).
    rewrite pow_10_2, opp_IZR. lra.
  - rewrite (toFixed_nonneg_eq 2 k) by (rewrite ?pow_10_2; lra).
    rewrite pow_10_2. reflexivity.
Qed.

(** X18. Boundary exactness: with two or more extremes in strictly
    increasing order of time, the level interpolated at the (whole) hour of
    an extreme is that extreme's level rounded to two decimals, and hence
    the level itself when it has at most two decimals. *)
Theorem interpolation_exact_at_extremes
        (es : list CachedExtreme) (i h : nat) (e : CachedExtreme) :
  chronological es -> (2 <= length es)%nat -> (h < 7 * 24)%nat ->
  nth_error es i = Some e -> absHour e = INR h ->
  nth_error (interpolateFromExtremes es) h
  = Some (mkSeaLevel (INR h) (toFixed 2 (level e)))
  /\ (forall k : Z, level e = IZR k / 100 ->
        nth_error (interpolateFromExtremes es) h
        = Some (mkSeaLevel (INR h) (level e))).
Proof.
  intros Hchr Hlen Hh Hi He.
  assert (Hmain : nth_error (interpolateFromExtremes es) h
                  = Some (mkSeaLevel (INR h) (toFixed 2 (level e)))).
  { destruct es as [|first [|second rest]]; try (simpl in Hlen; lia).
    set (es := first :: second :: rest) in *.
    unfold es at 1. rewrite interpolate_nth by exact Hh. fold es.
    f_equal. unfold levelAt.
    destruct i as [|j].
    - (* the first extreme: the pair (0, 1), at t = 0 *)
      injection Hi as ->.
      assert (Hlt : absHour e < absHour second)
        by (apply (Hchr 0%nat 1%nat); [lia | reflexivity | reflexivity]).
      rewrite (bracket_first (INR h) es 0 e second);
        [|reflexivity | reflexivity | lra | intros j Hj; lia].
      rewrite leb_false by lra.
      replace ((INR h - absHour e) / (absHour second - absHour e) * PI) with 0
        by (rewrite He; unfold Rdiv; ring).
      rewrite cos_0. f_equal. f_equal. lra.
    - (* a later extreme: the pair (j, j + 1), at t = 1 *)
      destruct (nth_error es j) as [ej|] eqn:Ej.
      2:{ apply nth_error_None in Ej.
          assert (S j < length es)%nat
            by (apply nth_error_Some; rewrite Hi; discriminate).
          lia. }
      assert (Hlt : absHour ej < absHour e)
        by (apply (Hchr j (S j)); [lia | exact Ej | exact Hi]).
      rewrite (bracket_first (INR h) es j ej e); [|exact Ej | exact Hi | lra|].
      + rewrite leb_false by lra.
        replace ((INR h - absHour ej) / (absHour e - absHour ej) * PI) with PI
          by (rewrite He; field; lra).
        rewrite cos_PI. f_equal. f_equal. lra.
      + intros j' Hj' (x & y & Hx & Hy & Hxy).
        assert (absHour y < absHour e)
          by (apply (Hchr (S j') (S j)); [lia | exact Hy | exact Hi]).
        lra. }
  split; [exact Hmain|].
  intros k Hk. rewrite Hmain, Hk, toFixed_2_of_hundredths. reflexivity.
Qed.

Lemma scenario_chronological : chronological scenarioExtremes.
Proof.
  intros a b ea eb Hab Ha Hb. unfold scenarioExtremes in Ha, Hb.
  destruct a as [|[|a]]; destruct b as [|[|b]]; try lia;
    cbn [nth_error] in Ha, Hb;
    try (destruct b; discriminate); try (destruct a; discriminate).
  injection Ha as <-. injection Hb as <-. cbn [absHour]. lra.
Qed.

Lemma interpolation_exact_at_extremes_scenario :
  chronological scenarioExtremes
  /\ nth_error (interpolateFromExtremes scenarioExtremes) 8
     = Some (mkSeaLevel (INR 8) (toFixed 2 3.0)).
Proof.
  split; [exact scenario_chronological|].
  refine (proj1 (interpolation_exact_at_extremes scenarioExtremes 1 8
                   (mkExtreme 8 3.0 high) scenario_chronological _ _ eq_refl _)).
  - simpl; lia.
  - lia.
  - simpl; lra.
Defined.

(** * Properties of the single-model fetchers and the forecast cache *)
Module ForecastFacts.
Import Forecast.

Lemma Req_eqb_refl (a : R) : Req_eqb a a = true.
Proof. unfold Req_eqb. destruct (Req_dec_T a a); [reflexivity | congruence]. Qed.

Lemma dailyKey_eqb_eq (a b : DailyKey) : dailyKey_eqb a b = true <-> a = b.
Proof.
  destruct a as [[la ga] ma], b as [[lb gb] mb]. unfold dailyKey_eqb, Req_eqb.
  destruct (Req_dec_T la lb) as [E1|E1]; destruct (Req_dec_T ga gb) as [E2|E2];
    destruct (String.eqb_spec ma mb) as [E3|E3]; cbn [andb];
    split; intros H; try discriminate; try congruence.
Qed.

Lemma dailyKey_eqb_refl (a : DailyKey) : dailyKey_eqb a a = true.
Proof. apply dailyKey_eqb_eq. reflexivity. Qed.

Lemma known_model_not_blend (model base_ : string) :
  MODEL_URL model = Some base_ -> String.eqb model "BLEND" = false.
Proof.
  intros H. destruct (String.eqb_spec model "BLEND") as [->|]; [|reflexivity].
  discriminate.
Qed.

Lemma dailyRun_hit (w : World) (now : R) (c : Caches) (lat lng : R)
      (model : string) (ts : R) (data : list DayForecast) :
  dailyCache c (lat, lng, model) = Some (ts, data) ->
  now - ts < CACHE_TTL ->
  dailyRun w now c lat lng model = (Resolves data, None, []).
Proof.
  intros Hc Hf. unfold dailyRun, dailyStart. rewrite Hc.
  rewrite ltb_true by exact Hf. reflexivity.
Qed.

(** X19. A cached daily forecast is served for exactly 15 minutes: while
    the entry of a base model is younger than the TTL the call returns it
    without a request and without touching the cache; from the TTL on the
    entry is ignored and exactly one request is sent. *)
Theorem daily_cache_entry_valid_for_ttl
        (w : World) (now : R) (c : Caches) (lat lng : R) (model base_ : string)
        (ts : R) (data : list DayForecast) :
  MODEL_URL model = Some base_ ->
  dailyCache c (lat, lng, model) = Some (ts, data) ->
  (now - ts < 900000 ->
   fetchDailyForecast w now c lat lng model = (Resolves data, c, []))
  /\ (900000 <= now - ts ->
      snd (fetchDailyForecast w now c lat lng model)
      = [mkRequest base_ lat lng Daily]).
Proof.
  intros Hu Hc. unfold fetchDailyForecast.
  rewrite (known_model_not_blend _ _ Hu).
  split; intros Ht.
  - rewrite (dailyRun_hit w now c lat lng model ts data Hc)
      by (unfold CACHE_TTL; lra).
    reflexivity.
  - unfold dailyRun, dailyStart. rewrite Hc, Hu.
    rewrite ltb_false by (unfold CACHE_TTL; lra).
    destruct (dailyFinish w model _) as [o wr]. reflexivity.
Qed.

(** X20. Two calls for the same location and model within 15 minutes send
    one request: when the first call had to ask the provider and got a
    body, its result is stored under the arrival time, and a call made less
    than the TTL after that returns the same data, sends nothing and leaves
    the cache as it is; after [clearForecastCache] the provider is asked
    again. *)
Theorem daily_second_call_hits_cache
        (w : World) (now now2 : R) (c : Caches) (lat lng : R)
        (model : string) (req : Request) (json : Json) :
  dailyStart now c lat lng model = Sent req ->
  respond w req = Body json ->
  now2 - arrival w req < CACHE_TTL ->
  exists data c1,
    fetchDailyForecast w now c lat lng model = (Resolves data, c1, [req])
    /\ dailyCache c1 (lat, lng, model) = Some (arrival w req, data)
    /\ fetchDailyForecast w now2 c1 lat lng model = (Resolves data, c1, [])
    /\ snd (fetchDailyForecast w now2 (clearForecastCache c1) lat lng model)
       = [req].
Proof.
  intros Hs Hr Ht.
  assert (Hu : exists b, MODEL_URL model = Some b /\ req = mkRequest b lat lng Daily).
  { unfold dailyStart in Hs.
    destruct (MODEL_URL model) as [b|].
    - exists b. split; [reflexivity|].
      destruct (dailyCache c (lat, lng, model)) as [[ts d]|];
        [destruct (ltb (now - ts) CACHE_TTL); [discriminate|]|];
        injection Hs as <-; reflexivity.
    - destruct (dailyCache c (lat, lng, model)) as [[ts d]|];
        [destruct (ltb (now - ts) CACHE_TTL)|]; discriminate. }
  destruct Hu as (b & Hu & Hreq).
  pose proof (known_model_not_blend _ _ Hu) as Hnb.
  set (d := match daily json with Some o => o | None => emptyObject end).
  set (data := dailyPoints w d).
  set (c1 := setDaily c (lat, lng, model) (arrival w req, data)).
  exists data, c1.
  assert (H1 : fetchDailyForecast w now c lat lng model
               = (Resolves data, c1, [req])).
  { unfold fetchDailyForecast, dailyRun, dailyFinish. rewrite Hnb, Hs, Hr.
    reflexivity. }
  assert (H2 : dailyCache c1 (lat, lng, model) = Some (arrival w req, data)).
  { unfold c1, setDaily. cbn [dailyCache]. rewrite dailyKey_eqb_refl.
    reflexivity. }
  split; [exact H1|]. split; [exact H2|]. split.
  - unfold fetchDailyForecast. rewrite Hnb.
    rewrite (dailyRun_hit w now2 c1 lat lng model _ _ H2 Ht). reflexivity.
  - unfold fetchDailyForecast, dailyRun, dailyStart, clearForecastCache.
    rewrite Hnb. cbn [dailyCache]. rewrite Hu, <- Hreq.
    destruct (dailyFinish w model req) as [o wr]. reflexivity.
Qed.

(** X21. A daily call that throws changes nothing in the cache; an unknown
    model throws before any request is sent, and a response that is not OK
    throws the model's name with the status. *)
Theorem daily_failure_leaves_cache
        (w : World) (now : R) (c : Caches) (lat lng : R) (model : string) :
  String.eqb model "BLEND" = false ->
  (forall msg,
      fst (fst (fetchDailyForecast w now c lat lng model)) = Throws msg ->
      snd (fst (fetchDailyForecast w now c lat lng model)) = c)
  /\ (dailyStart now c lat lng model = UnknownModel ->
      fetchDailyForecast w now c lat lng model
      = (Throws ("Unknown model: " ++ model), c, []))
  /\ (forall req status,
         dailyStart now c lat lng model = Sent req ->
         respond w req = NotOk status ->
         fetchDailyForecast w now c lat lng model
         = (Throws (model ++ ": " ++ string_of_nat status), c, [req])).
Proof.
  intros Hnb. unfold fetchDailyForecast, dailyRun. rewrite Hnb.
  split; [|split].
  - intros msg. destruct (dailyStart now c lat lng model) as [data| |req];
      cbn [fst snd]; try reflexivity.
    unfold dailyFinish. destruct (respond w req); cbn [fst snd];
      try reflexivity. discriminate.
  - intros ->. reflexivity.
  - intros req status -> Hr. unfold dailyFinish. rewrite Hr. reflexivity.
Qed.

Lemma daily_failure_leaves_cache_gfs :
  String.eqb "GFS" "BLEND" = false
  /\ fetchDailyForecast quietWorld 0 noForecasts 45 (-73.5) "GFS"
     = (Throws "GFS: 503", noForecasts,
        [mkRequest "https://api.open-meteo.com/v1/gfs" 45 (-73.5) Daily]).
Proof.
  split; [reflexivity|].
  exact (proj2 (proj2 (daily_failure_leaves_cache quietWorld 0 noForecasts
                         45 (-73.5) "GFS" eq_refl))
               (mkRequest "https://api.open-meteo.com/v1/gfs" 45 (-73.5) Daily)
               503%nat eq_refl eq_refl).
Defined.

Lemma daily_second_call_hits_cache_gfs :
  dailyStart 0 noForecasts 45 (-73.5) "GFS"
  = Sent (mkRequest "https://api.open-meteo.com/v1/gfs" 45 (-73.5) Daily)
  /\ exists data c1,
       fetchDailyForecast answeringWorld 0 noForecasts 45 (-73.5) "GFS"
       = (Resolves data, c1,
          [mkRequest "https://api.open-meteo.com/v1/gfs" 45 (-73.5) Daily])
       /\ fetchDailyForecast answeringWorld 60000 c1 45 (-73.5) "GFS"
          = (Resolves data, c1, []).
Proof.
  split; [reflexivity|].
  destruct (daily_second_call_hits_cache answeringWorld 0 60000 noForecasts
              45 (-73.5) "GFS"
              (mkRequest "https://api.open-meteo.com/v1/gfs" 45 (-73.5) Daily)
              _ eq_refl eq_refl)
    as (data & c1 & H1 & _ & H2 & _).
  - cbn [arrival answeringWorld]. unfold CACHE_TTL. lra.
  - exists data, c1. split; [exact H1 | exact H2].
Defined.

Lemma daily_cache_entry_valid_for_ttl_gfs :
  let c := setDaily noForecasts (45, -73.5, "GFS"%string) (1000, [sampleDay]) in
  dailyCache c (45, -73.5, "GFS"%string) = Some (1000, [sampleDay])
  /\ (60000 - 1000 < 900000 ->
      fetchDailyForecast quietWorld 60000 c 45 (-73.5) "GFS"
      = (Resolves [sampleDay], c, [])).
Proof.
  cbv zeta.
  assert (Hc : dailyCache (setDaily noForecasts (45, -73.5, "GFS"%string)
                             (1000, [sampleDay])) (45, -73.5, "GFS"%string)
               = Some (1000, [sampleDay])).
  { unfold setDaily. cbn [dailyCache]. rewrite dailyKey_eqb_refl. reflexivity. }
  split; [exact Hc|].
  exact (proj1 (daily_cache_entry_valid_for_ttl quietWorld 60000 _ 45 (-73.5)
                  "GFS" _ 1000 [sampleDay] eq_refl Hc)).
Defined.

Lemma num_nil (i : nat) : num [] i = 0.
Proof. unfold num. destruct i; reflexivity. Qed.

Lemma round_0 : round 0 = 0.
Proof. apply (round_eq 0). lra. Qed.

(** X22. A daily response yields one point per entry of its [time] array
    (none when the [daily] object or [time] is missing); wind, gust and
    temperature are whole numbers, cloud and the three legacy tide fields
    are 0, and no spread, confidence or agreement label is set; an array
    the provider left out reads as zeros. *)
Theorem dailyPoints_shape (w : World) (d : JsonObject) :
  length (dailyPoints w d)
  = length (match time d with Some t => t | None => [] end)
  /\ dailyPoints w emptyObject = []
  /\ (forall p, In p (dailyPoints w d) ->
        (exists z : Z, wind p = IZR z) /\ (exists z : Z, gust p = IZR z)
        /\ (exists z : Z, temp p = IZR z)
        /\ (exists z : Z, rain p = IZR z / 10)
        /\ cloud p = 0 /\ tideHigh p = 0 /\ tideLow p = 0 /\ tideRange p = 0
        /\ spread_ p = None /\ confidence_ p = None /\ modelAgreement p = None
        /\ (member d "wind_speed_10m_max" = None ->
            member d "windspeed_10m_max" = None -> wind p = 0)
        /\ (member d "temperature_2m_max" = None -> temp p = 0)).
Proof.
  split; [unfold dailyPoints, mapi; apply length_mapi_from|].
  split; [reflexivity|].
  intros p Hp. unfold dailyPoints, mapi in Hp.
  apply In_mapi_from in Hp. destruct Hp as (date_ & i & _ & ->).
  cbn [wind gust temp rain cloud tideHigh tideLow tideRange
       spread_ confidence_ modelAgreement].
  split; [eexists; reflexivity|]. split; [eexists; reflexivity|].
  split; [eexists; reflexivity|]. split; [eexists; reflexivity|].
  repeat (split; [reflexivity|]).
  split.
  - intros H1 H2. unfold member2. rewrite H1, H2, num_nil.
    rewrite Rmult_0_l. apply round_0.
  - intros H1. unfold member1. rewrite H1, num_nil. apply round_0.
Qed.

(** ** The hourly fetcher *)

Lemma num_beyond (l : list (option R)) (i : nat) :
  (length l <= i)%nat -> num l i = 0.
Proof.
  intros H. unfold num. rewrite (proj2 (nth_error_None l i) H). reflexivity.
Qed.

Lemma hourlyPointsFrom_nth (env : Tide.Env) (h : JsonObject) (dayOff : nat)
      (lat : R) :
  forall (n i : nat) (ts : Tide.State),
    length (fst (hourlyPointsFrom env h dayOff lat i n ts)) = n
    /\ forall j, (j < n)%nat ->
         exists p,
           nth_error (fst (hourlyPointsFrom env h dayOff lat i n ts)) j = Some p
           /\ hour p = (padStart 2 "0" (string_of_nat (i + j)) ++ ":00")%string
           /\ hwind p = round (num (member2 h "wind_speed_10m" "windspeed_10m")
                                   (dayOff * 24 + (i + j)) * KMH_TO_KTS)
           /\ hgust p = round (num (member2 h "wind_gusts_10m" "windgusts_10m")
                                   (dayOff * 24 + (i + j)) * KMH_TO_KTS)
           /\ htemp p = num (member1 h "temperature_2m") (dayOff * 24 + (i + j))
           /\ hrain p = num (member1 h "precipitation") (dayOff * 24 + (i + j))
           /\ hspread p = None /\ hconfidence p = None.
Proof.
  induction n as [|n IH]; intros i ts.
  - split; [reflexivity | intros j Hj; lia].
  - cbn [hourlyPointsFrom].
    destruct (Tide.tideAt env ts (INR dayOff) (INR i) lat) as [tide_ ts1].
    specialize (IH (S i) ts1).
    destruct (hourlyPointsFrom env h dayOff lat (S i) n ts1) as [rest ts2].
    cbn [fst] in *. destruct IH as [IHlen IHnth].
    split; [simpl; rewrite IHlen; reflexivity|].
    intros [|j] Hj.
    + eexists. split; [reflexivity|]. rewrite Nat.add_0_r.
      cbn [hour hwind hgust htemp hrain hspread hconfidence].
      repeat split.
    + destruct (IHnth j ltac:(lia)) as (p & Hp & Hrest).
      exists p. split; [exact Hp|].
      replace (i + S j)%nat with (S i + j)%nat by lia. exact Hrest.
Qed.

(** X23. An hourly response always yields exactly 24 points, labelled
    00:00 to 23:00, read from the hourly arrays at index [dayOff * 24 + i];
    where the response is shorter than that the wind, gust, temperature and
    rain are 0.  The result is stored under the arrival time. *)
Theorem hourly_always_24_points
        (w : World) (env : Tide.Env) (now : R) (c : Caches) (ts : Tide.State)
        (lat lng : R) (model : string) (dayOff : nat)
        (req : Request) (json : Json) :
  hourlyStart now c lat lng model dayOff = Sent req ->
  respond w req = Body json ->
  let h := match hourly json with Some o => o | None => emptyObject end in
  exists data c' ts',
    fetchHourlyForecast_single w env now c ts lat lng model dayOff
    = (Resolves data, c', ts', [req])
    /\ length data = 24%nat
    /\ (forall i, (i < 24)%nat ->
          exists p,
            nth_error data i = Some p
            /\ hour p = (padStart 2 "0" (string_of_nat i) ++ ":00")%string
            /\ hwind p = round (num (member2 h "wind_speed_10m" "windspeed_10m")
                                    (dayOff * 24 + i) * KMH_TO_KTS)
            /\ htemp p = num (member1 h "temperature_2m") (dayOff * 24 + i)
            /\ ((length (member2 h "wind_speed_10m" "windspeed_10m")
                 <= dayOff * 24 + i)%nat -> hwind p = 0)
            /\ hspread p = None /\ hconfidence p = None)
    /\ (padStart 2 "0" (string_of_nat 0) ++ ":00" = "00:00"
        /\ padStart 2 "0" (string_of_nat 23) ++ ":00" = "23:00")%string
    /\ hourlyCache c' (lat, lng, model, dayOff) = Some (arrival w req, data).
Proof.
  intros Hs Hr h.
  pose proof (hourlyPointsFrom_nth env h dayOff lat 24 0 ts) as [Hlen Hnth].
  unfold fetchHourlyForecast_single. rewrite Hs, Hr. fold h.
  destruct (hourlyPointsFrom env h dayOff lat 0 24 ts) as [data ts'].
  cbn [fst] in Hlen, Hnth.
  exists data, (setHourly c (lat, lng, model, dayOff) (arrival w req, data)), ts'.
  split; [reflexivity|]. split; [exact Hlen|]. split; [|split].
  - intros i Hi. destruct (Hnth i Hi) as (p & Hp & Hh & Hw & _ & Ht & _ & Hs1 & Hs2).
    cbn [Nat.add] in Hh, Hw, Ht.
    exists p. split; [exact Hp|]. split; [exact Hh|]. split; [exact Hw|].
    split; [exact Ht|]. split; [|split; assumption].
    intros Hshort. rewrite Hw, num_beyond by exact Hshort.
    rewrite Rmult_0_l. apply round_0.
  - split; reflexivity.
  - unfold setHourly. cbn [hourlyCache]. unfold hourlyKey_eqb.
    rewrite !Req_eqb_refl, String.eqb_refl, Nat.eqb_refl. reflexivity.
Qed.

Lemma hourly_always_24_points_gfs :
  hourlyStart 0 noForecasts 45 (-73.5) "GFS" 6
  = Sent (mkRequest "https://api.open-meteo.com/v1/gfs" 45 (-73.5) Hourly)
  /\ exists data c' ts',
       fetchHourlyForecast_single answeringWorld secondOfNovember 0 noForecasts
                                  freshStart 45 (-73.5) "GFS" 6
       = (Resolves data, c', ts',
          [mkRequest "https://api.open-meteo.com/v1/gfs" 45 (-73.5) Hourly])
       /\ length data = 24%nat.
Proof.
  split; [reflexivity|].
  destruct (hourly_always_24_points answeringWorld secondOfNovember 0
              noForecasts freshStart 45 (-73.5) "GFS" 6
              (mkRequest "https://api.open-meteo.com/v1/gfs" 45 (-73.5) Hourly)
              _ eq_refl eq_refl)
    as (data & c' & ts' & H1 & H2 & _).
  exists data, c', ts'. split; [exact H1 | exact H2].
Defined.

(** ** The blend and the cache *)

Lemma fold_writes_other_key (lat lng : R)
      (f : string -> option (R * list DayForecast)) (k : DailyKey) :
  forall (ms : list string) (c : Caches),
    (forall m, In m ms -> k <> (lat, lng, m)) ->
    let c' := fold_left (fun c' m => applyDailyWrite c' (lat, lng, m) (f m)) ms c in
    dailyCache c' k = dailyCache c k
    /\ hourlyCache c' = hourlyCache c.
Proof.
  induction ms as [|m ms IH]; intros c Hk; [split; reflexivity|].
  cbn [fold_left].
  destruct (IH (applyDailyWrite c (lat, lng, m) (f m))
               (fun m' Hm' => Hk m' (or_intror Hm'))) as [H1 H2].
  cbv zeta in H1, H2. cbv zeta. rewrite H1, H2.
  unfold applyDailyWrite. destruct (f m) as [e|]; [|split; reflexivity].
  unfold setDaily. cbn [dailyCache hourlyCache]. split; [|reflexivity].
  destruct (dailyKey_eqb k (lat, lng, m)) eqn:E; [|reflexivity].
  apply dailyKey_eqb_eq in E. exfalso. exact (Hk m (or_introl eq_refl) E).
Qed.

Lemma dailyRun_requests (w : World) (now : R) (c : Caches) (lat lng : R)
      (m : string) :
  snd (dailyRun w now c lat lng m) = []
  \/ exists b, MODEL_URL m = Some b
               /\ snd (dailyRun w now c lat lng m) = [mkRequest b lat lng Daily].
Proof.
  unfold dailyRun, dailyStart.
  destruct (MODEL_URL m) as [b|].
  - destruct (dailyCache c (lat, lng, m)) as [[ts d]|];
      [destruct (ltb (now - ts) CACHE_TTL); [left; reflexivity|]|];
      right; exists b; split; try reflexivity;
      destruct (dailyFinish w m _); reflexivity.
  - destruct (dailyCache c (lat, lng, m)) as [[ts d]|];
      [destruct (ltb (now - ts) CACHE_TTL)|]; left; reflexivity.
Qed.

(** X24. A blended forecast is never cached itself: a BLEND call writes
    only under the keys of the five base models at that location, so the
    BLEND key, every other location and the hourly cache are as before; it
    sends at most five requests, each a daily request for that location to
    a base model's endpoint. *)
Theorem blend_is_never_cached
        (w : World) (now : R) (c : Caches) (lat lng : R) :
  let c' := snd (fst (fetchDailyForecast w now c lat lng "BLEND")) in
  let reqs := snd (fetchDailyForecast w now c lat lng "BLEND") in
  (forall k, (forall m, In m BASE_MODELS -> k <> (lat, lng, m)) ->
             dailyCache c' k = dailyCache c k)
  /\ dailyCache c' (lat, lng, "BLEND"%string)
     = dailyCache c (lat, lng, "BLEND"%string)
  /\ hourlyCache c' = hourlyCache c
  /\ (length reqs <= 5)%nat
  /\ (forall r, In r reqs ->
        exists m, In m BASE_MODELS /\ MODEL_URL m = Some (base r)
                  /\ latitude r = lat /\ longitude r = lng
                  /\ granularity r = Daily).
Proof.
  cbv zeta. unfold fetchDailyForecast.
  replace (String.eqb "BLEND" "BLEND") with true by reflexivity.
  cbn [fst snd].
  set (f := fun m => snd (fst (dailyRun w now c lat lng m))).
  assert (Hother : forall k, (forall m, In m BASE_MODELS -> k <> (lat, lng, m)) ->
             dailyCache (fold_left (fun c' m => applyDailyWrite c' (lat, lng, m) (f m))
                                   BASE_MODELS c) k = dailyCache c k).
  { intros k Hk. exact (proj1 (fold_writes_other_key lat lng f k BASE_MODELS c Hk)). }
  split; [exact Hother|]. split; [|split; [|split]].
  - apply Hother. intros m Hm E. injection E as <-.
    unfold BASE_MODELS in Hm.
    repeat (destruct Hm as [Hm|Hm]; [discriminate|]). destruct Hm.
  - assert (Hh : forall ms c0,
               hourlyCache (fold_left (fun c' m => applyDailyWrite c' (lat, lng, m) (f m))
                                      ms c0) = hourlyCache c0).
    { induction ms as [|m ms IH]; intros c0; [reflexivity|].
      cbn [fold_left]. rewrite IH. unfold applyDailyWrite.
      destruct (f m); reflexivity. }
    apply Hh.
  - unfold BASE_MODELS. cbn [flat_map]. rewrite !length_app.
    repeat match goal with
           | |- context [snd (dailyRun w now c lat lng ?m)] =>
               let H := fresh in
               destruct (dailyRun_requests w now c lat lng m) as [H|(? & _ & H)];
               rewrite H; clear H
           end; simpl; lia.
  - intros r Hr. apply in_flat_map in Hr. destruct Hr as (m & Hm & Hr).
    destruct (dailyRun_requests w now c lat lng m) as [H|(b & Hu & H)];
      rewrite H in Hr; [destruct Hr|].
    destruct Hr as [<-|[]]. exists m. cbn [base latitude longitude granularity].
    repeat split; assumption.
Qed.

(** X25. When the cache holds an entry younger than the TTL for each of the
    five base models at a location, a BLEND call there sends no request,
    leaves the cache as it is and resolves with the blend of the cached
    data: one point per entry of the cached GFS forecast, each the blend,
    at its index, of the five cached forecasts. *)
Theorem blend_served_from_fresh_cache
        (w : World) (now : R) (c : Caches) (lat lng : R)
        (cached : string -> list DayForecast) :
  (forall m, In m BASE_MODELS ->
             exists ts, dailyCache c (lat, lng, m) = Some (ts, cached m)
                        /\ now - ts < CACHE_TTL) ->
  let ok := map (fun m => (m, cached m)) BASE_MODELS in
  exists pts,
    fetchDailyForecast w now c lat lng "BLEND" = (Resolves pts, c, [])
    /\ length pts = length (cached "GFS"%string)
    /\ forall i p, nth_error pts i = Some p -> blendOfDay ok i p.
Proof.
  intros Hall ok.
  assert (Hrun : forall m, In m BASE_MODELS ->
             dailyRun w now c lat lng m = (Resolves (cached m), None, [])).
  { intros m Hm. destruct (Hall m Hm) as (ts & Hc & Hf).
    apply (dailyRun_hit w now c lat lng m ts (cached m) Hc Hf). }
  pose proof (Hrun "GFS"%string) as H1.
  pose proof (Hrun "ECMWF"%string) as H2.
  pose proof (Hrun "ICON"%string) as H3.
  pose proof (Hrun "MF"%string) as H4.
  pose proof (Hrun "GEM"%string) as H5.
  unfold BASE_MODELS in H1, H2, H3, H4, H5.
  specialize (H1 ltac:(simpl; tauto)). specialize (H2 ltac:(simpl; tauto)).
  specialize (H3 ltac:(simpl; tauto)). specialize (H4 ltac:(simpl; tauto)).
  specialize (H5 ltac:(simpl; tauto)).
  exists (mapi (blendDay ok) (cached "GFS"%string)).
  split; [|split].
  - unfold fetchDailyForecast.
    replace (String.eqb "BLEND" "BLEND") with true by reflexivity.
    unfold fetchDailyForecast_BLEND, BASE_MODELS.
    cbn [map fold_left flat_map]. rewrite H1, H2, H3, H4, H5.
    cbn [fst snd toSettled succeededOf applyDailyWrite app].
    reflexivity.
  - apply length_mapi_from.
  - intros i p Hp. apply nth_error_mapi in Hp.
    destruct Hp as (d & _ & ->). apply blendDay_is_blend.
Qed.

Lemma blend_served_from_fresh_cache_warm :
  (forall m, In m BASE_MODELS ->
             exists ts, dailyCache warmCache (45, -73.5, m) = Some (ts, cachedDay m)
                        /\ 60000 - ts < CACHE_TTL)
  /\ spread_ sampleDay = None
  /\ exists p,
       fetchDailyForecast quietWorld 60000 warmCache 45 (-73.5) "BLEND"
       = (Resolves [p], warmCache, [])
       /\ spread_ p = Some 8.
Proof.
  assert (H : forall m, In m BASE_MODELS ->
              exists ts, dailyCache warmCache (45, -73.5, m) = Some (ts, cachedDay m)
                         /\ 60000 - ts < CACHE_TTL).
  { intros m Hm. exists 1000. split; [reflexivity | unfold CACHE_TTL; lra]. }
  split; [exact H|]. split; [reflexivity|].
  destruct (blend_served_from_fresh_cache quietWorld 60000 warmCache 45 (-73.5)
              cachedDay H) as (pts & Hf & Hlen & Hb).
  destruct pts as [|p [|q pts]]; try discriminate Hlen.
  exists p. split; [exact Hf|].
  destruct (Hb 0%nat p eq_refl) as (_ & _ & _ & _ & _ & Hs & _).
  rewrite Hs. f_equal.
  rewrite blendValues_spread by (simpl; lia).
  unfold BASE_MODELS, cachedDay.
  cbn [map fst snd fieldAt nth_error wind sampleDay breezyDay String.eqb
       Ascii.eqb Bool.eqb maxOf minOf fold_left].
  unfold_minmax. lra.
Defined.

End ForecastFacts.

(** * Properties of the peaks of the day *)
Module PeaksFacts.
Import Peaks.

Lemma samples_length (env : Env) (dayOffset lat_ : R) :
  length (samples env dayOffset lat_) = 241%nat.
Proof. unfold samples. rewrite length_map, length_seq. reflexivity. Qed.

Lemma samples_nth (env : Env) (dayOffset lat_ : R) (i : nat) :
  (i <= 240)%nat ->
  nth i (samples env dayOffset lat_) (0, 0) = sampleAt env dayOffset lat_ i.
Proof.
  intros Hi. apply nth_error_nth. unfold samples.
  rewrite nth_error_map_seq by (unfold steps; lia). reflexivity.
Qed.

Lemma INR_steps : INR steps = 240.
Proof. unfold steps. rewrite INR_IZR_INZ. reflexivity. Qed.

(** X26. Every simulated peak is a strict local extremum of the 241 samples
    taken every tenth of an hour: it sits at an interior sample (so its
    hour is strictly between 0 and 24), a high is above both neighbouring
    samples and a low below both, and its level is the sample rounded to
    one decimal. *)
Theorem simPeaks_are_local_extrema
        (env : Env) (dayOffset lat_ : R) :
  let v := fun j : nat => tideRaw env dayOffset (INR j / 240 * 24) lat_ in
  Forall (fun p =>
            exists i : nat,
              (1 <= i <= 239)%nat
              /\ hour p = INR i / 240 * 24 /\ 0 < hour p < 24
              /\ level p = toFixed 1 (v i)
              /\ ((type p = high /\ v (i - 1)%nat < v i /\ v (i + 1)%nat < v i)
                  \/ (type p = low /\ v i < v (i - 1)%nat /\ v i < v (i + 1)%nat)))
         (simPeaks env dayOffset lat_).
Proof.
  intros v. apply Forall_forall. intros p Hp. unfold simPeaks in Hp. rewrite samples_length in Hp.
  apply in_flat_map in Hp. destruct Hp as (i & Hi & Hp).
  apply in_seq in Hi. exists i. split; [lia|].
  unfold peaksAt in Hp.
  rewrite !samples_nth in Hp by lia.
  unfold sampleAt in Hp. cbn [fst snd] in Hp. rewrite INR_steps in Hp.
  change (tideRaw env dayOffset (INR (i - 1) / 240 * 24) lat_)
    with (v (i - 1)%nat) in Hp.
  change (tideRaw env dayOffset (INR (i + 1) / 240 * 24) lat_)
    with (v (i + 1)%nat) in Hp.
  change (tideRaw env dayOffset (INR i / 240 * 24) lat_) with (v i) in Hp.
  assert (Hi1 : 1 <= INR i) by (apply (le_INR 1); lia).
  assert (Hi2 : INR i <= 239).
  { replace 239 with (INR 239) by (rewrite INR_IZR_INZ; reflexivity).
    apply le_INR. lia. }
  assert (Hh : 0 < INR i / 240 * 24 < 24) by lra.
  apply in_app_or in Hp. destruct Hp as [Hp|Hp].
  - destruct (ltb (v (i - 1)%nat) (v i) && ltb (v (i + 1)%nat) (v i)) eqn:E;
      [|destruct Hp].
    destruct Hp as [<-|[]]. cbn [hour level type makePeak].
    split; [reflexivity|]. split; [exact Hh|]. split; [reflexivity|].
    left. apply andb_prop in E. destruct E as [E1 E2]. unfold ltb in E1, E2.
    destruct (Rlt_dec (v (i - 1)%nat) (v i)); [|discriminate].
    destruct (Rlt_dec (v (i + 1)%nat) (v i)); [|discriminate].
    repeat split; assumption.
  - destruct (ltb (v i) (v (i - 1)%nat) && ltb (v i) (v (i + 1)%nat)) eqn:E;
      [|destruct Hp].
    destruct Hp as [<-|[]]. cbn [hour level type makePeak].
    split; [reflexivity|]. split; [exact Hh|]. split; [reflexivity|].
    right. apply andb_prop in E. destruct E as [E1 E2]. unfold ltb in E1, E2.
    destruct (Rlt_dec (v i) (v (i - 1)%nat)); [|discriminate].
    destruct (Rlt_dec (v i) (v (i + 1)%nat)); [|discriminate].
    repeat split; assumption.
Qed.

(** X27. [tidePeaks] reports the cached extremes of the day, in the order
    stored, whenever the record it resolved has at least one in the 24-hour
    window: each peak then has an hour in [0, 24) and the level and type of
    its extreme, unrounded.  With no record, or none of its extremes in the
    window, the peaks are the simulated ones. *)
Theorem tidePeaks_prefers_cached_extremes
        (env : Env) (st : State) (dayOffset lat_ : R) :
  let dayStart := dayOffset * 24 in
  let peaks := fst (tidePeaks env st dayOffset lat_) in
  match fst (ensureCache env st lat_) with
  | Some c =>
      let today := filter (inDay dayStart) (extremes c) in
      (today <> [] ->
       peaks = map (cachedPeak dayStart) today
       /\ forall p, In p peaks ->
            0 <= hour p < 24
            /\ exists e, In e (extremes c)
                         /\ absHour e = dayStart + hour p
                         /\ level p = Tide.level e /\ type p = Tide.type e)
      /\ (today = [] -> peaks = simPeaks env dayOffset lat_)
  | None => peaks = simPeaks env dayOffset lat_
  end.
Proof.
  cbv zeta. unfold tidePeaks.
  destruct (ensureCache env st lat_) as [[c|] st']; cbn [fst]; [|reflexivity].
  set (dayStart := dayOffset * 24).
  set (today := filter (inDay dayStart) (extremes c)).
  assert (Hex : today <> [] -> nonEmpty (extremes c) = true).
  { intros Hne. destruct (extremes c); [exfalso; apply Hne; reflexivity | reflexivity]. }
  split.
  - intros Hne. rewrite (Hex Hne).
    assert (Hr : nonEmpty (map (cachedPeak dayStart) today) = true)
      by (destruct today; [congruence | reflexivity]).
    rewrite Hr. cbn [fst]. split; [reflexivity|].
    intros p Hp. apply in_map_iff in Hp. destruct Hp as (e & <- & He).
    apply filter_In in He. destruct He as [He Hin].
    unfold inDay in Hin. apply andb_prop in Hin. destruct Hin as [H1 H2].
    unfold leb in H1. unfold ltb in H2.
    destruct (Rle_dec dayStart (absHour e)); [|discriminate].
    destruct (Rlt_dec (absHour e) (dayStart + 24)); [|discriminate].
    cbn [cachedPeak hour level type]. split; [lra|].
    exists e. split; [exact He|]. split; [lra|]. split; reflexivity.
  - intros Hnil. destruct (nonEmpty (extremes c)); [|reflexivity].
    rewrite Hnil. reflexivity.
Qed.

End PeaksFacts.

(** * Properties of the compass label *)
Module TypesFacts.
Import Types.

Lemma dirLabel_of_sector (deg : R) (k : Z) :
  (0 <= k <= 8)%Z ->
  45 * IZR k - 22.5 <= deg < 45 * IZR k + 22.5 ->
  dirLabel deg = nth_error dirs (Z.to_nat (k mod 8)).
Proof.
  intros Hk Hd. unfold dirLabel.
  rewrite (Zfloor_eq k) by lra.
  assert (Hc : (k = 0 \/ k = 1 \/ k = 2 \/ k = 3 \/ k = 4 \/ k = 5
                \/ k = 6 \/ k = 7 \/ k = 8)%Z) by lia.
  repeat (destruct Hc as [->|Hc]; [reflexivity|]). subst k. reflexivity.
Qed.

(** X28. [dirLabel] names the 45-degree sector a direction falls in: a
    direction within 22.5 degrees below (inclusive) or above (exclusive) of
    [45 k], for k from 0 to 8, gets the k-th of N, NE, E, SE, S, SW, W, NW,
    the 8th being N again; so 0 and 360 both read N, and the direction of
    any blend, which may be 360, always has a label. *)
Theorem dirLabel_sectors :
  (forall (deg : R) (k : Z),
      (0 <= k <= 8)%Z ->
      45 * IZR k - 22.5 <= deg < 45 * IZR k + 22.5 ->
      dirLabel deg = nth_error dirs (Z.to_nat (k mod 8)))
  /\ dirLabel 0 = Some "N"%string /\ dirLabel 360 = Some "N"%string
  /\ (forall angles ws,
         exists label, dirLabel (circularMeanDeg angles ws) = Some label
                       /\ In label dirs).
Proof.
  split; [exact dirLabel_of_sector|].
  split; [apply (dirLabel_of_sector 0 0); [lia | lra]|].
  split; [apply (dirLabel_of_sector 360 8); [lia | lra]|].
  intros angles ws.
  destruct (round_range _ (circularMeanRaw_range angles ws))
    as (z & Hz & Hr).
  unfold circularMeanDeg. rewrite Hz.
  assert (Hz0 : 0 <= IZR z <= 360)
    by (split; [apply (IZR_le 0) | apply (IZR_le z 360)]; lia).
  set (k := Zfloor (IZR z / 45 + / 2)).
  assert (Hk : (0 <= k <= 8)%Z).
  { pose proof (Zfloor_bound (IZR z / 45 + / 2)) as Hb. fold k in Hb.
    split; [apply Zfloor_lub; lra|].
    assert (k < 9)%Z by (apply lt_IZR; lra). lia. }
  assert (Hd : 45 * IZR k - 22.5 <= IZR z < 45 * IZR k + 22.5).
  { pose proof (Zfloor_bound (IZR z / 45 + / 2)) as Hb. fold k in Hb. lra. }
  rewrite (dirLabel_of_sector (IZR z) k Hk Hd).
  assert (Hc : (k = 0 \/ k = 1 \/ k = 2 \/ k = 3 \/ k = 4 \/ k = 5
                \/ k = 6 \/ k = 7 \/ k = 8)%Z) by lia.
  repeat (destruct Hc as [->|Hc];
          [eexists; split; [reflexivity | simpl; tauto]|]).
  rewrite Hc. eexists; split; [reflexivity | simpl; tauto].
Qed.

End TypesFacts.
